(** * echo-server: a shallow embedding of [cmd/echo-server/main.go]

    The development follows the Go source function by function.  Go strings
    are byte sequences, so they are Rocq [string]s (lists of 8-bit [ascii]);
    [http.Header] is a finite map from canonical header names to the list of
    values; the response writer, the request body stream and standard output
    are threaded explicitly.  What the process reads from its surroundings
    (the environment, the host name, the frames a WebSocket peer sends, the
    ticks of the SSE timer) is an explicit input of the function reading it. *)

From Stdlib Require Import ZArith Ascii DecimalString DecimalPos Lia.
From stdpp Require Import base gmap strings list sorting.

Local Open Scope Z_scope.

(** ** Bytes *)

Definition byte (c : ascii) : Z := Z.of_N (N_of_ascii c).
Definition chr (z : Z) : ascii := ascii_of_N (Z.to_N z).

(** The line feed written by every ["\n"] of a Go format string. *)
Definition LF : string := String "010"%char "".

Definition in_range (lo hi : ascii) (c : ascii) : bool :=
  (byte lo <=? byte c) && (byte c <=? byte hi).

Definition is_upper : ascii → bool := in_range "A" "Z".
Definition is_lower : ascii → bool := in_range "a" "z".
Definition is_digit : ascii → bool := in_range "0" "9".

(** A text between double quotes, as in the JSON literals of the source. *)
Definition quoted (s : string) : string :=
  String "034"%char s +:+ String "034"%char "".

(** ['a' - 'A'], the distance the library adds or subtracts to change case. *)
Definition toLower : Z := 32.

(** ** Package [unicode/utf8] and the folding table of [unicode] *)

Module Utf8.

Definition RuneSelf : Z := 128.
Definition RuneError : Z := 65533.

Definition cont (c : ascii) : bool := (128 <=? byte c) && (byte c <=? 191).
Definition low6 (c : ascii) : Z := Z.land (byte c) 63.

(** [utf8.DecodeRuneInString]: the first rune of [s] and its width in
    bytes; [(RuneError, 1)] for an invalid or truncated encoding (over-long
    forms, surrogates and values above U+10FFFF are invalid), and
    [(RuneError, 0)] for the empty string. *)
Definition DecodeRuneInString (s : string) : Z * nat :=
  match s with
  | EmptyString => (RuneError, 0%nat)
  | String c0 s1 =>
      let b0 := byte c0 in
      if b0 <? 128 then (b0, 1%nat)
      else if (194 <=? b0) && (b0 <=? 223) then
        match s1 with
        | String c1 _ =>
            if cont c1
            then (Z.lor (Z.shiftl (Z.land b0 31) 6) (low6 c1), 2%nat)
            else (RuneError, 1%nat)
        | _ => (RuneError, 1%nat)
        end
      else if (224 <=? b0) && (b0 <=? 239) then
        match s1 with
        | String c1 (String c2 _) =>
            let lo := if b0 =? 224 then 160 else 128 in
            let hi := if b0 =? 237 then 159 else 191 in
            if (lo <=? byte c1) && (byte c1 <=? hi) && cont c2
            then (Z.lor (Z.shiftl (Z.land b0 15) 12)
                    (Z.lor (Z.shiftl (low6 c1) 6) (low6 c2)), 3%nat)
            else (RuneError, 1%nat)
        | _ => (RuneError, 1%nat)
        end
      else if (240 <=? b0) && (b0 <=? 244) then
        match s1 with
        | String c1 (String c2 (String c3 _)) =>
            let lo := if b0 =? 240 then 144 else 128 in
            let hi := if b0 =? 244 then 143 else 191 in
            if (lo <=? byte c1) && (byte c1 <=? hi) && cont c2 && cont c3
            then (Z.lor (Z.shiftl (Z.land b0 7) 18)
                    (Z.lor (Z.shiftl (low6 c1) 12)
                       (Z.lor (Z.shiftl (low6 c2) 6) (low6 c3))), 4%nat)
            else (RuneError, 1%nat)
        | _ => (RuneError, 1%nat)
        end
      else (RuneError, 1%nat)
  end.

(** [unicode.SimpleFold] on the folding orbits of the ASCII letters: a
    letter and its other case, with U+212A KELVIN SIGN in the orbit of
    [k] and U+017F LATIN SMALL LETTER LONG S in the orbit of [s].  The
    orbits of the other runes are not tabulated here (the rune is returned
    as is); [EqualFold] consults [SimpleFold] on the smaller of two
    differing runes only once the larger is not ASCII, so the table is
    complete for every comparison in which one side is ASCII, as in the
    one call of [main.go]. *)
Definition SimpleFold (r : Z) : Z :=
  if r =? 75 then 107                      (* K -> k *)
  else if r =? 107 then 8490               (* k -> U+212A *)
  else if r =? 8490 then 75                (* U+212A -> K *)
  else if r =? 83 then 115                 (* S -> s *)
  else if r =? 115 then 383                (* s -> U+017F *)
  else if r =? 383 then 83                 (* U+017F -> S *)
  else if (65 <=? r) && (r <=? 90) then r + 32
  else if (97 <=? r) && (r <=? 122) then r - 32
  else r.

End Utf8.

Fixpoint drop_bytes (n : nat) (s : string) : string :=
  match n, s with
  | O, _ => s
  | S n', String _ s' => drop_bytes n' s'
  | S _, EmptyString => EmptyString
  end.

(** ** Package [strings] *)

Module Strings.

(** [strings.CutPrefix(s, prefix)]: the rest of [s] after [prefix], when
    [s] starts with it. *)
Fixpoint CutPrefix (s prefix : string) : option string :=
  match prefix, s with
  | EmptyString, _ => Some s
  | String p prefix', String c s' =>
      if Ascii.eqb p c then CutPrefix s' prefix' else None
  | String _ _, EmptyString => None
  end.

(** [strings.ReplaceAll(s, old, new)] for one-byte [old] and [new], the
    only way [main.go] calls it (["_"] to ["-"]). *)
Fixpoint ReplaceAll (s : string) (old new : ascii) : string :=
  match s with
  | EmptyString => EmptyString
  | String c s' =>
      String (if Ascii.eqb c old then new else c) (ReplaceAll s' old new)
  end.

(** [strings.Cut(s, sep)] for a one-byte separator: the text before and
    after its first occurrence. *)
Fixpoint Cut (s : string) (sep : ascii) : option (string * string) :=
  match s with
  | EmptyString => None
  | String c s' =>
      if Ascii.eqb c sep then Some (EmptyString, s')
      else match Cut s' sep with
           | Some (before, after) => Some (String c before, after)
           | None => None
           end
  end.

(** [strings.SplitN(s, sep, 2)]: at most two pieces, split at the first
    separator; one piece when [s] has none. *)
Definition SplitN2 (s : string) (sep : ascii) : list string :=
  match Cut s sep with
  | Some (before, after) => [before; after]
  | None => [s]
  end.

(** [strings.Split(s, sep)] for a one-byte separator: [n + 1] pieces for
    [n] separators, so [Split "" sep] is the list holding one empty
    string. *)
Fixpoint Split (s : string) (sep : ascii) : list string :=
  match s with
  | EmptyString => [EmptyString]
  | String c s' =>
      if Ascii.eqb c sep then EmptyString :: Split s' sep
      else match Split s' sep with
           | piece :: rest => String c piece :: rest
           | [] => [String c EmptyString]
           end
  end.

(** [sort.Strings]: ascending order of [<] on Go strings, which compares
    byte by byte.  The order is total and antisymmetric, so every sorting
    algorithm yields the same list ([sort_Strings_unique] below); merge
    sort stands for the library's. *)
Definition sort_Strings (a : list string) : list string :=
  merge_sort String.le a.

(** The inner loop of [EqualFold]'s general case:
    [r := SimpleFold(sr); for r != sr && r < tr { r = SimpleFold(r) }].
    An orbit of the table above has at most three runes, so three more
    steps always suffice. *)
Fixpoint orbit_search (fuel : nat) (sr tr r : Z) : Z :=
  match fuel with
  | O => r
  | S fuel' =>
      if negb (r =? sr) && (r <? tr)
      then orbit_search fuel' sr tr (Utf8.SimpleFold r)
      else r
  end.

(** One comparison of [EqualFold]: equal runes, ASCII letters differing
    by case, or runes of one folding orbit. *)
Definition rune_fold_eq (sr tr : Z) : bool :=
  if tr =? sr then true
  else
    let lo := Z.min sr tr in
    let hi := Z.max sr tr in
    if hi <? Utf8.RuneSelf
    then (65 <=? lo) && (lo <=? 90) && (hi =? lo + toLower)
    else orbit_search 3 lo hi (Utf8.SimpleFold lo) =? hi.

(** The [hasUnicode] loop: [for _, sr := range s], taking one rune off
    [t] per iteration.  Every iteration consumes at least one byte of
    [s], so [String.length s] iterations are enough. *)
Fixpoint runes (fuel : nat) (s t : string) : bool :=
  match s with
  | EmptyString => match t with EmptyString => true | _ => false end
  | String _ _ =>
      match fuel with
      | O => false
      | S fuel' =>
          let '(sr, ws) := Utf8.DecodeRuneInString s in
          match t with
          | EmptyString => false
          | String t0 _ =>
              let '(tr, wt) :=
                if byte t0 <? Utf8.RuneSelf then (byte t0, 1%nat)
                else Utf8.DecodeRuneInString t in
              if rune_fold_eq sr tr
              then runes fuel' (drop_bytes ws s) (drop_bytes wt t)
              else false
          end
      end
  end.

(** [strings.EqualFold(s, t)]: equality under simple Unicode case
    folding.  The first loop is the library's ASCII fast path; at the
    first position where either byte is not ASCII the rest is compared
    rune by rune. *)
Fixpoint EqualFold (s t : string) : bool :=
  match s, t with
  | String sc s', String tc t' =>
      if Utf8.RuneSelf <=? Z.lor (byte sc) (byte tc)
      then runes (String.length s) s t
      else if Ascii.eqb tc sc then EqualFold s' t'
      else
        let lo := Z.min (byte sc) (byte tc) in
        let hi := Z.max (byte sc) (byte tc) in
        if (65 <=? lo) && (lo <=? 90) && (hi =? lo + toLower)
        then EqualFold s' t'
        else false
  | EmptyString, EmptyString => true
  | _, _ => false
  end.

End Strings.

(** ** Package [strconv] *)

Module Strconv.

Inductive NumError := ErrSyntax | ErrRange.

Definition maxUint64 : Z := 2 ^ 64 - 1.
Definition maxInt : Z := 2 ^ 63 - 1.
Definition minInt : Z := - 2 ^ 63.

(** [strconv.Itoa]: decimal text of an [int]. *)
Definition Itoa (i : Z) : string := NilZero.string_of_int (Z.to_int i).

(** The digit loop of [ParseUint(s, 10, 64)]: a byte that is not a
    decimal digit is a syntax error (the underscore is accepted in base 0
    only), and leaving the 64-bit range is a range error, whichever comes
    first from the left. *)
Fixpoint parse_digits (s : string) (n : Z) : Z + NumError :=
  match s with
  | EmptyString => inl n
  | String c s' =>
      if negb (is_digit c) then inr ErrSyntax
      else if n >=? maxUint64 / 10 + 1 then inr ErrRange
      else
        let n1 := n * 10 + (byte c - 48) in
        if n1 >? maxUint64 then inr ErrRange else parse_digits s' n1
  end.

(** [strconv.Atoi(s)], that is [ParseInt(s, 10, 0)] with a 64-bit [int]:
    an optional sign, then one or more decimal digits.  Returns the value
    and the error, as the Go function does. *)
Definition Atoi (s : string) : Z * option NumError :=
  match s with
  | EmptyString => (0, Some ErrSyntax)
  | String c rest =>
      let neg := Ascii.eqb c "-" in
      let body := if Ascii.eqb c "+" || neg then rest else s in
      match body with
      | EmptyString => (0, Some ErrSyntax)
      | _ =>
          match parse_digits body 0 with
          | inr ErrSyntax => (0, Some ErrSyntax)
          | inr ErrRange =>
              if neg then (minInt, Some ErrRange) else (maxInt, Some ErrRange)
          | inl un =>
              if negb neg && (un >=? 2 ^ 63) then (maxInt, Some ErrRange)
              else if neg && (un >? 2 ^ 63) then (minInt, Some ErrRange)
              else (if neg then - un else un, None)
          end
      end
  end.

End Strconv.

(** ** Package [path] *)

(** [strings.Join(pieces, sep)]. *)
Fixpoint join (sep : string) (pieces : list string) : string :=
  match pieces with
  | [] => EmptyString
  | [piece] => piece
  | piece :: rest => piece +:+ sep +:+ join sep rest
  end.

Module Path.

(** The loop [for len(path) > 0 && path[len(path)-1] == '/'] of
    [path.Base]: drop the trailing slashes. *)
Fixpoint stripTrailingSlashes (path : string) : string :=
  match path with
  | EmptyString => EmptyString
  | String c rest =>
      match stripTrailingSlashes rest with
      | EmptyString => if Ascii.eqb c "/" then EmptyString else String c EmptyString
      | rest' => String c rest'
      end
  end.

(** What follows the last slash of [path], if it has one
    ([path[lastSlash(path)+1:]]). *)
Fixpoint afterLastSlash (path : string) : option string :=
  match path with
  | EmptyString => None
  | String c rest =>
      match afterLastSlash rest with
      | Some tail => Some tail
      | None => if Ascii.eqb c "/" then Some rest else None
      end
  end.

(** [path.Base]: the last element of [path]; trailing slashes are removed
    before extracting it; ["."] for the empty path and ["/"] for a path of
    slashes only. *)
Definition Base (path : string) : string :=
  match path with
  | EmptyString => "."
  | _ =>
      let path := stripTrailingSlashes path in
      let path := default path (afterLastSlash path) in
      match path with
      | EmptyString => "/"
      | _ => path
      end
  end.

(** [path.Clean] on a rooted path, the only kind the router hands it: the
    elements between slashes are taken from the left; an empty element
    and ["."] are dropped, [".."] drops the element before it (none at
    the root), and what is kept is joined by single slashes below the
    root. *)
Fixpoint cleanElements (elements kept : list string) : list string :=
  match elements with
  | [] => kept
  | element :: rest =>
      if String.eqb element EmptyString || String.eqb element "." then cleanElements rest kept
      else if String.eqb element ".." then cleanElements rest (tail kept)
      else cleanElements rest (element :: kept)
  end.

Definition Clean (path : string) : string :=
  String "/" (join "/" (rev (cleanElements (Strings.Split path "/") []))).

End Path.

(** ** Packages [net/textproto] and [net/http] *)

Module Http.

(** [http.Header]: [map[string][]string], keyed by canonical names. *)
Abbreviation Header := (gmap string (list string)).

Fixpoint mem_byte (c : ascii) (s : string) : bool :=
  match s with
  | EmptyString => false
  | String d s' => Ascii.eqb c d || mem_byte c s'
  end.

Fixpoint all_bytes (p : ascii → bool) (s : string) : bool :=
  match s with
  | EmptyString => true
  | String c s' => p c && all_bytes p s'
  end.

(** [validHeaderFieldByte]: the token bytes of RFC 7230. *)
Definition validHeaderFieldByte (c : ascii) : bool :=
  is_digit c || is_lower c || is_upper c || mem_byte c "!#$%&'*+-.^_`|~".

(** The casing loop of [canonicalMIMEHeaderKey]: upper case for the first
    letter and for a letter after a hyphen, lower case elsewhere. *)
Fixpoint canonical_case (upper : bool) (a : string) : string :=
  match a with
  | EmptyString => EmptyString
  | String c a' =>
      let c' :=
        if upper && is_lower c then chr (byte c - toLower)
        else if negb upper && is_upper c then chr (byte c + toLower)
        else c in
      String c' (canonical_case (Ascii.eqb c' "-") a')
  end.

(** [textproto.CanonicalMIMEHeaderKey]: a key holding a byte that is not a
    token byte (a space included) is returned unchanged, any other key in
    canonical case. *)
Definition CanonicalMIMEHeaderKey (s : string) : string :=
  if all_bytes validHeaderFieldByte s then canonical_case true s else s.

(** [Header.Get]: the first value of the key, or the empty string. *)
Definition Get (h : Header) (key : string) : string :=
  match h !! CanonicalMIMEHeaderKey key with
  | Some (v :: _) => v
  | _ => EmptyString
  end.

(** [Header.Set]: replace the values of the key by the single [value]. *)
Definition Set_ (h : Header) (key value : string) : Header :=
  <[CanonicalMIMEHeaderKey key := [value]]> h.

(** [Header.Add]: append [value] to the values of the key. *)
Definition Add (h : Header) (key value : string) : Header :=
  let k := CanonicalMIMEHeaderKey key in
  <[k := default [] (h !! k) ++ [value]]> h.

(** [Header.Del]. *)
Definition Del (h : Header) (key : string) : Header :=
  delete (CanonicalMIMEHeaderKey key) h.

(** The header map the server builds from the header lines of a request,
    in the order they arrive: one [Add] per line. *)
Definition readHeader (lines : list (string * string)) : Header :=
  foldl (λ h kv, Add h kv.1 kv.2) ∅ lines.

(** [url.URL] as [main.go] uses it: its text ([String()], what ["%s"]
    prints), its [Path], and its parsed query ([Query()]). *)
Record URL := {
  URL_String : string;
  URL_Path : string;
  URL_Query : gmap string (list string);
}.

(** [url.Values.Get]: the first value of the key, or the empty string; the
    key is taken as is. *)
Definition Values_Get (v : gmap string (list string)) (key : string) : string :=
  match v !! key with
  | Some (x :: _) => x
  | _ => EmptyString
  end.

(** [http.Request].  [req_Body] is the body stream: the bytes not read
    yet.  Reading to the end leaves it empty. *)
Record Request := {
  req_Method : string;
  req_URL : URL;
  req_Proto : string;
  req_Host : string;
  req_RemoteAddr : string;
  req_Header : Header;
  req_Body : string;
}.

Definition with_Body (req : Request) (body : string) : Request :=
  {| req_Method := req_Method req; req_URL := req_URL req;
     req_Proto := req_Proto req; req_Host := req_Host req;
     req_RemoteAddr := req_RemoteAddr req; req_Header := req_Header req;
     req_Body := body |}.

(** [io.Copy(&buf, req.Body)] and [buf.ReadFrom(req.Body)]: everything left
    in the stream goes to the buffer, and the stream is at its end. *)
Definition readBody (req : Request) : string * Request :=
  (req_Body req, with_Body req EmptyString).

(** [http.ResponseWriter], as a recorder of what the handler does with it.
    [rw_header] is the map [Header()] returns; [rw_wrote] holds the status
    code and a snapshot of the header map from the first [WriteHeader]
    with a final status (explicit, or implied by the first [Write] or
    [Flush]): changing the map afterwards does not change what was sent.
    [rw_interim] lists the interim responses sent before it, each with
    its informational code and the header map of the moment.
    [rw_flushed] lists the chunks the handler flushed, [rw_pending] what
    it wrote since.  [rw_flusher] tells whether the writer implements
    [http.Flusher], [rw_hijacked] whether the connection was taken over.
    The record holds what the handler passes to the writer: the bytes of
    a reply whose status admits no body are refused by the server, see
    [sent_body]; and the headers the server adds on its own account
    ([Date], [Content-Length] or [Transfer-Encoding], and a [Content-Type]
    sniffed from the first bytes when the snapshot has none) are not in
    it. *)
Record ResponseWriter := {
  rw_header : Header;
  rw_wrote : option (Z * Header);
  rw_interim : list (Z * Header);
  rw_flushed : list string;
  rw_pending : string;
  rw_flusher : bool;
  rw_hijacked : bool;
}.

Definition newResponseWriter (flusher : bool) : ResponseWriter :=
  {| rw_header := ∅; rw_wrote := None; rw_interim := []; rw_flushed := [];
     rw_pending := EmptyString;
     rw_flusher := flusher; rw_hijacked := false |}.

Definition with_header (w : ResponseWriter) (h : Header) : ResponseWriter :=
  {| rw_header := h; rw_wrote := rw_wrote w; rw_interim := rw_interim w;
     rw_flushed := rw_flushed w;
     rw_pending := rw_pending w; rw_flusher := rw_flusher w;
     rw_hijacked := rw_hijacked w |}.

(** The codes [WriteHeader] treats as informational: those from 100 to
    199 other than 101 ([StatusSwitchingProtocols], after which no header
    may follow). *)
Definition informational (code : Z) : bool :=
  (100 <=? code) && (code <=? 199) && negb (code =? 101).

(** [w.WriteHeader(code)], for a code from 100 to 999 (another one
    panics; no call of the source passes one).  Once the header is
    written a call changes nothing.  Before that, an informational code
    sends an interim response and leaves the header unwritten; any other
    code fixes the status and the headers. *)
Definition WriteHeader (w : ResponseWriter) (code : Z) : ResponseWriter :=
  match rw_wrote w with
  | Some _ => w
  | None =>
      if informational code then
        {| rw_header := rw_header w; rw_wrote := None;
           rw_interim := rw_interim w ++ [(code, rw_header w)];
           rw_flushed := rw_flushed w; rw_pending := rw_pending w;
           rw_flusher := rw_flusher w; rw_hijacked := rw_hijacked w |}
      else
        {| rw_header := rw_header w; rw_wrote := Some (code, rw_header w);
           rw_interim := rw_interim w;
           rw_flushed := rw_flushed w; rw_pending := rw_pending w;
           rw_flusher := rw_flusher w; rw_hijacked := rw_hijacked w |}
  end.

(** [w.Write(data)], also behind [fmt.Fprintf(w, ...)]: calls
    [WriteHeader(http.StatusOK)] if no header was written yet, then takes
    the data.  The record keeps the data whatever the status; the server
    returns [ErrBodyNotAllowed] (which no handler of the source looks at)
    and sends nothing when the status admits no body, see [sent_body]. *)
Definition Write (w : ResponseWriter) (data : string) : ResponseWriter :=
  let w := WriteHeader w 200 in
  {| rw_header := rw_header w; rw_wrote := rw_wrote w; rw_interim := rw_interim w;
     rw_flushed := rw_flushed w; rw_pending := rw_pending w +:+ data;
     rw_flusher := rw_flusher w; rw_hijacked := rw_hijacked w |}.

(** [w.(http.Flusher).Flush()]: sends what is pending as one chunk. *)
Definition Flush (w : ResponseWriter) : ResponseWriter :=
  let w := WriteHeader w 200 in
  {| rw_header := rw_header w; rw_wrote := rw_wrote w; rw_interim := rw_interim w;
     rw_flushed := rw_flushed w ++ [rw_pending w]; rw_pending := EmptyString;
     rw_flusher := rw_flusher w; rw_hijacked := rw_hijacked w |}.

Definition hijack (w : ResponseWriter) : ResponseWriter :=
  {| rw_header := rw_header w; rw_wrote := rw_wrote w; rw_interim := rw_interim w;
     rw_flushed := rw_flushed w; rw_pending := rw_pending w;
     rw_flusher := rw_flusher w; rw_hijacked := true |}.

(** Everything written to the writer, flushed or not. *)
Definition body (w : ResponseWriter) : string :=
  foldr String.app (rw_pending w) (rw_flushed w).

(** [bodyAllowedForStatus]: a status from 100 to 199, 204 and 304 admit
    no body. *)
Definition bodyAllowedForStatus (status : Z) : bool :=
  if (100 <=? status) && (status <=? 199) then false
  else if status =? 204 then false
  else if status =? 304 then false
  else true.

(** The body the client receives: what was written, unless the status of
    the reply admits no body. *)
Definition sent_body (w : ResponseWriter) : string :=
  match rw_wrote w with
  | Some (code, _) => if bodyAllowedForStatus code then body w else EmptyString
  | None => body w
  end.

(** The status code of the reply, and the values the handler's header map
    held for a header when the reply's header was written. *)
Definition status (w : ResponseWriter) : option Z := fst <$> rw_wrote w.
Definition sent_values (w : ResponseWriter) (key : string) : list string :=
  match rw_wrote w with
  | Some (_, h) => default [] (h !! key)
  | None => []
  end.

(** [http.Error(w, error, code)]. *)
Definition Error (w : ResponseWriter) (error : string) (code : Z) : ResponseWriter :=
  let h := rw_header w in
  let h := Del h "Content-Length" in
  let h := Set_ h "Content-Type" "text/plain; charset=utf-8" in
  let h := Set_ h "X-Content-Type-Options" "nosniff" in
  let w := WriteHeader (with_header w h) code in
  Write w (error +:+ LF).

Definition StatusOK : Z := 200.
Definition StatusBadRequest : Z := 400.
Definition StatusInternalServerError : Z := 500.

End Http.

(** ** Package [github.com/gorilla/websocket] *)

Module Websocket.

Definition TextMessage : Z := 1.
Definition BinaryMessage : Z := 2.

(** A connection after the upgrade.  [conn_in] holds the data messages the
    peer will send, in order; once they are read, [ReadMessage] fails with
    [conn_read_err] (the peer closed, or the transport broke).
    [conn_writes] bounds the number of [WriteMessage] calls that succeed
    ([None]: all do); the next one fails with [conn_write_err].  [conn_out]
    collects the messages written.  [conn_handshake] holds the headers the
    caller asked [Upgrade] to add to its 101 reply (its [responseHeader]
    argument), the only headers of the caller's that the reply carries. *)
Record Conn := {
  conn_in : list (Z * string);
  conn_read_err : string;
  conn_writes : option nat;
  conn_write_err : string;
  conn_out : list (Z * string);
  conn_handshake : Http.Header;
}.

Definition sent (c : Conn) (writes : option nat) (out : list (Z * string)) : Conn :=
  {| conn_in := conn_in c; conn_read_err := conn_read_err c;
     conn_writes := writes; conn_write_err := conn_write_err c;
     conn_out := out; conn_handshake := conn_handshake c |}.

(** [connection.WriteMessage(messageType, data)]. *)
Definition WriteMessage (c : Conn) (messageType : Z) (data : string)
  : Conn * option string :=
  match conn_writes c with
  | Some O => (c, Some (conn_write_err c))
  | Some (S n) => (sent c (Some n) (conn_out c ++ [(messageType, data)]), None)
  | None => (sent c None (conn_out c ++ [(messageType, data)]), None)
  end.

(** The outcome of [upgrader.Upgrade(wr, req, responseHeader)] for the
    request at hand.  A refused handshake is answered by the library with
    [http.Error] (after setting [Sec-Websocket-Version]) when [reply] gives
    the status and its text; a failure after the connection was taken over
    leaves no reply. *)
Inductive Upgraded :=
  | UpgradeError (err : string) (reply : option (Z * string))
  | UpgradeOk (peer : Conn).

Definition Upgrade (outcome : Upgraded) (wr : Http.ResponseWriter)
    (responseHeader : Http.Header) : Http.ResponseWriter * (Conn + string) :=
  match outcome with
  | UpgradeError err None => (wr, inr err)
  | UpgradeError err (Some (code, text)) =>
      let wr := Http.with_header wr
                  (Http.Set_ (Http.rw_header wr) "Sec-Websocket-Version" "13") in
      (Http.Error wr text code, inr err)
  | UpgradeOk peer =>
      (Http.hijack wr,
       inl {| conn_in := conn_in peer; conn_read_err := conn_read_err peer;
              conn_writes := conn_writes peer; conn_write_err := conn_write_err peer;
              conn_out := conn_out peer; conn_handshake := responseHeader |})
  end.

End Websocket.

(** * [main.go] *)

(** ** What a request handler reads from its surroundings *)

(** The result of [os.Hostname()]. *)
Inductive HostnameResult :=
  | HostnameOk (host : string)
  | HostnameErr (err : string).

(** The embedded UI template [html/frontend.tmpl.html]: whether
    [template.ParseFS] accepts it, and then what [tmpl.Execute] writes, and
    the error it ends with if any, from the two strings the page path is
    computed from, [os.Getenv("WEBSOCKET_ROOT")] and [req.URL.Path] (the
    page gets [path.Join] of the first with [path.Dir] of the second). *)
Inductive Template :=
  | ParseError (err : string)
  | Parsed (execute : string → string → string * option string).

Record Surroundings := {
  (** [os.Environ()]: the variables as ["NAME=value"] lines. *)
  Environ : list string;
  Hostname : HostnameResult;
  (** [websocket.IsWebSocketUpgrade(req)], which looks at the [Connection]
      and [Upgrade] request headers. *)
  IsWebSocketUpgrade : Http.Header → bool;
  (** How the upgrade handshake of this request ends, and the peer. *)
  Handshake : Websocket.Upgraded;
  (** The ticks the SSE loop receives before the request context is done,
      each as its [t.Format(time.RFC3339)] text. *)
  Ticks : list string;
  Frontend : Template;
}.

(** [os.Getenv(key)]: the value of the first line of the environment that
    names [key], or the empty string. *)
Fixpoint Getenv (environ : list string) (key : string) : string :=
  match environ with
  | [] => EmptyString
  | line :: rest =>
      match Strings.Cut line "=" with
      | Some (k, v) => if String.eqb k key then v else Getenv rest key
      | None => Getenv rest key
      end
  end.

(** A Go [int] is 64 bits wide on the platforms the server is built for
    (linux/amd64, linux/arm64); arithmetic wraps around. *)
Definition int_wrap (z : Z) : Z := (z + 2 ^ 63) mod 2 ^ 64 - 2 ^ 63.

(** ** [printHeaders] *)

(** The inner loop, [for _, value := range h[key]]: one line per value. *)
Definition header_lines (key : string) (values : list string) : list string :=
  (λ value, key +:+ ": " +:+ value +:+ LF) <$> values.

Definition concat_lines (lines : list string) : string :=
  foldr String.app EmptyString lines.

(** [printHeaders], given the order [keys] in which [for key := range h]
    happens to yield the keys of the map (Go leaves it unspecified): the
    keys are collected, sorted, and the values of each printed in the order
    the map holds them.  The result is the text written to [w]. *)
Definition printHeaders_ranged (keys : list string) (h : Http.Header) : string :=
  let sortedKeys := Strings.sort_Strings keys in
  concat_lines (sortedKeys ≫= (λ key, header_lines key (default [] (h !! key)))).

(** One possible iteration order. *)
Definition range_keys (h : Http.Header) : list string := (map_to_list h).*1.

Definition printHeaders (h : Http.Header) : string :=
  printHeaders_ranged (range_keys h) h.

(** ** [writeRequest] *)

(** [writeRequest(w, req)]: the text written to [w], and the request with
    its body stream read to the end by [io.Copy]. *)
Definition writeRequest (req : Http.Request) : string * Http.Request :=
  let out :=
    Http.req_Method req +:+ " " +:+ Http.URL_String (Http.req_URL req) +:+ " "
      +:+ Http.req_Proto req +:+ LF in
  let out := out +:+ LF in
  let out := out +:+ "Host: " +:+ Http.req_Host req +:+ LF in
  let out := out +:+ printHeaders (Http.req_Header req) in
  let '(body, req) := Http.readBody req in
  if (0 <? Z.of_nat (String.length body))
  then (out +:+ LF +:+ body, req)
  else (out, req).

(** ** [serveHTTP] *)

Definition serveHTTP (S : Surroundings) (wr : Http.ResponseWriter)
    (req : Http.Request) (sendServerHostname : bool)
  : Http.ResponseWriter * Http.Request :=
  let wr := Http.with_header wr (Http.Add (Http.rw_header wr) "Content-Type" "text/plain") in
  let wr := Http.WriteHeader wr 200 in
  let wr :=
    if sendServerHostname then
      match Hostname S with
      | HostnameOk host => Http.Write wr ("Request served by " +:+ host +:+ LF +:+ LF)
      | HostnameErr err => Http.Write wr ("Server hostname unknown: " +:+ err +:+ LF +:+ LF)
      end
    else wr in
  let '(text, req) := writeRequest req in
  (Http.Write wr text, req).

(** ** [serveWebSocket] *)

(** The loop of [serveWebSocket].  [incoming] are the messages
    [ReadMessage] still has to deliver; when there is none left it returns
    the read error and the loop breaks.  The result is the connection, the
    text printed, and the error the loop ended with. *)
Fixpoint echoLoop (remote : string) (incoming : list (Z * string))
    (connection : Websocket.Conn) (stdout : string)
  : Websocket.Conn * string * string :=
  match incoming with
  | [] => (connection, stdout, Websocket.conn_read_err connection)
  | (messageType, message) :: incoming' =>
      let stdout :=
        if messageType =? Websocket.TextMessage
        then stdout +:+ remote +:+ " | txt | " +:+ message +:+ LF
        else stdout +:+ remote +:+ " | bin | "
               +:+ Strconv.Itoa (Z.of_nat (String.length message)) +:+ " byte(s)" +:+ LF in
      match Websocket.WriteMessage connection messageType message with
      | (connection, Some err) => (connection, stdout, err)
      | (connection, None) => echoLoop remote incoming' connection stdout
      end
  end.

(** The result holds the connection when the upgrade succeeded. *)
Definition serveWebSocket (S : Surroundings) (wr : Http.ResponseWriter)
    (req : Http.Request) (sendServerHostname : bool) (stdout : string)
  : Http.ResponseWriter * option Websocket.Conn * string :=
  let remote := Http.req_RemoteAddr req in
  match Websocket.Upgrade (Handshake S) wr ∅ with
  | (wr, inr err) => (wr, None, stdout +:+ remote +:+ " | " +:+ err +:+ LF)
  | (wr, inl connection) =>
      let stdout := stdout +:+ remote +:+ " | upgraded to websocket" +:+ LF in
      let message := EmptyString in
      let message :=
        if sendServerHostname then
          match Hostname S with
          | HostnameOk host => "Request served by " +:+ host
          | HostnameErr err => "Server hostname unknown: " +:+ err
          end
        else message in
      match Websocket.WriteMessage connection Websocket.TextMessage message with
      | (connection, Some err) =>
          (wr, Some connection, stdout +:+ remote +:+ " | " +:+ err +:+ LF)
      | (connection, None) =>
          let '(connection, stdout, err) :=
            echoLoop remote (Websocket.conn_in connection) connection stdout in
          (wr, Some connection, stdout +:+ remote +:+ " | " +:+ err +:+ LF)
      end
  end.

(** ** [serveFrontend] *)

Definition serveFrontend (S : Surroundings) (wr : Http.ResponseWriter)
    (req : Http.Request) : Http.ResponseWriter :=
  match Frontend S with
  | ParseError err => Http.Error wr err Http.StatusInternalServerError
  | Parsed execute =>
      let '(text, err) :=
        execute (Getenv (Environ S) "WEBSOCKET_ROOT") (Http.URL_Path (Http.req_URL req)) in
      let wr := match text with EmptyString => wr | _ => Http.Write wr text end in
      match err with
      | Some err => Http.Error wr err Http.StatusInternalServerError
      | None =>
          let wr := Http.with_header wr
                      (Http.Add (Http.rw_header wr) "Content-Type" "text/html") in
          Http.WriteHeader wr 200
      end
  end.

(** ** [writeSSEField], [writeSSE], [serveSSE] *)

(** [writeSSEField(wr, req, k, v)]: one ["k: line\n"] per line of [v], each
    also logged. *)
Definition writeSSEField (wr : Http.ResponseWriter) (req : Http.Request)
    (stdout : string) (k v : string) : Http.ResponseWriter * string :=
  foldl (λ '(wr, stdout) line,
           (Http.Write wr (k +:+ ": " +:+ line +:+ LF),
            stdout +:+ Http.req_RemoteAddr req +:+ " | sse | " +:+ k +:+ ": " +:+ line +:+ LF))
        (wr, stdout) (Strings.Split v "010").

(** [writeSSE(wr, req, id, event, data)]; [id] is passed by pointer in the
    source, so the new value is returned. *)
Definition writeSSE (wr : Http.ResponseWriter) (req : Http.Request)
    (stdout : string) (id : Z) (event data : string)
  : Http.ResponseWriter * string * Z :=
  let id := int_wrap (id + 1) in
  let '(wr, stdout) := writeSSEField wr req stdout "event" event in
  let '(wr, stdout) := writeSSEField wr req stdout "data" data in
  let '(wr, stdout) := writeSSEField wr req stdout "id" (Strconv.Itoa id) in
  let wr := Http.Write wr LF in
  (Http.Flush wr, stdout, id).

(** The [for { select { ... } }] loop: one [time] event per tick received,
    until the request context is done. *)
Fixpoint tickLoop (ticks : list string) (wr : Http.ResponseWriter)
    (req : Http.Request) (stdout : string) (id : Z)
  : Http.ResponseWriter * string * Z :=
  match ticks with
  | [] => (wr, stdout, id)
  | t :: ticks' =>
      let '(wr, stdout, id) := writeSSE wr req stdout id "time" t in
      tickLoop ticks' wr req stdout id
  end.

(** The result also holds the final value of the event counter [id]. *)
Definition serveSSE (S : Surroundings) (wr : Http.ResponseWriter)
    (req : Http.Request) (sendServerHostname : bool) (stdout : string)
  : Http.ResponseWriter * Http.Request * string * Z :=
  if negb (Http.rw_flusher wr)
  then (Http.Error wr "Streaming unsupported!" Http.StatusInternalServerError,
        req, stdout, 0)
  else
    let '(echo, req) := writeRequest req in
    let h := Http.rw_header wr in
    let h := Http.Set_ h "Content-Type" "text/event-stream" in
    let h := Http.Set_ h "Cache-Control" "no-cache" in
    let h := Http.Set_ h "Connection" "keep-alive" in
    let h := Http.Set_ h "Access-Control-Allow-Origin" "*" in
    let wr := Http.with_header wr h in
    let id := 0 in
    let '(wr, stdout, id) :=
      if sendServerHostname then
        match Hostname S with
        | HostnameOk host => writeSSE wr req stdout id "server" host
        | HostnameErr _ => (wr, stdout, id)
        end
      else (wr, stdout, id) in
    let '(wr, stdout, id) := writeSSE wr req stdout id "request" echo in
    let '(wr, stdout, id) := tickLoop (Ticks S) wr req stdout id in
    (wr, req, stdout, id).

(** ** [handler] *)

(** Lines 133-158: the request log line, and the header and body dumps
    asked for through [LOG_HTTP_HEADERS] and [LOG_HTTP_BODY].  Dumping the
    body reads the stream to its end and puts a reader over the buffered
    bytes in its place. *)
Definition logRequest (environ : list string) (req : Http.Request)
    (stdout : string) : Http.Request * string :=
  let line :=
    Http.req_RemoteAddr req +:+ " | " +:+ Http.req_Method req +:+ " "
      +:+ Http.URL_String (Http.req_URL req) +:+ LF in
  let stdout :=
    if negb (String.eqb (Getenv environ "LOG_HTTP_BODY") EmptyString)
       || negb (String.eqb (Getenv environ "LOG_HTTP_HEADERS") EmptyString)
    then stdout +:+ "--------  " +:+ line
    else stdout +:+ line in
  let stdout :=
    if negb (String.eqb (Getenv environ "LOG_HTTP_HEADERS") EmptyString)
    then stdout +:+ "Headers" +:+ LF +:+ printHeaders (Http.req_Header req)
    else stdout in
  if negb (String.eqb (Getenv environ "LOG_HTTP_BODY") EmptyString)
  then
    let '(buf, req) := Http.readBody req in
    let stdout :=
      if negb (Z.of_nat (String.length buf) =? 0)
      then stdout +:+ "Body:" +:+ LF +:+ buf +:+ LF
      else stdout in
    (Http.with_Body req buf, stdout)
  else (req, stdout).

(** Lines 160-168: whether to disclose the host name. *)
Definition sendServerHostname (environ : list string) (req : Http.Request) : bool :=
  let sendServerHostnameString := Getenv environ "SEND_SERVER_HOSTNAME" in
  let v := Http.Get (Http.req_Header req) "X-Send-Server-Hostname" in
  let sendServerHostnameString :=
    if negb (String.eqb v EmptyString) then v else sendServerHostnameString in
  negb (Strings.EqualFold sendServerHostnameString "false").

(** Lines 170-180: one [Set] per [SEND_HEADER_] variable, in the order of
    [os.Environ()].  [parts[1]] panics on a line without ["="]: [None]. *)
Fixpoint sendHeaders (environ : list string) (h : Http.Header) : option Http.Header :=
  match environ with
  | [] => Some h
  | line :: rest =>
      match Strings.SplitN2 line "=" with
      | key :: value :: _ =>
          match Strings.CutPrefix key "SEND_HEADER_" with
          | Some name => sendHeaders rest (Http.Set_ h (Strings.ReplaceAll name "_" "-") value)
          | None => sendHeaders rest h
          end
      | _ => None
      end
  end.

(** Where [handler] sends the request (lines 182-190). *)
Inductive Target := ToWebSocket | ToFrontend | ToSSE | ToHTTP.

Definition dispatch (S : Surroundings) (req : Http.Request) : Target :=
  if IsWebSocketUpgrade S (Http.req_Header req) then ToWebSocket
  else if String.eqb (Path.Base (Http.URL_Path (Http.req_URL req))) ".ws" then ToFrontend
  else if String.eqb (Path.Base (Http.URL_Path (Http.req_URL req))) ".sse" then ToSSE
  else ToHTTP.

(** What a call of [handler] leaves behind. *)
Record Served := {
  sv_wr : Http.ResponseWriter;
  sv_req : Http.Request;
  sv_stdout : string;
  sv_conn : option Websocket.Conn;
}.

(** [handler(wr, req)].  [None] stands for the panic of the header loop. *)
Definition handler (S : Surroundings) (wr : Http.ResponseWriter)
    (req : Http.Request) (stdout : string) : option Served :=
  let '(req, stdout) := logRequest (Environ S) req stdout in
  let send := sendServerHostname (Environ S) req in
  match sendHeaders (Environ S) (Http.rw_header wr) with
  | None => None
  | Some h =>
      let wr := Http.with_header wr h in
      Some
        match dispatch S req with
        | ToWebSocket =>
            let '(wr, conn, stdout) := serveWebSocket S wr req send stdout in
            {| sv_wr := wr; sv_req := req; sv_stdout := stdout; sv_conn := conn |}
        | ToFrontend =>
            {| sv_wr := serveFrontend S wr req; sv_req := req;
               sv_stdout := stdout; sv_conn := None |}
        | ToSSE =>
            let '(wr, req, stdout, _) := serveSSE S wr req send stdout in
            {| sv_wr := wr; sv_req := req; sv_stdout := stdout; sv_conn := None |}
        | ToHTTP =>
            let '(wr, req) := serveHTTP S wr req send in
            {| sv_wr := wr; sv_req := req; sv_stdout := stdout; sv_conn := None |}
        end
  end.

(** ** [throwErrorHandler] *)

Definition throwErrorHandler (w : Http.ResponseWriter) (r : Http.Request)
  : Http.ResponseWriter :=
  let codeStr := Http.Values_Get (Http.URL_Query (Http.req_URL r)) "code" in
  let '(code, err) := Strconv.Atoi codeStr in
  if (match err with Some _ => true | None => false end) || (code <? 100) || (code >? 599)
  then
    let w := Http.WriteHeader w Http.StatusBadRequest in
    Http.Write w ("{" +:+ quoted "error" +:+ ":" +:+ quoted "Invalid status code" +:+ "}")
  else
    let w := Http.WriteHeader w code in
    Http.Write w ("{" +:+ quoted "error" +:+ ":"
                    +:+ quoted ("This is a forced error with status " +:+ Strconv.Itoa code)
                    +:+ "}").

(** ** [createRouter] *)

(** The handlers the router knows. *)
Inductive Handler :=
  | ListPets | CreatePets | ShowPetById
  | healthCheck | throwError | echoHandler.

(** A [mux] path matcher: [HandleFunc(tpl)] matches the whole path,
    [PathPrefix(tpl)] a prefix of it; a template variable such as
    [{petId}] stands for a non-empty run of bytes other than ["/"]. *)
Inductive PathMatcher :=
  | WholePath (tpl : string)
  | WholePathVar (before : string)
  | Prefix (tpl : string).

Record Route := {
  rt_path : PathMatcher;
  rt_methods : list string;      (* [Methods(...)]; the empty list: any *)
  rt_handler : Handler;
}.

Fixpoint no_slash (s : string) : bool :=
  match s with
  | EmptyString => true
  | String c s' => negb (Ascii.eqb c "/") && no_slash s'
  end.

Definition match_path (m : PathMatcher) (path : string) : bool :=
  match m with
  | WholePath tpl => String.eqb path tpl
  | WholePathVar before =>
      match Strings.CutPrefix path before with
      | Some rest => negb (String.eqb rest EmptyString) && no_slash rest
      | None => false
      end
  | Prefix tpl =>
      match Strings.CutPrefix path tpl with
      | Some _ => true
      | None => false
      end
  end.

Definition match_route (method path : string) (r : Route) : bool :=
  match_path (rt_path r) path
  && match rt_methods r with
     | [] => true
     | ms => existsb (String.eqb method) ms
     end.

(** The routes in the order [createRouter] registers them; those of the
    [/v1] subrouter carry its prefix.  The router tries them in this order
    and the first that matches path and method wins. *)
Definition routes : list Route :=
  [ {| rt_path := WholePath "/v1/pets"; rt_methods := ["GET"]; rt_handler := ListPets |};
    {| rt_path := WholePath "/v1/pets"; rt_methods := ["POST"]; rt_handler := CreatePets |};
    {| rt_path := WholePathVar "/v1/pets/"; rt_methods := ["GET"]; rt_handler := ShowPetById |};
    {| rt_path := WholePath "/health"; rt_methods := ["GET"]; rt_handler := healthCheck |};
    {| rt_path := WholePath "/throw"; rt_methods := ["GET"]; rt_handler := throwError |};
    {| rt_path := Prefix "/"; rt_methods := []; rt_handler := echoHandler |} ].

Definition matchRoutes (method path : string) : option Handler :=
  rt_handler <$> find (match_route method path) routes.

Fixpoint ends_with_slash (s : string) : bool :=
  match s with
  | EmptyString => false
  | String c EmptyString => Ascii.eqb c "/"
  | String _ s' => ends_with_slash s'
  end.

(** [cleanPath] of [mux]: the canonical form of a request path.  The path
    is made rooted and cleaned by [path.Clean]; the trailing slash
    [path.Clean] removes is put back. *)
Definition cleanPath (p : string) : string :=
  match p with
  | EmptyString => "/"
  | String c _ =>
      let p := if Ascii.eqb c "/" then p else String "/" p in
      let np := Path.Clean p in
      if ends_with_slash p && negb (String.eqb np "/") then np +:+ "/" else np
  end.

(** What the router does with a request. *)
Inductive Routing :=
  | Redirect (path : string)     (* 301, [Location] with the cleaned path *)
  | Handle (h : Handler)
  | NotFound.

(** The router [createRouter] returns, as the function from the method
    and the path of a request to what happens to it.  A path that is not
    in canonical form is answered with a redirect to its canonical form
    before any route is tried, whatever the method.  (The [h2c] wrapper
    passes every request on to the router.) *)
Definition createRouter (method path : string) : Routing :=
  if negb (String.eqb (cleanPath path) path) then Redirect (cleanPath path)
  else match matchRoutes method path with
       | Some h => Handle h
       | None => NotFound
       end.

(** ** The gRPC service *)

(** [echo.EchoRequest] and [echo.EchoResponse], one string field each. *)
Record EchoRequest := { req_Message : string }.
Record EchoResponse := { Message : string }.

(** The generated getter: the field, or the empty string for a nil
    request. *)
Definition GetMessage (req : option EchoRequest) : string :=
  match req with
  | Some r => req_Message r
  | None => EmptyString
  end.

(** The [Echo] method of [grpcEchoServer]: the response, the error (none), and the line
    printed. *)
Definition Echo (req : option EchoRequest) (stdout : string)
  : option EchoResponse * option string * string :=
  let stdout := stdout +:+ "gRPC Echo called: " +:+ GetMessage req +:+ LF in
  (Some {| Message := GetMessage req |}, None, stdout).

(** * [openapi/petstore.go] *)

Module Openapi.

(** [Pet] and [Error]; [ID] is an [int64], [Code] an [int32]. *)
Record Pet := { ID : Z; Name : string; Tag : string }.
Record Error := { Code : Z; Message : string }.

(** [PetStore] without its lock: the handlers are modelled one call at a
    time, each holding the lock for its access to the map. *)
Record PetStore := { pets : gmap Z Pet; nextID : Z }.

(** [encoding/json], as far as the handlers use it: the JSON text of a Go
    string (with its quotes and escapes), and what
    [json.NewDecoder(r.Body).Decode(&pet)] makes of a request body, starting
    from the zero [Pet] ([None]: it returns an error). *)
Record Json := {
  json_string : string → string;
  json_decode_pet : string → option Pet;
}.

Definition int32_wrap (z : Z) : Z := (z + 2 ^ 31) mod 2 ^ 32 - 2 ^ 31.

(** The JSON objects of the two struct types, following their field tags;
    [tag] is left out when empty ([omitempty]). *)
Definition encodePet (J : Json) (p : Pet) : string :=
  "{" +:+ quoted "id" +:+ ":" +:+ Strconv.Itoa (ID p) +:+ ","
    +:+ quoted "name" +:+ ":" +:+ json_string J (Name p)
    +:+ (match Tag p with
         | EmptyString => EmptyString
         | tag => "," +:+ quoted "tag" +:+ ":" +:+ json_string J tag
         end)
    +:+ "}".

Definition encodeError (J : Json) (e : Error) : string :=
  "{" +:+ quoted "code" +:+ ":" +:+ Strconv.Itoa (Code e) +:+ ","
    +:+ quoted "message" +:+ ":" +:+ json_string J (Message e) +:+ "}".

Fixpoint joinComma (items : list string) : string :=
  match items with
  | [] => EmptyString
  | [x] => x
  | x :: rest => x +:+ "," +:+ joinComma rest
  end.

Definition encodePets (J : Json) (ps : list Pet) : string :=
  "[" +:+ joinComma (encodePet J <$> ps) +:+ "]".

(** [json.NewEncoder(w).Encode(v)] writes the JSON text of [v] and a line
    feed. *)
Definition Encode (w : Http.ResponseWriter) (text : string) : Http.ResponseWriter :=
  Http.Write w (text +:+ LF).

Definition StatusCreated : Z := 201.
Definition StatusNotFound : Z := 404.

(** [NewPetStore]. *)
Definition NewPetStore : PetStore :=
  let store := {| pets := ∅; nextID := 1 |} in
  let store := {| pets := <[1 := {| ID := 1; Name := "Fluffy"; Tag := "cat" |}]> (pets store);
                  nextID := nextID store |} in
  let store := {| pets := <[2 := {| ID := 2; Name := "Rex"; Tag := "dog" |}]> (pets store);
                  nextID := nextID store |} in
  {| pets := pets store; nextID := 3 |}.

(** [sendError]. *)
Definition sendError (J : Json) (w : Http.ResponseWriter) (code : Z) (message : string)
  : Http.ResponseWriter :=
  let w := Http.WriteHeader w code in
  Encode w (encodeError J {| Code := int32_wrap code; Message := message |}).

(** The limit [ListPets] works with, from the [limit] query parameter. *)
Definition listLimit (r : Http.Request) : Z :=
  let limit := 100 in
  let limitStr := Http.Values_Get (Http.URL_Query (Http.req_URL r)) "limit" in
  if negb (String.eqb limitStr EmptyString) then
    match Strconv.Atoi limitStr with
    | (parsedLimit, None) =>
        if parsedLimit >? 0
        then (if parsedLimit >? 100 then 100 else parsedLimit)
        else limit
    | (_, Some _) => limit
    end
  else limit.

(** The loop of [ListPets] over the pets in the order [range ps.pets]
    yields them: append until [limit] are collected. *)
Fixpoint collect (limit : Z) (ranged collected : list Pet) : list Pet :=
  match ranged with
  | [] => collected
  | pet :: rest =>
      if Z.of_nat (length collected) >=? limit then collected
      else collect limit rest (collected ++ [pet])
  end.

(** [ListPets], given the order [ranged] in which the map yields its pets
    (Go leaves it unspecified). *)
Definition ListPets_ranged (J : Json) (ranged : list Pet) (w : Http.ResponseWriter)
    (r : Http.Request) : Http.ResponseWriter :=
  let w := Http.with_header w (Http.Set_ (Http.rw_header w) "Content-Type" "application/json") in
  let limit := listLimit r in
  let pets := collect limit ranged [] in
  let w := Http.WriteHeader w Http.StatusOK in
  Encode w (encodePets J pets).

(** One possible iteration order. *)
Definition range_pets (ps : PetStore) : list Pet := (map_to_list (pets ps)).*2.

Definition ListPets (J : Json) (ps : PetStore) (w : Http.ResponseWriter)
    (r : Http.Request) : Http.ResponseWriter :=
  ListPets_ranged J (range_pets ps) w r.

(** [CreatePets]: the store and the writer after the call. *)
Definition CreatePets (J : Json) (ps : PetStore) (w : Http.ResponseWriter)
    (r : Http.Request) : PetStore * Http.ResponseWriter :=
  let w := Http.with_header w (Http.Set_ (Http.rw_header w) "Content-Type" "application/json") in
  match json_decode_pet J (Http.req_Body r) with
  | None => (ps, sendError J w Http.StatusBadRequest "Invalid request body")
  | Some pet =>
      if String.eqb (Name pet) EmptyString
      then (ps, sendError J w Http.StatusBadRequest "Pet name is required")
      else
        let pet := {| ID := nextID ps; Name := Name pet; Tag := Tag pet |} in
        let ps := {| pets := <[ID pet := pet]> (pets ps);
                     nextID := int_wrap (nextID ps + 1) |} in
        let w := Http.WriteHeader w StatusCreated in
        (ps, Encode w (encodePet J pet))
  end.

(** [ShowPetById]; [vars] is [mux.Vars(r)], the variables of the matched
    route.  [strconv.ParseInt(s, 10, 64)] is [strconv.Atoi] on a 64-bit
    platform. *)
Definition ShowPetById (J : Json) (ps : PetStore) (vars : gmap string string)
    (w : Http.ResponseWriter) : Http.ResponseWriter :=
  let w := Http.with_header w (Http.Set_ (Http.rw_header w) "Content-Type" "application/json") in
  match Strconv.Atoi (default EmptyString (vars !! "petId")) with
  | (_, Some _) => sendError J w Http.StatusBadRequest "Invalid pet ID"
  | (petID, None) =>
      match pets ps !! petID with
      | None => sendError J w StatusNotFound "Pet not found"
      | Some pet =>
          let w := Http.WriteHeader w Http.StatusOK in
          Encode w (encodePet J pet)
      end
  end.

(** The store after a sequence of [CreatePets] calls. *)
Fixpoint createAll (J : Json) (ps : PetStore) (requests : list Http.Request) : PetStore :=
  match requests with
  | [] => ps
  | r :: rest => createAll J (CreatePets J ps (Http.newResponseWriter true) r).1 rest
  end.

End Openapi.

(** * Notions used in the statements *)

(** Strict byte-wise order on strings. *)
Definition string_lt (a b : string) : Prop := String.le a b ∧ a ≠ b.

(** The values a header name receives from the arriving lines, in arrival
    order; [k] is a canonical name. *)
Definition arrival_values (k : string) (lines : list (string * string)) : list string :=
  (filter (λ kv, Http.CanonicalMIMEHeaderKey kv.1 = k) lines).*2.

(** What [writeRequest] writes before the body section. *)
Definition requestHead (req : Http.Request) : string :=
  Http.req_Method req +:+ " " +:+ Http.URL_String (Http.req_URL req) +:+ " "
    +:+ Http.req_Proto req +:+ LF +:+ LF
    +:+ "Host: " +:+ Http.req_Host req +:+ LF
    +:+ printHeaders (Http.req_Header req).

(** The identity text of the plain reply and of the first WebSocket
    message. *)
Definition identity (S : Surroundings) : string :=
  match Hostname S with
  | HostnameOk host => "Request served by " +:+ host
  | HostnameErr err => "Server hostname unknown: " +:+ err
  end.

(** The bytes of one server-sent event on the wire. *)
Definition sse_field (k v : string) : string :=
  concat_lines ((λ line, k +:+ ": " +:+ line +:+ LF) <$> Strings.Split v "010").

Definition sse_frame (event data : string) (id : Z) : string :=
  sse_field "event" event +:+ sse_field "data" data
    +:+ sse_field "id" (Strconv.Itoa id) +:+ LF.

(** The events of a session as pairs of type and data, in order. *)
Definition sse_events (S : Surroundings) (sendServerHostname : bool)
    (echo : string) : list (string * string) :=
  (if sendServerHostname then
     match Hostname S with
     | HostnameOk host => [("server", host)]
     | HostnameErr _ => []
     end
   else [])
  ++ [("request", echo)] ++ (("time",.) <$> Ticks S).

(** The events numbered from [first]. *)
Fixpoint numbered (first : Z) (events : list (string * string)) : list string :=
  match events with
  | [] => []
  | (event, data) :: rest => sse_frame event data first :: numbered (first + 1) rest
  end.

(** The host name decision the way the specification words it: the value
    of the request header when the header is present, else that of the
    variable, disables when it equals ["false"] up to case. *)
Definition disclosure_as_specified (environ : list string) (req : Http.Request) : bool :=
  let effective :=
    match Http.req_Header req !! "X-Send-Server-Hostname" with
    | Some (v :: _) => v
    | _ => Getenv environ "SEND_SERVER_HOSTNAME"
    end in
  negb (Strings.EqualFold effective "false").

(** ASCII lower case. *)
Definition lower_byte (c : ascii) : ascii :=
  if is_upper c then chr (byte c + toLower) else c.

Fixpoint lower (s : string) : string :=
  match s with
  | EmptyString => EmptyString
  | String c s' => String (lower_byte c) (lower s')
  end.

Definition is_ascii (s : string) : bool :=
  Http.all_bytes (λ c, byte c <? Utf8.RuneSelf) s.

(** The response header a line of the environment asks for, if any: the
    canonical name and the value. *)
Definition sendHeaderOf (line : string) : option (string * string) :=
  match Strings.Cut line "=" with
  | Some (key, value) =>
      match Strings.CutPrefix key "SEND_HEADER_" with
      | Some name =>
          Some (Http.CanonicalMIMEHeaderKey (Strings.ReplaceAll name "_" "-"), value)
      | None => None
      end
  | None => None
  end.

(** The value the header named [k] is left with by the header loop: that
    of the last line of the environment asking for it. *)
Fixpoint lastSendHeader (environ : list string) (k : string) : option string :=
  match environ with
  | [] => None
  | line :: rest =>
      match lastSendHeader rest k with
      | Some v => Some v
      | None =>
          match sendHeaderOf line with
          | Some (k', v) => if decide (k' = k) then Some v else None
          | None => None
          end
      end
  end.

(** Every line of the environment has the form [NAME=value]. *)
Definition wellFormed (environ : list string) : Prop :=
  Forall (λ line, is_Some (Strings.Cut line "=")) environ.

(** The header names [serveSSE] sets itself. *)
Definition sseOwnHeaders : list string :=
  ["Content-Type"; "Cache-Control"; "Connection"; "Access-Control-Allow-Origin"].

(** The header names an [http.Error] reply sets or removes itself. *)
Definition errorOwnHeaders : list string :=
  ["Content-Length"; "Content-Type"; "X-Content-Type-Options"].

(** [sub] occurs in [s]. *)
Fixpoint contains (s sub : string) : bool :=
  match Strings.CutPrefix s sub with
  | Some _ => true
  | None => match s with
            | EmptyString => false
            | String _ s' => contains s' sub
            end
  end.

(** The two bodies [throwErrorHandler] writes. *)
Definition invalidStatusBody : string :=
  "{" +:+ quoted "error" +:+ ":" +:+ quoted "Invalid status code" +:+ "}".

Definition forcedErrorBody (code : Z) : string :=
  "{" +:+ quoted "error" +:+ ":"
    +:+ quoted ("This is a forced error with status " +:+ Strconv.Itoa code) +:+ "}".

(** The 256 bytes. *)
Definition all_bytes_list : list ascii := ascii_of_nat <$> seq 0 256.

(** One step of the ASCII loop of [EqualFold]. *)
Definition fold_step (sc tc : ascii) : bool :=
  if Ascii.eqb tc sc then true
  else
    let lo := Z.min (byte sc) (byte tc) in
    let hi := Z.max (byte sc) (byte tc) in
    (65 <=? lo) && (lo <=? 90) && (hi =? lo + toLower).

(** What is, or will be, sent as status and headers. *)
Definition committed (w : Http.ResponseWriter) : option (Z * Http.Header) :=
  Http.rw_wrote (Http.WriteHeader w 200).

(** What the peer of a WebSocket session receives after the handshake
    when [budget] writes succeed ([None]: all of them): the first message
    and the echoes, as far as the budget goes. *)
Definition delivered (budget : option nat) (messages : list (Z * string))
  : list (Z * string) :=
  match budget with
  | None => messages
  | Some n => take n messages
  end.

(** The pet store holds every pet under its own id, and the ids in use
    are those from 1 up to the next one to be given out, without gaps. *)
Definition store_ok (ps : Openapi.PetStore) : Prop :=
  (∀ id pet, Openapi.pets ps !! id = Some pet → Openapi.ID pet = id)
  ∧ (∀ id, is_Some (Openapi.pets ps !! id) ↔ 0 < id < Openapi.nextID ps)
  ∧ 0 < Openapi.nextID ps.

(** The requests [CreatePets] accepts: the body decodes to a pet with a
    name. *)
Definition accepted (J : Openapi.Json) (r : Http.Request) : bool :=
  match Openapi.json_decode_pet J (Http.req_Body r) with
  | Some pet => negb (String.eqb (Openapi.Name pet) EmptyString)
  | None => false
  end.

(** A run of [n] slashes. *)
Fixpoint slashes (n : nat) : string :=
  match n with
  | O => EmptyString
  | S n' => String "/" (slashes n')
  end.

(** * Sample inputs *)

Definition sampleURL (path : string) (query : gmap string (list string)) : Http.URL :=
  {| Http.URL_String := path; Http.URL_Path := path; Http.URL_Query := query |}.

Definition sampleRequest (method path : string) (header : Http.Header) (body : string)
  : Http.Request :=
  {| Http.req_Method := method; Http.req_URL := sampleURL path ∅; Http.req_Proto := "HTTP/1.1";
     Http.req_Host := "localhost:8080"; Http.req_RemoteAddr := "127.0.0.1:50000";
     Http.req_Header := header; Http.req_Body := body |}.

Definition throwRequest (code : string) : Http.Request :=
  {| Http.req_Method := "GET"; Http.req_URL := sampleURL "/throw" {[ "code" := [code] ]};
     Http.req_Proto := "HTTP/1.1"; Http.req_Host := "localhost:8080";
     Http.req_RemoteAddr := "127.0.0.1:50000"; Http.req_Header := ∅; Http.req_Body := "" |}.


Definition sampleSurroundings (environ : list string) (hostname : HostnameResult)
    (handshake : Websocket.Upgraded) (ticks : list string) : Surroundings :=
  {| Environ := environ; Hostname := hostname;
     IsWebSocketUpgrade := λ h, bool_decide (h !! "Upgrade" = Some ["websocket"]);
     Handshake := handshake; Ticks := ticks;
     Frontend := Parsed (λ root path, ("<html>" +:+ root +:+ path +:+ "</html>", None)) |}.

Definition noHandshake : Websocket.Upgraded :=
  Websocket.UpgradeError "websocket: not a websocket handshake" (Some (400, "Bad Request")).

(** A peer that sends two messages and then closes; every write succeeds. *)
Definition samplePeer : Websocket.Conn :=
  {| Websocket.conn_in := [(Websocket.TextMessage, "hello"); (Websocket.BinaryMessage, "bin")];
     Websocket.conn_read_err := "websocket: close 1000 (normal)";
     Websocket.conn_writes := None;
     Websocket.conn_write_err := "write: broken pipe";
     Websocket.conn_out := [];
     Websocket.conn_handshake := ∅ |}.

(** A stand-in for [encoding/json] on plain names: strings are quoted as
    they are; a request body is taken for the name of the pet, ["{}"] for
    a pet without fields, and the empty body is not JSON. *)
Definition sampleJson : Openapi.Json :=
  {| Openapi.json_string := quoted;
     Openapi.json_decode_pet := λ body,
       if String.eqb body EmptyString then None
       else if String.eqb body "{}"
            then Some {| Openapi.ID := 0; Openapi.Name := EmptyString; Openapi.Tag := EmptyString |}
            else Some {| Openapi.ID := 42; Openapi.Name := body; Openapi.Tag := EmptyString |} |}.

Definition petRequest (method path : string) (query : gmap string (list string))
    (body : string) : Http.Request :=
  {| Http.req_Method := method; Http.req_URL := sampleURL path query;
     Http.req_Proto := "HTTP/1.1"; Http.req_Host := "localhost:8080";
     Http.req_RemoteAddr := "127.0.0.1:50000"; Http.req_Header := ∅; Http.req_Body := body |}.

(** * Properties *)

Import Http.

(** ** Strings *)

Lemma app_nil_r (s : string) : s +:+ EmptyString = s.
Proof. induction s as [|c s IH]; [done|]. unfold String.app in *; simpl. by rewrite IH. Qed.

Lemma app_assoc (a b c : string) : (a +:+ b) +:+ c = a +:+ (b +:+ c).
Proof.
  induction a as [|x a IH]; [done|]. unfold String.app in *; simpl. by rewrite IH.
Qed.

Lemma app_cons (c : ascii) (a b : string) : String c a +:+ b = String c (a +:+ b).
Proof. done. Qed.

Lemma concat_lines_app (l1 l2 : list string) :
  concat_lines (l1 ++ l2) = concat_lines l1 +:+ concat_lines l2.
Proof.
  induction l1 as [|x l1 IH]; [done|]. unfold concat_lines in *; simpl.
  by rewrite IH, app_assoc.
Qed.

(** ** Library models on sample inputs *)

Example EqualFold_samples :
  Strings.EqualFold "FaLsE" "false" = true
  ∧ Strings.EqualFold "fals" "false" = false
  ∧ Strings.EqualFold "falsee" "false" = false
  ∧ Strings.EqualFold "" "false" = false
  ∧ Strings.EqualFold
      (String "f" (String "a" (String "l" (String (chr 197) (String (chr 191) "e")))))
      "false" = true
  ∧ Strings.EqualFold
      (String "f" (String "a" (String "l" (String (chr 195) (String (chr 191) "e")))))
      "false" = false.
Proof. vm_compute. repeat split. Qed.

Example Atoi_samples :
  Strconv.Atoi "404" = (404, None)
  ∧ Strconv.Atoi "+200" = (200, None)
  ∧ Strconv.Atoi "-5" = (-5, None)
  ∧ Strconv.Atoi "" = (0, Some Strconv.ErrSyntax)
  ∧ Strconv.Atoi "4o4" = (0, Some Strconv.ErrSyntax)
  ∧ Strconv.Atoi "1_0" = (0, Some Strconv.ErrSyntax)
  ∧ Strconv.Atoi "9223372036854775807" = (9223372036854775807, None)
  ∧ Strconv.Atoi "9223372036854775808" = (Strconv.maxInt, Some Strconv.ErrRange)
  ∧ Strconv.Atoi "-9223372036854775808" = (-9223372036854775808, None)
  ∧ Strconv.Atoi "99999999999999999999x" = (Strconv.maxInt, Some Strconv.ErrRange)
  ∧ Strconv.Itoa 12 = "12" ∧ Strconv.Itoa 0 = "0".
Proof. vm_compute. repeat split. Qed.

Example Base_samples :
  Path.Base "/a/.ws" = ".ws" ∧ Path.Base "/a/.ws/" = ".ws" ∧ Path.Base ".sse" = ".sse"
  ∧ Path.Base "" = "." ∧ Path.Base "///" = "/" ∧ Path.Base "/a/b.ws" = "b.ws"
  ∧ Path.Base "/" = "/" ∧ Path.Base "/x/.sse//" = ".sse".
Proof. vm_compute. repeat split. Qed.

Example Canonical_samples :
  CanonicalMIMEHeaderKey "X-FOO" = "X-Foo"
  ∧ CanonicalMIMEHeaderKey "x-send-server-hostname" = "X-Send-Server-Hostname"
  ∧ CanonicalMIMEHeaderKey "CACHE-CONTROL" = "Cache-Control"
  ∧ CanonicalMIMEHeaderKey "a b" = "a b"
  ∧ CanonicalMIMEHeaderKey "" = "".
Proof. vm_compute. repeat split. Qed.

Example Split_samples :
  Strings.Split ("a" +:+ LF +:+ "b") "010" = ["a"; "b"]
  ∧ Strings.Split "" "010" = [""]
  ∧ Strings.Split ("a" +:+ LF) "010" = ["a"; ""]
  ∧ Strings.SplitN2 "A=b=c" "=" = ["A"; "b=c"]
  ∧ Strings.SplitN2 "A" "=" = ["A"].
Proof. vm_compute. repeat split. Qed.

(** ** The loops of [EqualFold] never run out of fuel *)

Lemma SimpleFold_outside (r : Z) : r < 65 ∨ 8490 < r → Utf8.SimpleFold r = r.
Proof.
  intros H. unfold Utf8.SimpleFold.
  repeat match goal with
         | |- context [?a =? ?b] => destruct (Z.eqb_spec a b); [lia|]
         | |- context [?a <=? ?b] => destruct (Z.leb_spec a b); [|simpl]
         end; simpl; try lia; reflexivity.
Qed.

(** Folding three times, or twice, comes back to the rune. *)
Lemma SimpleFold_cycle (r : Z) :
  Utf8.SimpleFold (Utf8.SimpleFold (Utf8.SimpleFold r)) = r
  ∨ Utf8.SimpleFold (Utf8.SimpleFold r) = r.
Proof.
  destruct (decide (65 ≤ r ≤ 8490)) as [Hin|Hout].
  - assert (forallb (λ n : nat,
              let x := 65 + Z.of_nat n in
              (Utf8.SimpleFold (Utf8.SimpleFold (Utf8.SimpleFold x)) =? x)
              || (Utf8.SimpleFold (Utf8.SimpleFold x) =? x))
            (seq 0 (Z.to_nat 8426)) = true) as Hall by (vm_compute; reflexivity).
    rewrite forallb_forall in Hall. specialize (Hall (Z.to_nat (r - 65))).
    replace (65 + Z.of_nat (Z.to_nat (r - 65))) with r in Hall by lia.
    cbv zeta in Hall. apply orb_true_iff in Hall as [H|H].
    + left. by apply Z.eqb_eq.
    + right. by apply Z.eqb_eq.
    + apply in_seq. lia.
  - right. rewrite !SimpleFold_outside; [done|lia|].
    rewrite SimpleFold_outside; lia.
Qed.

(** More fuel than three steps changes nothing in the orbit search. *)
Lemma orbit_search_fuel (n : nat) (sr tr : Z) :
  Strings.orbit_search (3 + n) sr tr (Utf8.SimpleFold sr)
  = Strings.orbit_search 3 sr tr (Utf8.SimpleFold sr).
Proof.
  set (r1 := Utf8.SimpleFold sr). set (r2 := Utf8.SimpleFold r1).
  set (r3 := Utf8.SimpleFold r2).
  assert (r3 = sr ∨ r2 = sr) as Hcycle by apply SimpleFold_cycle.
  change (3 + n)%nat with (S (S (S n))). simpl.
  destruct (negb (r1 =? sr) && (r1 <? tr)); [|done]. fold r2.
  destruct (negb (r2 =? sr) && (r2 <? tr)) eqn:E2; [|done]. fold r3.
  destruct Hcycle as [H3|H2].
  - rewrite H3, Z.eqb_refl. simpl. by destruct n.
  - rewrite H2, Z.eqb_refl in E2. done.
Qed.

Lemma decode_width (c : ascii) (s : string) :
  (1 ≤ (Utf8.DecodeRuneInString (String c s)).2)%nat.
Proof.
  unfold Utf8.DecodeRuneInString.
  repeat match goal with
         | |- context [if ?b then _ else _] => destruct b
         | |- context [match ?x with EmptyString => _ | String _ _ => _ end] => destruct x
         end; simpl; lia.
Qed.

Lemma drop_bytes_shorter (n : nat) (c : ascii) (s : string) :
  (1 ≤ n)%nat → (String.length (drop_bytes n (String c s)) ≤ String.length s)%nat.
Proof.
  intros Hn. destruct n as [|n]; [lia|]. simpl. clear Hn.
  revert s. induction n as [|n IH]; intros s; [simpl; lia|].
  destruct s as [|d s]; [simpl; lia|]. simpl. specialize (IH s). lia.
Qed.

Lemma runes_cons (fuel : nat) (c : ascii) (s t : string) :
  Strings.runes (S fuel) (String c s) t
  = let '(sr, ws) := Utf8.DecodeRuneInString (String c s) in
    match t with
    | EmptyString => false
    | String t0 _ =>
        let '(tr, wt) :=
          if byte t0 <? Utf8.RuneSelf then (byte t0, 1%nat)
          else Utf8.DecodeRuneInString t in
        if Strings.rune_fold_eq sr tr
        then Strings.runes fuel (drop_bytes ws (String c s)) (drop_bytes wt t)
        else false
    end.
Proof. reflexivity. Qed.

(** [String.length s] iterations are enough for the rune loop: more fuel
    gives the same answer. *)
Lemma runes_fuel (fuel : nat) (s t : string) :
  (String.length s ≤ fuel)%nat →
  Strings.runes fuel s t = Strings.runes (String.length s) s t.
Proof.
  revert s t. induction fuel as [fuel IH] using lt_wf_ind. intros s t Hlen.
  destruct s as [|c s]; [by destruct fuel|].
  destruct fuel as [|fuel]; [simpl in Hlen; lia|].
  change (String.length (String c s)) with (S (String.length s)) in *.
  rewrite !runes_cons.
  pose proof (decode_width c s) as Hw.
  destruct (Utf8.DecodeRuneInString (String c s)) as [sr ws]. simpl in Hw.
  destruct t as [|t0 t]; [done|].
  destruct (if byte t0 <? Utf8.RuneSelf then _ else _) as [tr wt].
  destruct (Strings.rune_fold_eq sr tr); [|done].
  pose proof (drop_bytes_shorter ws c s Hw) as Hshort.
  rewrite (IH fuel) by lia.
  symmetry. apply (IH (String.length s)); lia.
Qed.

(** ** The gRPC handler *)

(** C9: for every string [s], the empty one and those holding multi-byte
    characters included (a string is any sequence of bytes), the Echo
    handler returns a response whose message is [s], byte for byte, and no
    error. *)
Theorem Echo_returns_message (s stdout : string) :
  ∃ printed,
    Echo (Some {| req_Message := s |}) stdout
    = (Some {| Message := s |}, None, printed).
Proof. unfold Echo, GetMessage; simpl. eauto. Qed.

(** ** The response writer *)

Lemma foldr_app_pending (chunks : list string) (p d : string) :
  foldr String.app (p +:+ d) chunks = foldr String.app p chunks +:+ d.
Proof.
  induction chunks as [|x chunks IH]; [done|]. simpl. by rewrite IH, app_assoc.
Qed.

Lemma body_Write (w : ResponseWriter) (data : string) :
  body (Write w data) = body w +:+ data.
Proof.
  unfold body, Write, WriteHeader.
  destruct (rw_wrote w); simpl; apply foldr_app_pending.
Qed.

Lemma body_WriteHeader (w : ResponseWriter) (code : Z) :
  body (WriteHeader w code) = body w.
Proof. unfold body, WriteHeader. by destruct (rw_wrote w), (informational code). Qed.

Lemma wrote_WriteHeader_fresh (w : ResponseWriter) (code : Z) :
  rw_wrote w = None → informational code = false →
  rw_wrote (WriteHeader w code) = Some (code, rw_header w).
Proof. intros H Hc. unfold WriteHeader. by rewrite H, Hc. Qed.

Lemma WriteHeader_interim (w : ResponseWriter) (code : Z) :
  rw_wrote w = None → informational code = true →
  rw_wrote (WriteHeader w code) = None
  ∧ rw_header (WriteHeader w code) = rw_header w
  ∧ rw_interim (WriteHeader w code) = rw_interim w ++ [(code, rw_header w)].
Proof. intros H Hc. unfold WriteHeader. by rewrite H, Hc. Qed.

Lemma interim_WriteHeader_final (w : ResponseWriter) (code : Z) :
  informational code = false → rw_interim (WriteHeader w code) = rw_interim w.
Proof. intros Hc. unfold WriteHeader. rewrite Hc. by destruct (rw_wrote w). Qed.

Lemma interim_Write (w : ResponseWriter) (data : string) :
  rw_interim (Write w data) = rw_interim w.
Proof. unfold Write. cbn [rw_interim]. by apply interim_WriteHeader_final. Qed.

Lemma wrote_WriteHeader_again (w : ResponseWriter) (code : Z) (x : Z * Header) :
  rw_wrote w = Some x → WriteHeader w code = w.
Proof. intros H. unfold WriteHeader. by rewrite H. Qed.

Lemma wrote_Write (w : ResponseWriter) (data : string) :
  rw_wrote (Write w data) = rw_wrote (WriteHeader w 200).
Proof. done. Qed.

Lemma wrote_Write_after (w : ResponseWriter) (data : string) (x : Z * Header) :
  rw_wrote w = Some x → rw_wrote (Write w data) = Some x.
Proof. intros H. rewrite wrote_Write. by rewrite (wrote_WriteHeader_again _ _ _ H). Qed.

Lemma header_Write (w : ResponseWriter) (data : string) :
  rw_header (Write w data) = rw_header w.
Proof. unfold Write, WriteHeader. by destruct (rw_wrote w). Qed.

(** ** [throwErrorHandler] *)

(** What the handler does with an accepted code: it passes the code to
    [WriteHeader] and writes the JSON error naming it.  An informational
    code goes out as an interim response, and the write that follows
    fixes the reply at 200. *)
Lemma throw_accepts (w : ResponseWriter) (r : Request) (code : Z) :
  rw_wrote w = None →
  Strconv.Atoi (Values_Get (URL_Query (req_URL r)) "code") = (code, None) →
  100 ≤ code ≤ 599 →
  body (throwErrorHandler w r) = body w +:+ forcedErrorBody code
  ∧ rw_wrote (throwErrorHandler w r)
    = Some (if informational code then 200 else code, rw_header w)
  ∧ rw_interim (throwErrorHandler w r)
    = rw_interim w ++ (if informational code then [(code, rw_header w)] else []).
Proof.
  intros Hw Hparse [Hlo Hhi]. unfold throwErrorHandler. rewrite Hparse.
  replace (code <? 100) with false by (symmetry; apply Z.ltb_ge; lia).
  replace (code >? 599) with false by (symmetry; rewrite Z.gtb_ltb; apply Z.ltb_ge; lia).
  cbn [orb]. cbv iota. split; [by rewrite body_Write, body_WriteHeader|].
  rewrite interim_Write, wrote_Write.
  destruct (informational code) eqn:Hc.
  - destruct (WriteHeader_interim w code Hw Hc) as (Hnone & Hh & Hi).
    split; [|done]. rewrite wrote_WriteHeader_fresh by done. by rewrite Hh.
  - split.
    + by rewrite (wrote_WriteHeader_again _ 200 _ (wrote_WriteHeader_fresh w code Hw Hc)),
        wrote_WriteHeader_fresh.
    + rewrite interim_WriteHeader_final by done. by rewrite (right_id [] app).
Qed.

Lemma throw_rejects (w : ResponseWriter) (r : Request) :
  rw_wrote w = None →
  (let '(code, err) := Strconv.Atoi (Values_Get (URL_Query (req_URL r)) "code") in
   err ≠ None ∨ code < 100 ∨ 599 < code) →
  status (throwErrorHandler w r) = Some StatusBadRequest
  ∧ body (throwErrorHandler w r) = body w +:+ invalidStatusBody
  ∧ sent_body (throwErrorHandler w r) = body w +:+ invalidStatusBody.
Proof.
  intros Hw. unfold throwErrorHandler.
  destruct (Strconv.Atoi _) as [code err]. intros Hbad.
  assert ((match err with Some _ => true | None => false end)
          || (code <? 100) || (code >? 599) = true) as ->.
  { destruct err as [e|]; [done|]. simpl.
    destruct Hbad as [?|[?|?]]; [done| |].
    - replace (code <? 100) with true by (symmetry; apply Z.ltb_lt; lia). done.
    - replace (code >? 599) with true by (symmetry; rewrite Z.gtb_ltb; apply Z.ltb_lt; lia).
      by destruct (code <? 100). }
  assert (rw_wrote (Write (WriteHeader w StatusBadRequest) invalidStatusBody)
          = Some (StatusBadRequest, rw_header w)) as Hsent.
  { by rewrite (wrote_Write_after _ _ _ (wrote_WriteHeader_fresh _ StatusBadRequest Hw eq_refl)). }
  assert (body (Write (WriteHeader w StatusBadRequest) invalidStatusBody)
          = body w +:+ invalidStatusBody) as Hbody
    by (by rewrite body_Write, body_WriteHeader).
  unfold invalidStatusBody in *.
  split; [by unfold status; rewrite Hsent|]. split; [done|].
  unfold sent_body. by rewrite Hsent.
Qed.

(** Every code of the range is the value of some parameter text: its
    decimal form. *)
Lemma Atoi_Itoa_status (code : Z) :
  100 ≤ code ≤ 599 → Strconv.Atoi (Strconv.Itoa code) = (code, None).
Proof.
  intros [Hlo Hhi].
  assert (forallb (λ n : nat,
            let '(v, e) := Strconv.Atoi (Strconv.Itoa (100 + Z.of_nat n)) in
            (v =? 100 + Z.of_nat n) && match e with None => true | Some _ => false end)
          (seq 0 500) = true) as Hall by (vm_compute; reflexivity).
  rewrite forallb_forall in Hall.
  specialize (Hall (Z.to_nat (code - 100))).
  replace (100 + Z.of_nat (Z.to_nat (code - 100))) with code in Hall by lia.
  destruct (Strconv.Atoi (Strconv.Itoa code)) as [v [e|]].
  - rewrite andb_false_r in Hall. discriminate Hall. apply in_seq. lia.
  - rewrite andb_true_r in Hall. f_equal. apply Z.eqb_eq, Hall.
  apply in_seq. lia.
Qed.

(** C10, counterexample: for the code 150 the status of the reply is 200,
    not 150 (the handler's [WriteHeader(150)] only sends an interim
    response, and its write then fixes the reply at 200); for the code 204
    the reply has status 204 and no body, the JSON error is refused. *)
Lemma throw_status_is_not_always_the_code :
  status (throwErrorHandler (newResponseWriter true) (throwRequest "150")) = Some 200
  ∧ status (throwErrorHandler (newResponseWriter true) (throwRequest "150")) ≠ Some 150
  ∧ status (throwErrorHandler (newResponseWriter true) (throwRequest "204")) = Some 204
  ∧ sent_body (throwErrorHandler (newResponseWriter true) (throwRequest "204")) = EmptyString
  ∧ sent_body (throwErrorHandler (newResponseWriter true) (throwRequest "204"))
    ≠ forcedErrorBody 204.
Proof. by vm_compute. Qed.

(** C10, amended: the router sends [GET /throw] to [throwErrorHandler],
    ahead of the catch-all echo dispatcher.  When the [code] query
    parameter parses ([strconv.Atoi]) as an integer from 100 to 599, the
    handler passes it to [WriteHeader] and writes the JSON error naming
    it.  For a code from 200 to 599 other than 204 and 304 the reply has
    exactly that status and that body.  For 100 and for 102 to 199 the
    code goes out as an interim response and the reply that follows has
    status 200 and that body.  For 101, 204 and 304 the reply has that
    status and no body.  When the parameter is missing, does not parse,
    or is out of range, the status is 400 and the body is the ["Invalid
    status code"] JSON error.  Each code of the range is reached by its
    decimal text. *)
Theorem throw_endpoint :
  createRouter "GET" "/throw" = Handle throwError
  ∧ (∀ w r code,
       rw_wrote w = None →
       Strconv.Atoi (Values_Get (URL_Query (req_URL r)) "code") = (code, None) →
       200 ≤ code ≤ 599 → code ≠ 204 → code ≠ 304 →
       status (throwErrorHandler w r) = Some code
       ∧ rw_interim (throwErrorHandler w r) = rw_interim w
       ∧ sent_body (throwErrorHandler w r) = body w +:+ forcedErrorBody code)
  ∧ (∀ w r code,
       rw_wrote w = None →
       Strconv.Atoi (Values_Get (URL_Query (req_URL r)) "code") = (code, None) →
       100 ≤ code ≤ 199 → code ≠ 101 →
       status (throwErrorHandler w r) = Some 200
       ∧ rw_interim (throwErrorHandler w r) = rw_interim w ++ [(code, rw_header w)]
       ∧ sent_body (throwErrorHandler w r) = body w +:+ forcedErrorBody code)
  ∧ (∀ w r code,
       rw_wrote w = None →
       Strconv.Atoi (Values_Get (URL_Query (req_URL r)) "code") = (code, None) →
       code = 101 ∨ code = 204 ∨ code = 304 →
       status (throwErrorHandler w r) = Some code
       ∧ rw_interim (throwErrorHandler w r) = rw_interim w
       ∧ body (throwErrorHandler w r) = body w +:+ forcedErrorBody code
       ∧ sent_body (throwErrorHandler w r) = EmptyString)
  ∧ (∀ w r,
       rw_wrote w = None →
       (let '(code, err) := Strconv.Atoi (Values_Get (URL_Query (req_URL r)) "code") in
        err ≠ None ∨ code < 100 ∨ 599 < code) →
       status (throwErrorHandler w r) = Some StatusBadRequest
       ∧ sent_body (throwErrorHandler w r) = body w +:+ invalidStatusBody)
  ∧ (∀ w r,
       rw_wrote w = None →
       URL_Query (req_URL r) !! "code" = None →
       status (throwErrorHandler w r) = Some StatusBadRequest
       ∧ sent_body (throwErrorHandler w r) = body w +:+ invalidStatusBody)
  ∧ (∀ code, 100 ≤ code ≤ 599 → Strconv.Atoi (Strconv.Itoa code) = (code, None)).
Proof.
  split; [by vm_compute|].
  split; [|split; [|split; [|split; [|split; [|apply Atoi_Itoa_status]]]]].
  - intros w r code Hw Hparse Hrange H204 H304.
    destruct (throw_accepts w r code Hw Hparse) as (Hbody & Hsent & Hinterim); [lia|].
    assert (informational code = false) as Hc.
    { unfold informational. destruct (Z.leb_spec code 199); [lia|].
      by rewrite andb_false_r. }
    rewrite Hc in Hsent, Hinterim. rewrite (right_id [] app) in Hinterim.
    split; [by unfold status; rewrite Hsent|]. split; [done|].
    unfold sent_body. rewrite Hsent, Hbody.
    assert (bodyAllowedForStatus code = true) as ->; [|done].
    unfold bodyAllowedForStatus.
    destruct (Z.leb_spec code 199); [lia|]. rewrite andb_false_r.
    destruct (Z.eqb_spec code 204); [done|]. by destruct (Z.eqb_spec code 304).
  - intros w r code Hw Hparse Hrange H101.
    destruct (throw_accepts w r code Hw Hparse) as (Hbody & Hsent & Hinterim); [lia|].
    assert (informational code = true) as Hc.
    { unfold informational.
      destruct (Z.leb_spec 100 code); [|lia]. destruct (Z.leb_spec code 199); [|lia].
      by destruct (Z.eqb_spec code 101). }
    rewrite Hc in Hsent, Hinterim.
    split; [by unfold status; rewrite Hsent|]. split; [done|].
    unfold sent_body. by rewrite Hsent, Hbody.
  - intros w r code Hw Hparse Hcode.
    destruct (throw_accepts w r code Hw Hparse) as (Hbody & Hsent & Hinterim); [lia|].
    assert (informational code = false ∧ bodyAllowedForStatus code = false) as [Hc Hb]
      by (by destruct Hcode as [->|[->| ->]]).
    rewrite Hc in Hsent, Hinterim. rewrite (right_id [] app) in Hinterim.
    split; [by unfold status; rewrite Hsent|]. split; [done|]. split; [done|].
    unfold sent_body. by rewrite Hsent, Hb.
  - intros w r Hw Hbad. by destruct (throw_rejects w r Hw Hbad) as (? & _ & ?).
  - intros w r Hw Hq.
    assert (let '(code, err) := Strconv.Atoi (Values_Get (URL_Query (req_URL r)) "code") in
            err ≠ None ∨ code < 100 ∨ 599 < code) as Hbad.
    { unfold Values_Get. rewrite Hq. vm_compute. left. done. }
    by destruct (throw_rejects w r Hw Hbad) as (? & _ & ?).
Qed.

Lemma throw_endpoint_witness :
  status (throwErrorHandler (newResponseWriter true) (throwRequest "503")) = Some 503
  ∧ sent_body (throwErrorHandler (newResponseWriter true) (throwRequest "503"))
    = forcedErrorBody 503
  ∧ status (throwErrorHandler (newResponseWriter true) (throwRequest "102")) = Some 200
  ∧ rw_interim (throwErrorHandler (newResponseWriter true) (throwRequest "102"))
    = [(102, ∅)]
  ∧ sent_body (throwErrorHandler (newResponseWriter true) (throwRequest "304"))
    = EmptyString
  ∧ status (throwErrorHandler (newResponseWriter true) (throwRequest "99"))
    = Some 400
  ∧ status (throwErrorHandler (newResponseWriter true) (sampleRequest "GET" "/throw" ∅ ""))
    = Some 400.
Proof.
  destruct throw_endpoint as (_ & Hok & Hinfo & Hnobody & Hbad & Hmiss & _).
  destruct (Hok (newResponseWriter true) (throwRequest "503") 503)
    as (H1 & _ & H2); [reflexivity | by vm_compute | lia | lia | lia |].
  destruct (Hinfo (newResponseWriter true) (throwRequest "102") 102)
    as (H3 & H4 & _); [reflexivity | by vm_compute | lia | lia |].
  destruct (Hnobody (newResponseWriter true) (throwRequest "304") 304)
    as (_ & _ & _ & H5); [reflexivity | by vm_compute | by right; right |].
  destruct (Hbad (newResponseWriter true) (throwRequest "99")) as (H6 & _);
    [reflexivity | vm_compute; right; left; reflexivity |].
  destruct (Hmiss (newResponseWriter true) (sampleRequest "GET" "/throw" ∅ "")) as (H7 & _);
    [reflexivity | reflexivity |].
  repeat split; assumption.
Defined.

(** ** [writeRequest] and the body stream *)

Lemma length_zero_eqb (s : string) :
  (0 <? Z.of_nat (String.length s)) = negb (String.eqb s EmptyString).
Proof. by destruct s. Qed.

Lemma writeRequest_text (req : Request) :
  (writeRequest req).1
  = if String.eqb (req_Body req) EmptyString then requestHead req
    else requestHead req +:+ LF +:+ req_Body req.
Proof.
  unfold writeRequest, readBody, requestHead. rewrite length_zero_eqb.
  destruct (String.eqb (req_Body req) EmptyString); simpl;
    by rewrite !app_assoc.
Qed.

Lemma writeRequest_drains (req : Request) :
  (writeRequest req).2 = with_Body req EmptyString.
Proof.
  unfold writeRequest, readBody.
  by destruct (0 <? Z.of_nat (String.length (req_Body req))).
Qed.

Lemma logRequest_keeps_request (environ : list string) (req : Request) (stdout : string) :
  (logRequest environ req stdout).1 = req.
Proof.
  unfold logRequest, readBody.
  destruct (negb (String.eqb (Getenv environ "LOG_HTTP_BODY") EmptyString)); [|done].
  by destruct req.
Qed.

Lemma concat_lines_ends_LF (lines : list string) :
  Forall (λ line, ∃ p, line = p +:+ LF) lines →
  lines = [] ∨ ∃ p, concat_lines lines = p +:+ LF.
Proof.
  induction 1 as [|line lines [p ->] _ IH]; [by left|]. right.
  destruct IH as [->|[q Hq]].
  - exists p. unfold concat_lines; simpl. by rewrite app_nil_r.
  - exists (p +:+ LF +:+ q). unfold concat_lines in *; simpl.
    by rewrite Hq, !app_assoc.
Qed.

Lemma printHeaders_ranged_ends_LF (keys : list string) (h : Header) :
  printHeaders_ranged keys h = EmptyString
  ∨ ∃ p, printHeaders_ranged keys h = p +:+ LF.
Proof.
  unfold printHeaders_ranged.
  destruct (concat_lines_ends_LF
              (Strings.sort_Strings keys ≫= λ key, header_lines key (default [] (h !! key))))
    as [->|?]; [|by left|by right].
  apply Forall_forall. intros line Hin.
  apply list_elem_of_bind in Hin as (key & Hin & _).
  unfold header_lines in Hin. apply list_elem_of_fmap in Hin as (value & -> & _).
  exists (key +:+ ": " +:+ value). by rewrite !app_assoc.
Qed.

Lemma requestHead_ends_LF (req : Request) : ∃ p, requestHead req = p +:+ LF.
Proof.
  unfold requestHead, printHeaders.
  destruct (printHeaders_ranged_ends_LF (range_keys (req_Header req)) (req_Header req))
    as [->|[p ->]].
  - eexists. rewrite app_nil_r. rewrite <- !app_assoc. reflexivity.
  - eexists. rewrite <- !app_assoc. reflexivity.
Qed.

(** C2, counterexample: rendering does not leave the body readable; after
    [writeRequest] the body stream of this request is at its end. *)
Lemma writeRequest_consumes_body :
  req_Body (writeRequest (sampleRequest "POST" "/api/data" ∅ "hello")).2
  ≠ req_Body (sampleRequest "POST" "/api/data" ∅ "hello").
Proof. by vm_compute. Qed.

(** C2, amended: the renderer's output is the head (request line, blank
    line, [Host] line, sorted headers, ending in a line feed) followed, for
    a non-empty body only, by a blank line and the body bytes exactly; the
    renderer reads the body stream to its end and puts nothing in its
    place.  It is the handler's [LOG_HTTP_BODY] dump, before rendering,
    that replaces the body it consumed by a buffered copy, so the request
    is the same after logging and the rendering still shows the body. *)
Theorem writeRequest_body_section :
  (∀ req,
     (writeRequest req).1
     = if String.eqb (req_Body req) EmptyString then requestHead req
       else requestHead req +:+ LF +:+ req_Body req)
  ∧ (∀ req, ∃ p, requestHead req = p +:+ LF)
  ∧ (∀ req, (writeRequest req).2 = with_Body req EmptyString)
  ∧ (∀ environ req stdout, (logRequest environ req stdout).1 = req)
  ∧ (∀ environ req stdout,
       (writeRequest (logRequest environ req stdout).1).1 = (writeRequest req).1).
Proof.
  split; [apply writeRequest_text|]. split; [apply requestHead_ends_LF|].
  split; [apply writeRequest_drains|]. split; [apply logRequest_keeps_request|].
  intros. by rewrite logRequest_keeps_request.
Qed.

(** ** [printHeaders]: sorted, stable, independent of the arrival order *)

Lemma sort_Strings_unique (l sorted : list string) :
  sorted ≡ₚ l → Sorted String.le sorted → Strings.sort_Strings l = sorted.
Proof.
  intros Hperm Hsorted. unfold Strings.sort_Strings.
  apply (Sorted_unique String.le); [apply Sorted_merge_sort, _|done|].
  by rewrite merge_sort_Permutation.
Qed.

Lemma sort_Strings_Permutation (l1 l2 : list string) :
  l1 ≡ₚ l2 → Strings.sort_Strings l1 = Strings.sort_Strings l2.
Proof.
  intros Hperm. apply sort_Strings_unique.
  - unfold Strings.sort_Strings. by rewrite merge_sort_Permutation.
  - apply Sorted_merge_sort, _.
Qed.

Lemma StronglySorted_strict (l : list string) :
  NoDup l → StronglySorted String.le l → StronglySorted string_lt l.
Proof.
  intros Hnd Hs. induction Hs as [|x l _ IH Hall]; [constructor|].
  apply NoDup_cons in Hnd as [Hx Hnd]. constructor; [by apply IH|].
  rewrite Forall_forall in Hall |- *. intros y Hy. split; [by apply Hall|].
  intros ->. done.
Qed.

Lemma sort_Strings_strict (l : list string) :
  NoDup l → StronglySorted string_lt (Strings.sort_Strings l).
Proof.
  intros Hnd. apply StronglySorted_strict.
  - unfold Strings.sort_Strings. by rewrite merge_sort_Permutation.
  - apply StronglySorted_merge_sort; apply _.
Qed.

Lemma printHeaders_any_order (h : Header) (keys : list string) :
  keys ≡ₚ range_keys h → printHeaders_ranged keys h = printHeaders h.
Proof.
  intros Hperm. unfold printHeaders, printHeaders_ranged.
  by rewrite (sort_Strings_Permutation _ _ Hperm).
Qed.

Lemma arrival_values_cons (key v k : string) (lines : list (string * string)) :
  arrival_values k ((key, v) :: lines)
  = if decide (CanonicalMIMEHeaderKey key = k) then v :: arrival_values k lines
    else arrival_values k lines.
Proof.
  unfold arrival_values. rewrite filter_cons. simpl.
  by destruct (decide (CanonicalMIMEHeaderKey key = k)).
Qed.

Lemma foldl_Add_lookup (lines : list (string * string)) (h : Header) (k : string) :
  foldl (λ h kv, Add h kv.1 kv.2) h lines !! k
  = match arrival_values k lines with
    | [] => h !! k
    | vs => Some (default [] (h !! k) ++ vs)
    end.
Proof.
  revert h. induction lines as [|[key v] lines IH]; intros h; [done|].
  rewrite arrival_values_cons. simpl foldl. rewrite IH. unfold Add.
  destruct (decide (CanonicalMIMEHeaderKey key = k)) as [->|Hne].
  - rewrite lookup_insert_eq.
    destruct (arrival_values k lines) as [|v' vs]; [done|].
    simpl. by rewrite <- (assoc_L (++)).
  - by rewrite lookup_insert_ne.
Qed.

Lemma readHeader_lookup (lines : list (string * string)) (k : string) :
  readHeader lines !! k
  = match arrival_values k lines with [] => None | vs => Some vs end.
Proof. unfold readHeader. rewrite foldl_Add_lookup. by rewrite lookup_empty. Qed.

Lemma readHeader_values (lines : list (string * string)) (k : string) :
  default [] (readHeader lines !! k) = arrival_values k lines.
Proof. rewrite readHeader_lookup. by destruct (arrival_values k lines). Qed.

Lemma readHeader_ext (l1 l2 : list (string * string)) :
  (∀ k, arrival_values k l1 = arrival_values k l2) → readHeader l1 = readHeader l2.
Proof. intros H. apply map_eq. intros k. by rewrite !readHeader_lookup, H. Qed.

Lemma filter_key_short {A B} `{EqDecision B} (f : A → B) (k : B) (l : list A) :
  NoDup (f <$> l) → (length (filter (λ x, f x = k) l) ≤ 1)%nat.
Proof.
  induction l as [|x l IH]; [simpl; lia|]. rewrite fmap_cons, NoDup_cons.
  intros [Hx Hnd]. rewrite filter_cons. destruct (decide (f x = k)) as [<-|]; [|auto].
  simpl. assert (filter (λ y, f y = f x) l = []) as ->; [|simpl; lia].
  destruct (filter (λ y, f y = f x) l) as [|y ys] eqn:E; [done|].
  assert (y ∈ filter (λ y, f y = f x) l) as Hy by (rewrite E; left).
  apply list_elem_of_filter in Hy as [Hfy Hin].
  destruct Hx. rewrite <- Hfy. by apply list_elem_of_fmap_2.
Qed.

Lemma Permutation_short {A} (l1 l2 : list A) :
  l1 ≡ₚ l2 → (length l1 ≤ 1)%nat → l1 = l2.
Proof.
  intros Hperm Hlen. pose proof (Permutation_length Hperm) as Hl.
  destruct l1 as [|x [|??]], l2 as [|y [|??]]; simpl in *; try lia; [done|].
  f_equal. by apply Permutation_singleton_inj.
Qed.

Lemma arrival_values_Permutation (l1 l2 : list (string * string)) (k : string) :
  l1 ≡ₚ l2 → NoDup ((λ kv, CanonicalMIMEHeaderKey kv.1) <$> l1) →
  arrival_values k l1 = arrival_values k l2.
Proof.
  intros Hperm Hnd. unfold arrival_values. f_equal.
  apply Permutation_short; [by apply filter_Permutation|].
  by apply (filter_key_short (λ kv : string * string, CanonicalMIMEHeaderKey kv.1)).
Qed.

Lemma arrival_values_nonempty (name : string) (lines : list (string * string)) :
  arrival_values name lines ≠ []
  ↔ ∃ kv, kv ∈ lines ∧ CanonicalMIMEHeaderKey kv.1 = name.
Proof.
  unfold arrival_values. split.
  - intros Hne.
    destruct (filter (λ kv, CanonicalMIMEHeaderKey kv.1 = name) lines) as [|kv rest] eqn:E;
      [done|].
    assert (kv ∈ filter (λ kv, CanonicalMIMEHeaderKey kv.1 = name) lines) as Hin
      by (rewrite E; left).
    apply list_elem_of_filter in Hin as [Hk Hin]. by exists kv.
  - intros (kv & Hin & Hk) Hnil.
    assert (kv ∈ filter (λ kv, CanonicalMIMEHeaderKey kv.1 = name) lines) as Hf
      by (by apply list_elem_of_filter).
    apply (list_elem_of_fmap_2 snd) in Hf. rewrite Hnil in Hf.
    by apply elem_of_nil in Hf.
Qed.

Lemma bind_ext_strings {A} (f g : A → list string) (l : list A) :
  (∀ x, f x = g x) → l ≫= f = l ≫= g.
Proof.
  intros H. induction l as [|x l IH]; [done|].
  by rewrite !bind_cons, H, IH.
Qed.

(** C4, counterexample: the two arrival orders are permutations of each
    other, yet the rendered header blocks differ, since the values of the
    repeated name keep their arrival order. *)
Lemma printHeaders_permutation_changes_output :
  [("A", "1"); ("A", "2")] ≡ₚ [("A", "2"); ("A", "1")]
  ∧ printHeaders (readHeader [("A", "1"); ("A", "2")])
    ≠ printHeaders (readHeader [("A", "2"); ("A", "1")]).
Proof. split; [apply perm_swap|by vm_compute]. Qed.

(** C4, amended: the header block is, for the header names in strictly
    increasing byte-wise order, each name once, the lines ["name: value"]
    of the values of that name in their arrival order.  The output is the
    same for every order in which the map yields its names, and for every
    order in which the header lines arrive that keeps the values of each
    name in their order: every permutation when no name repeats. *)
Theorem printHeaders_sorted_stable :
  (∀ h : Header, ∃ names,
       names ≡ₚ range_keys h ∧ StronglySorted string_lt names
       ∧ printHeaders h
         = foldr String.app EmptyString
             (names ≫= λ name,
                (λ value, name +:+ ": " +:+ value +:+ LF) <$> default [] (h !! name)))
  ∧ (∀ lines, ∃ names,
       StronglySorted string_lt names
       ∧ (∀ name, name ∈ names ↔ ∃ kv, kv ∈ lines ∧ CanonicalMIMEHeaderKey kv.1 = name)
       ∧ printHeaders (readHeader lines)
         = foldr String.app EmptyString
             (names ≫= λ name,
                (λ value, name +:+ ": " +:+ value +:+ LF) <$> arrival_values name lines))
  ∧ (∀ (h : Header) keys,
       keys ≡ₚ range_keys h → printHeaders_ranged keys h = printHeaders h)
  ∧ (∀ l1 l2,
       (∀ name, arrival_values name l1 = arrival_values name l2) →
       printHeaders (readHeader l1) = printHeaders (readHeader l2))
  ∧ (∀ l1 l2,
       l1 ≡ₚ l2 → NoDup ((λ kv, CanonicalMIMEHeaderKey kv.1) <$> l1) →
       printHeaders (readHeader l1) = printHeaders (readHeader l2)).
Proof.
  assert (∀ h : Header,
            Strings.sort_Strings (range_keys h) ≡ₚ range_keys h
            ∧ StronglySorted string_lt (Strings.sort_Strings (range_keys h))
            ∧ printHeaders h
              = foldr String.app EmptyString
                  (Strings.sort_Strings (range_keys h) ≫= λ name,
                     (λ value, name +:+ ": " +:+ value +:+ LF) <$> default [] (h !! name)))
    as Hblock.
  { intros h. split; [|split; [|done]].
    - unfold Strings.sort_Strings. by rewrite merge_sort_Permutation.
    - apply sort_Strings_strict. apply NoDup_fst_map_to_list. }
  split; [|split; [|split; [|split]]].
  - intros h. exists (Strings.sort_Strings (range_keys h)). apply Hblock.
  - intros lines. destruct (Hblock (readHeader lines)) as (Hperm & Hsorted & Hout).
    exists (Strings.sort_Strings (range_keys (readHeader lines))).
    split; [done|]. split.
    + intros name. rewrite Hperm, <- arrival_values_nonempty.
      unfold range_keys. rewrite list_elem_of_fmap. split.
      * intros ([name' values] & -> & Hin). apply elem_of_map_to_list in Hin.
        cbn [fst]. rewrite readHeader_lookup in Hin.
        destruct (arrival_values name' lines); [discriminate Hin|done].
      * intros Hne. exists (name, arrival_values name lines). split; [done|].
        apply elem_of_map_to_list. rewrite readHeader_lookup.
        by destruct (arrival_values name lines).
    + rewrite Hout. f_equal. apply bind_ext_strings. intros name.
      by rewrite readHeader_values.
  - apply printHeaders_any_order.
  - intros l1 l2 H. by rewrite (readHeader_ext _ _ H).
  - intros l1 l2 Hperm Hnd. rewrite (readHeader_ext l1 l2); [done|].
    intros name. by apply arrival_values_Permutation.
Qed.

Lemma printHeaders_sorted_stable_witness :
  printHeaders_ranged ["X-B"; "Accept"]
    (readHeader [("x-b", "1"); ("accept", "a"); ("X-B", "2")])
  = printHeaders (readHeader [("x-b", "1"); ("accept", "a"); ("X-B", "2")])
  ∧ printHeaders (readHeader [("x-b", "1"); ("accept", "a"); ("X-B", "2")])
    = printHeaders (readHeader [("accept", "a"); ("x-b", "1"); ("X-B", "2")])
  ∧ printHeaders (readHeader [("x-b", "1"); ("accept", "a")])
    = printHeaders (readHeader [("accept", "a"); ("x-b", "1")]).
Proof.
  destruct printHeaders_sorted_stable as (_ & _ & Hrange & Hstable & Hperm).
  split; [|split].
  - apply Hrange. vm_compute. apply perm_swap || reflexivity.
  - apply Hstable. intros name. unfold arrival_values.
    rewrite !filter_cons, !filter_nil. simpl.
    repeat case_decide; simplify_eq; reflexivity.
  - apply Hperm; [apply perm_swap|]. vm_compute.
    apply NoDup_cons. split; [|apply NoDup_singleton].
    intros Hin. apply list_elem_of_singleton in Hin. discriminate Hin.
Defined.

(** The order of the values of one name is kept, so exchanging two values
    of the same name does change the output. *)
Example printHeaders_keeps_value_order :
  printHeaders (readHeader [("A", "1"); ("A", "2")])
  = "A: 1" +:+ LF +:+ "A: 2" +:+ LF
  ∧ printHeaders (readHeader [("A", "2"); ("A", "1")])
    = "A: 2" +:+ LF +:+ "A: 1" +:+ LF
  ∧ printHeaders (readHeader [("b", "1"); ("a", "2"); ("B", "3"); ("Z", "4")])
    = "A: 2" +:+ LF +:+ "B: 1" +:+ LF +:+ "B: 3" +:+ LF +:+ "Z: 4" +:+ LF.
Proof. by vm_compute. Qed.

(** ** The SSE session *)

Lemma pending_Write (w : ResponseWriter) (data : string) :
  rw_pending (Write w data) = rw_pending w +:+ data
  ∧ rw_flushed (Write w data) = rw_flushed w
  ∧ rw_flusher (Write w data) = rw_flusher w.
Proof. unfold Write, WriteHeader. by destruct (rw_wrote w). Qed.

Lemma flushed_Flush (w : ResponseWriter) :
  rw_flushed (Flush w) = rw_flushed w ++ [rw_pending w]
  ∧ rw_pending (Flush w) = EmptyString
  ∧ rw_flusher (Flush w) = rw_flusher w.
Proof. unfold Flush, WriteHeader. by destruct (rw_wrote w). Qed.

Lemma writeSSEField_writes (wr : ResponseWriter) (req : Request) (stdout k v : string) :
  rw_pending (writeSSEField wr req stdout k v).1 = rw_pending wr +:+ sse_field k v
  ∧ rw_flushed (writeSSEField wr req stdout k v).1 = rw_flushed wr
  ∧ rw_flusher (writeSSEField wr req stdout k v).1 = rw_flusher wr.
Proof.
  unfold writeSSEField, sse_field. generalize (Strings.Split v "010") as lines.
  intros lines. revert wr stdout.
  induction lines as [|line lines IH]; intros wr stdout.
  - simpl. by rewrite app_nil_r.
  - simpl. destruct (IH (Write wr (k +:+ ": " +:+ line +:+ LF))
      (stdout +:+ req_RemoteAddr req +:+ " | sse | " +:+ k +:+ ": " +:+ line +:+ LF))
      as (-> & -> & ->).
    destruct (pending_Write wr (k +:+ ": " +:+ line +:+ LF)) as (-> & -> & ->).
    unfold concat_lines. simpl. by rewrite !app_assoc.
Qed.

Lemma writeSSE_writes (wr : ResponseWriter) (req : Request) (stdout : string)
    (id : Z) (event data : string) :
  rw_flushed (writeSSE wr req stdout id event data).1.1
  = rw_flushed wr ++ [rw_pending wr +:+ sse_frame event data (int_wrap (id + 1))]
  ∧ rw_pending (writeSSE wr req stdout id event data).1.1 = EmptyString
  ∧ rw_flusher (writeSSE wr req stdout id event data).1.1 = rw_flusher wr
  ∧ (writeSSE wr req stdout id event data).2 = int_wrap (id + 1).
Proof.
  unfold writeSSE, sse_frame. cbv zeta.
  pose proof (writeSSEField_writes wr req stdout "event" event) as H1.
  destruct (writeSSEField wr req stdout "event" event) as [wr1 out1].
  pose proof (writeSSEField_writes wr1 req out1 "data" data) as H2.
  destruct (writeSSEField wr1 req out1 "data" data) as [wr2 out2].
  pose proof (writeSSEField_writes wr2 req out2 "id" (Strconv.Itoa (int_wrap (id + 1)))) as H3.
  destruct (writeSSEField wr2 req out2 "id" _) as [wr3 out3].
  cbn [fst snd] in *.
  destruct H1 as (P1 & F1 & L1), H2 as (P2 & F2 & L2), H3 as (P3 & F3 & L3).
  destruct (flushed_Flush (Write wr3 LF)) as (-> & -> & ->).
  destruct (pending_Write wr3 LF) as (-> & -> & ->).
  rewrite P3, P2, P1, F3, F2, F1, L3, L2, L1. by rewrite !app_assoc.
Qed.

Lemma int_wrap_small (z : Z) :
  Strconv.minInt ≤ z ≤ Strconv.maxInt → int_wrap z = z.
Proof.
  unfold Strconv.minInt, Strconv.maxInt, int_wrap. intros H.
  rewrite Z.mod_small; lia.
Qed.

Lemma tickLoop_writes (ticks : list string) (wr : ResponseWriter) (req : Request)
    (stdout : string) (id : Z) :
  rw_pending wr = EmptyString → 0 ≤ id →
  id + Z.of_nat (length ticks) ≤ Strconv.maxInt →
  rw_flushed (tickLoop ticks wr req stdout id).1.1
  = rw_flushed wr ++ numbered (id + 1) (("time",.) <$> ticks)
  ∧ rw_pending (tickLoop ticks wr req stdout id).1.1 = EmptyString
  ∧ (tickLoop ticks wr req stdout id).2 = id + Z.of_nat (length ticks).
Proof.
  revert wr stdout id. induction ticks as [|t ticks IH]; intros wr stdout id Hp Hid Hmax.
  - simpl. rewrite (right_id_L [] (++)). split; [done|]. split; [done|]. lia.
  - simpl tickLoop. pose proof (writeSSE_writes wr req stdout id "time" t) as Hw.
    destruct (writeSSE wr req stdout id "time" t) as [[wr1 out1] id1].
    simpl in Hw. destruct Hw as (F1 & P1 & _ & ->).
    rewrite int_wrap_small in * by (unfold Strconv.minInt, Strconv.maxInt in *;
      simpl length in Hmax; lia).
    simpl length in Hmax.
    destruct (IH wr1 out1 (id + 1)) as (-> & -> & ->); [done|lia|lia|].
    rewrite F1, Hp. simpl. rewrite <- (assoc_L (++)). simpl.
    split; [done|]. split; [done|]. lia.
Qed.

Lemma numbered_lookup (events : list (string * string)) (first : Z) (i : nat)
    (event data : string) :
  events !! i = Some (event, data) →
  numbered first events !! i = Some (sse_frame event data (first + Z.of_nat i)).
Proof.
  revert first i. induction events as [|[e d] events IH]; intros first i; [done|].
  destruct i as [|i]; simpl.
  - intros [= -> ->]. by rewrite Z.add_0_r.
  - intros H. rewrite (IH _ _ H). do 2 f_equal. lia.
Qed.

Lemma numbered_app (l1 l2 : list (string * string)) (first : Z) :
  numbered first (l1 ++ l2)
  = numbered first l1 ++ numbered (first + Z.of_nat (length l1)) l2.
Proof.
  revert first. induction l1 as [|[e d] l1 IH]; intros first; simpl.
  - by rewrite Z.add_0_r.
  - rewrite IH. do 3 f_equal. lia.
Qed.

Ltac sse_step :=
  match goal with
  | |- context [writeSSE ?w ?r ?o ?i ?e ?d] =>
      let H := fresh "H" in
      pose proof (writeSSE_writes w r o i e d) as H;
      destruct (writeSSE w r o i e d) as [[? ?] ?];
      cbn [fst snd] in H; destruct H as (? & ? & ? & ->)
  end.

Lemma serveSSE_chunks (S : Surroundings) (wr : ResponseWriter) (req : Request)
    (send : bool) (stdout : string) :
  rw_flusher wr = true → rw_pending wr = EmptyString →
  Z.of_nat (length (Ticks S)) + 2 ≤ Strconv.maxInt →
  let events := sse_events S send (writeRequest req).1 in
  rw_flushed (serveSSE S wr req send stdout).1.1.1 = rw_flushed wr ++ numbered 1 events
  ∧ (serveSSE S wr req send stdout).2 = Z.of_nat (length events).
Proof.
  intros Hfl Hp Hmax events. split.
  all: unfold events, sse_events, serveSSE; rewrite Hfl; simpl negb; cbv iota.
  all: destruct (writeRequest req) as [echo req']; cbn [fst snd].
  all: set (wr0 := with_header wr _).
  all: assert (rw_pending wr0 = EmptyString ∧ rw_flushed wr0 = rw_flushed wr) as [Hp0 Hf0]
         by done.
  all: unfold Strconv.maxInt in Hmax.
  all: destruct send; [destruct (Hostname S) as [host|err]|]; cbv zeta.
  all: repeat sse_step.
  all: change (int_wrap (0 + 1)) with 1 in *; change (int_wrap (1 + 1)) with 2 in *.
  all: match goal with
       | |- context [tickLoop ?t ?w ?r ?o ?i] =>
           let H := fresh "H" in
           pose proof (tickLoop_writes t w r o i) as H;
           destruct (tickLoop t w r o i) as [[? ?] ?];
           cbn [fst snd] in H;
           destruct H as (? & ? & ->);
           [done | lia | unfold Strconv.maxInt; lia |]
       end.
  all: cbn [fst snd]; rewrite ?length_app, ?length_cons, ?length_fmap; simpl length;
       try lia.
  all: repeat match goal with H : rw_flushed _ = _ |- _ => rewrite H; clear H end.
  all: repeat match goal with H : rw_pending _ = _ |- _ => rewrite ?H; clear H end.
  all: rewrite ?Hf0; simpl; rewrite <- ?(assoc_L (++)); simpl; done.
Qed.

(** C5: in a session (the writer can flush, nothing is pending, and the
    event count stays within the range of [int]), the chunks flushed are
    the events of the session, one chunk each, numbered 1, 2, 3, ... : the
    counter starts at 0 and is incremented before each event is written,
    and ends at the number of events.  The events are one [server] event
    (only when disclosure is enabled and the lookup succeeds), then exactly
    one [request] event holding the rendered request, then the [time]
    events, one per tick. *)
Theorem serveSSE_event_ids (S : Surroundings) (wr : ResponseWriter) (req : Request)
    (send : bool) (stdout : string) :
  rw_flusher wr = true → rw_pending wr = EmptyString →
  Z.of_nat (length (Ticks S)) + 2 ≤ Strconv.maxInt →
  let events := sse_events S send (writeRequest req).1 in
  rw_flushed (serveSSE S wr req send stdout).1.1.1 = rw_flushed wr ++ numbered 1 events
  ∧ (serveSSE S wr req send stdout).2 = Z.of_nat (length events)
  ∧ (∀ i event data,
       events !! i = Some (event, data) →
       numbered 1 events !! i = Some (sse_frame event data (1 + Z.of_nat i)))
  ∧ events
    = match send, Hostname S with
      | true, HostnameOk host => [("server", host)]
      | _, _ => []
      end
      ++ ("request", (writeRequest req).1) :: (("time",.) <$> Ticks S).
Proof.
  intros Hfl Hp Hmax events.
  destruct (serveSSE_chunks S wr req send stdout Hfl Hp Hmax) as [Hchunks Hid].
  split; [exact Hchunks|]. split; [exact Hid|]. split.
  - intros i event data Hi. by apply numbered_lookup.
  - unfold events, sse_events. by destruct send, (Hostname S).
Qed.

Lemma serveSSE_event_ids_witness :
  rw_flushed
    (serveSSE (sampleSurroundings [] (HostnameOk "echo-1") noHandshake ["2026-01-01T00:00:00Z"])
       (newResponseWriter true) (sampleRequest "GET" "/events/.sse" ∅ "") true "").1.1.1
  = [] ++ numbered 1
            (sse_events
               (sampleSurroundings [] (HostnameOk "echo-1") noHandshake ["2026-01-01T00:00:00Z"])
               true (writeRequest (sampleRequest "GET" "/events/.sse" ∅ "")).1).
Proof.
  refine (proj1 (serveSSE_event_ids
           (sampleSurroundings [] (HostnameOk "echo-1") noHandshake ["2026-01-01T00:00:00Z"])
           (newResponseWriter true) (sampleRequest "GET" "/events/.sse" ∅ "") true ""
           eq_refl eq_refl _)).
  vm_compute. intros H. discriminate H.
Defined.

Example serveSSE_session :
  rw_flushed
    (serveSSE (sampleSurroundings [] (HostnameOk "echo-1") noHandshake ["T1"; "T2"])
       (newResponseWriter true) (sampleRequest "GET" "/.sse" ∅ "") true "").1.1.1
  = [ "event: server" +:+ LF +:+ "data: echo-1" +:+ LF +:+ "id: 1" +:+ LF +:+ LF;
      "event: request" +:+ LF +:+ "data: GET /.sse HTTP/1.1" +:+ LF +:+ "data: " +:+ LF
        +:+ "data: Host: localhost:8080" +:+ LF +:+ "data: " +:+ LF
        +:+ "id: 2" +:+ LF +:+ LF;
      "event: time" +:+ LF +:+ "data: T1" +:+ LF +:+ "id: 3" +:+ LF +:+ LF;
      "event: time" +:+ LF +:+ "data: T2" +:+ LF +:+ "id: 4" +:+ LF +:+ LF ].
Proof. by vm_compute. Qed.

(** ** The WebSocket session *)

Import Websocket.

Lemma WriteMessage_ok (c : Conn) (messageType : Z) (data : string) :
  conn_writes c ≠ Some 0%nat →
  ∃ c', WriteMessage c messageType data = (c', None)
        ∧ conn_out c' = conn_out c ++ [(messageType, data)]
        ∧ conn_in c' = conn_in c.
Proof.
  intros Hw. unfold WriteMessage. destruct (conn_writes c) as [[|n]|]; [done| |];
    eexists; (split; [reflexivity|]); done.
Qed.

Lemma WriteMessage_out (c : Conn) (messageType : Z) (data : string) :
  conn_out (WriteMessage c messageType data).1 = conn_out c
  ∨ conn_out (WriteMessage c messageType data).1 = conn_out c ++ [(messageType, data)].
Proof.
  unfold WriteMessage. destruct (conn_writes c) as [[|n]|]; simpl; auto.
Qed.

(** The loop writes back the messages it reads, same type and payload, in
    order, up to the first failure. *)
Lemma echoLoop_out (remote : string) (incoming : list (Z * string)) (c : Conn)
    (stdout : string) :
  ∃ n, conn_out (echoLoop remote incoming c stdout).1.1 = conn_out c ++ take n incoming.
Proof.
  revert c stdout. induction incoming as [|[ty msg] incoming IH]; intros c stdout.
  - exists 0%nat. simpl. by rewrite (right_id_L [] (++)).
  - simpl. set (out' := if ty =? TextMessage then _ else _).
    unfold WriteMessage. destruct (conn_writes c) as [[|n]|].
    + exists 0%nat. simpl. by rewrite (right_id_L [] (++)).
    + destruct (IH (sent c (Some n) (conn_out c ++ [(ty, msg)])) out') as [k Hk].
      exists (S k). rewrite Hk. simpl. by rewrite <- (assoc_L (++)).
    + destruct (IH (sent c None (conn_out c ++ [(ty, msg)])) out') as [k Hk].
      exists (S k). rewrite Hk. simpl. by rewrite <- (assoc_L (++)).
Qed.

(** What an upgraded session writes: first one text message, the identity
    text when disclosure is enabled and the empty payload when it is not,
    then the echoes. *)
Lemma serveWebSocket_out (S : Surroundings) (wr : ResponseWriter) (req : Request)
    (send : bool) (stdout : string) (peer : Conn) :
  Handshake S = UpgradeOk peer → conn_writes peer ≠ Some 0%nat →
  ∃ c n,
    (serveWebSocket S wr req send stdout).1.2 = Some c
    ∧ conn_out c
      = conn_out peer
        ++ (TextMessage, if send then identity S else EmptyString) :: take n (conn_in peer).
Proof.
  intros Hup Hw. unfold serveWebSocket, Upgrade. rewrite Hup.
  set (c0 := {| conn_in := conn_in peer; conn_handshake := ∅ |}).
  set (message := if send then _ else _).
  assert (message = if send then identity S else EmptyString) as ->.
  { unfold message, identity. by destruct send. }
  destruct (WriteMessage_ok c0 TextMessage (if send then identity S else EmptyString))
    as (c1 & -> & Hout & Hin); [done|].
  rewrite Hin.
  destruct (echoLoop_out (req_RemoteAddr req) (conn_in c0) c1
              (stdout +:+ req_RemoteAddr req +:+ " | upgraded to websocket" +:+ LF))
    as [n Hn].
  destruct (echoLoop _ _ _ _) as [[c2 out2] err]. simpl in Hn.
  exists c2, n. split; [done|]. rewrite Hn, Hout. simpl.
  by rewrite <- (assoc_L (++)).
Qed.

(** Without an upgrade there is no connection and no message. *)
Lemma serveWebSocket_refused (S : Surroundings) (wr : ResponseWriter) (req : Request)
    (send : bool) (stdout err : string) (reply : option (Z * string)) :
  Handshake S = UpgradeError err reply →
  (serveWebSocket S wr req send stdout).1.2 = None.
Proof.
  intros Hup. unfold serveWebSocket, Upgrade. rewrite Hup.
  by destruct reply as [[??]|].
Qed.

Lemma serveWebSocket_first_write_fails (S : Surroundings) (wr : ResponseWriter)
    (req : Request) (send : bool) (stdout : string) (peer : Conn) :
  Handshake S = UpgradeOk peer → conn_writes peer = Some 0%nat →
  ∃ c, (serveWebSocket S wr req send stdout).1.2 = Some c ∧ conn_out c = conn_out peer.
Proof.
  intros Hup Hw. unfold serveWebSocket, Upgrade, WriteMessage. rewrite Hup. simpl.
  rewrite Hw. by eexists.
Qed.

(** C1: once the connection is upgraded and the first write succeeds, the
    session writes exactly one text message before any echo: the identity
    string or the failure placeholder when disclosure is enabled, and a
    text message with an empty payload when it is disabled, where the
    specification has no frame at all.  When the first write fails nothing
    is sent, and without an upgrade there is no session. *)
Theorem serveWebSocket_first_message (S : Surroundings) (wr : ResponseWriter)
    (req : Request) (send : bool) (stdout : string) :
  (∀ peer,
     Handshake S = UpgradeOk peer → conn_writes peer ≠ Some 0%nat →
     ∃ c n,
       (serveWebSocket S wr req send stdout).1.2 = Some c
       ∧ conn_out c
         = conn_out peer
           ++ (TextMessage, if send then identity S else EmptyString)
              :: take n (conn_in peer))
  ∧ (∀ peer,
       Handshake S = UpgradeOk peer → conn_writes peer = Some 0%nat →
       ∃ c, (serveWebSocket S wr req send stdout).1.2 = Some c
            ∧ conn_out c = conn_out peer)
  ∧ (∀ err reply,
       Handshake S = UpgradeError err reply →
       (serveWebSocket S wr req send stdout).1.2 = None).
Proof.
  split; [|split].
  - intros peer Hup Hw. by apply serveWebSocket_out.
  - intros peer Hup Hw. by apply serveWebSocket_first_write_fails.
  - intros err reply Hup. by apply (serveWebSocket_refused S wr req send stdout err reply).
Qed.

Lemma serveWebSocket_first_message_witness :
  ∃ c n,
    (serveWebSocket (sampleSurroundings [] (HostnameOk "echo-1") (UpgradeOk samplePeer) [])
       (newResponseWriter true) (sampleRequest "GET" "/ws" ∅ "") false "").1.2 = Some c
    ∧ conn_out c
      = conn_out samplePeer ++ (TextMessage, EmptyString) :: take n (conn_in samplePeer).
Proof.
  apply (proj1 (serveWebSocket_first_message
           (sampleSurroundings [] (HostnameOk "echo-1") (UpgradeOk samplePeer) [])
           (newResponseWriter true) (sampleRequest "GET" "/ws" ∅ "") false "") samplePeer);
    [reflexivity | discriminate].
Defined.

(** C1 at the failing input: disclosure disabled, a peer sending two
    messages.  The first message the server writes is an empty text
    frame. *)
Example serveWebSocket_disabled_sends_empty_frame :
  conn_out <$>
    (serveWebSocket (sampleSurroundings [] (HostnameOk "echo-1") (UpgradeOk samplePeer) [])
       (newResponseWriter true) (sampleRequest "GET" "/ws" ∅ "") false "").1.2
  = Some [(TextMessage, ""); (TextMessage, "hello"); (BinaryMessage, "bin")].
Proof. by vm_compute. Qed.

(** ** The plain reply *)

Lemma body_with_header (w : ResponseWriter) (h : Header) :
  body (with_header w h) = body w.
Proof. done. Qed.

Lemma serveHTTP_body (S : Surroundings) (wr : ResponseWriter) (req : Request)
    (send : bool) :
  body (serveHTTP S wr req send).1
  = body wr +:+ (if send then identity S +:+ LF +:+ LF else EmptyString)
      +:+ (writeRequest req).1
  ∧ (serveHTTP S wr req send).2 = (writeRequest req).2.
Proof.
  unfold serveHTTP, identity. destruct (writeRequest req) as [text req'].
  destruct send; [destruct (Hostname S)|]; simpl fst; simpl snd;
    rewrite ?body_Write, ?body_WriteHeader, ?body_with_header, ?app_assoc; done.
Qed.

Lemma wrote_with_header (w : ResponseWriter) (h : Header) :
  rw_wrote (with_header w h) = rw_wrote w.
Proof. done. Qed.

Lemma serveHTTP_header (S : Surroundings) (wr : ResponseWriter) (req : Request)
    (send : bool) :
  rw_wrote wr = None →
  rw_wrote (serveHTTP S wr req send).1
  = Some (200, Add (rw_header wr) "Content-Type" "text/plain").
Proof.
  intros Hw. unfold serveHTTP. destruct (writeRequest req) as [text req'].
  set (wr1 := WriteHeader (with_header wr _) 200).
  assert (rw_wrote wr1 = Some (200, Add (rw_header wr) "Content-Type" "text/plain")) as H1.
  { unfold wr1. by rewrite wrote_WriteHeader_fresh. }
  destruct send; [destruct (Hostname S)|]; simpl fst;
    repeat (erewrite wrote_Write_after; [|try exact H1]); try done.
  all: by erewrite wrote_Write_after.
Qed.

Lemma Add_values (h : Header) (key value : string) :
  value ∈ default [] (Add h key value !! CanonicalMIMEHeaderKey key).
Proof.
  unfold Add. rewrite lookup_insert_eq. simpl. apply elem_of_app. right. by left.
Qed.

(** ** A failing host name lookup *)

(** C3, counterexample, on the SSE path: with disclosure enabled and a
    failing lookup the stream starts with the [request] event, numbered 1,
    and no event or text about the host is sent. *)
Lemma serveSSE_lookup_failure_sends_no_identity :
  rw_flushed
    (serveSSE (sampleSurroundings [] (HostnameErr "no such host") noHandshake ["T1"])
       (newResponseWriter true) (sampleRequest "GET" "/.sse" ∅ "") true "").1.1.1
  = [ sse_frame "request" (writeRequest (sampleRequest "GET" "/.sse" ∅ "")).1 1;
      sse_frame "time" "T1" 2 ]
  ∧ contains
      (body (serveSSE (sampleSurroundings [] (HostnameErr "no such host") noHandshake ["T1"])
               (newResponseWriter true) (sampleRequest "GET" "/.sse" ∅ "") true "").1.1.1)
      "hostname unknown" = false
  ∧ contains
      (body (serveSSE (sampleSurroundings [] (HostnameErr "no such host") noHandshake ["T1"])
               (newResponseWriter true) (sampleRequest "GET" "/.sse" ∅ "") true "").1.1.1)
      "no such host" = false.
Proof. by vm_compute. Qed.

(** C3, amended: with disclosure enabled and a failing lookup, the plain
    HTTP reply starts with the placeholder line holding the error text, and
    the WebSocket session's first message is the placeholder; the SSE
    session sends no [server] event and nothing in its place: its events
    are the [request] event and the [time] events, numbered from 1. *)
Theorem hostname_failure_placeholder (S : Surroundings) (err : string) :
  Hostname S = HostnameErr err →
  (∀ wr req,
     body (serveHTTP S wr req true).1
     = body wr +:+ "Server hostname unknown: " +:+ err +:+ LF +:+ LF
         +:+ (writeRequest req).1)
  ∧ (∀ wr req stdout peer,
       Handshake S = UpgradeOk peer → conn_writes peer ≠ Some 0%nat →
       ∃ c n,
         (serveWebSocket S wr req true stdout).1.2 = Some c
         ∧ conn_out c
           = conn_out peer
             ++ (TextMessage, "Server hostname unknown: " +:+ err) :: take n (conn_in peer))
  ∧ (∀ wr req stdout,
       rw_flusher wr = true → rw_pending wr = EmptyString →
       Z.of_nat (length (Ticks S)) + 2 ≤ Strconv.maxInt →
       rw_flushed (serveSSE S wr req true stdout).1.1.1
       = rw_flushed wr
         ++ numbered 1 (("request", (writeRequest req).1) :: (("time",.) <$> Ticks S))).
Proof.
  intros Herr. split; [|split].
  - intros wr req. destruct (serveHTTP_body S wr req true) as [-> _].
    unfold identity. rewrite Herr. by rewrite !app_assoc.
  - intros wr req stdout peer Hup Hw.
    destruct (serveWebSocket_out S wr req true stdout peer Hup Hw) as (c & n & Hc & Hout).
    exists c, n. split; [done|]. rewrite Hout. unfold identity. by rewrite Herr.
  - intros wr req stdout Hfl Hp Hmax.
    destruct (serveSSE_chunks S wr req true stdout Hfl Hp Hmax) as [-> _].
    unfold sse_events. by rewrite Herr.
Qed.

Lemma hostname_failure_placeholder_witness :
  body (serveHTTP (sampleSurroundings [] (HostnameErr "no such host") noHandshake [])
          (newResponseWriter true) (sampleRequest "GET" "/test" ∅ "") true).1
  = body (newResponseWriter true) +:+ "Server hostname unknown: " +:+ "no such host"
      +:+ LF +:+ LF +:+ (writeRequest (sampleRequest "GET" "/test" ∅ "")).1.
Proof.
  apply (hostname_failure_placeholder
           (sampleSurroundings [] (HostnameErr "no such host") noHandshake [])
           "no such host" eq_refl).
Defined.

(** ** The dispatcher *)

Lemma sendHeaders_lookup (environ : list string) (h : Header) :
  wellFormed environ →
  ∃ h', sendHeaders environ h = Some h'
        ∧ ∀ k, h' !! k = match lastSendHeader environ k with
                         | Some v => Some [v]
                         | None => h !! k
                         end.
Proof.
  intros Hwf. revert h. induction Hwf as [|line rest [[key value] Hcut] _ IH]; intros h.
  - by exists h.
  - simpl. unfold Strings.SplitN2, sendHeaderOf. rewrite Hcut.
    destruct (Strings.CutPrefix key "SEND_HEADER_") as [name|].
    + destruct (IH (Set_ h (Strings.ReplaceAll name "_" "-") value)) as (h' & -> & Hh').
      exists h'. split; [done|]. intros k. rewrite Hh'.
      destruct (lastSendHeader rest k); [done|]. unfold Set_.
      destruct (decide (CanonicalMIMEHeaderKey (Strings.ReplaceAll name "_" "-") = k))
        as [->|Hne]; [by rewrite lookup_insert_eq|by rewrite lookup_insert_ne].
    + destruct (IH h) as (h' & -> & Hh'). exists h'. split; [done|].
      intros k. rewrite Hh'. by destruct (lastSendHeader rest k).
Qed.

Lemma handler_unfold (S : Surroundings) (wr : ResponseWriter) (req : Request)
    (stdout : string) (h : Header) :
  sendHeaders (Environ S) (rw_header wr) = Some h →
  handler S wr req stdout
  = Some
      match dispatch S req with
      | ToWebSocket =>
          let '(wr', conn, stdout') :=
            serveWebSocket S (with_header wr h) req (sendServerHostname (Environ S) req)
              (logRequest (Environ S) req stdout).2 in
          {| sv_wr := wr'; sv_req := req; sv_stdout := stdout'; sv_conn := conn |}
      | ToFrontend =>
          {| sv_wr := serveFrontend S (with_header wr h) req; sv_req := req;
             sv_stdout := (logRequest (Environ S) req stdout).2; sv_conn := None |}
      | ToSSE =>
          let '(wr', req', stdout', _) :=
            serveSSE S (with_header wr h) req (sendServerHostname (Environ S) req)
              (logRequest (Environ S) req stdout).2 in
          {| sv_wr := wr'; sv_req := req'; sv_stdout := stdout'; sv_conn := None |}
      | ToHTTP =>
          let '(wr', req') :=
            serveHTTP S (with_header wr h) req (sendServerHostname (Environ S) req) in
          {| sv_wr := wr'; sv_req := req';
             sv_stdout := (logRequest (Environ S) req stdout).2; sv_conn := None |}
      end.
Proof.
  intros Hh. unfold handler.
  pose proof (logRequest_keeps_request (Environ S) req stdout) as Hreq.
  destruct (logRequest (Environ S) req stdout) as [req1 out1]. simpl in Hreq. subst req1.
  by rewrite Hh.
Qed.

(** C8: for a request that reaches the echo dispatcher (the environment
    being well formed, nothing written yet), the first matching rule
    decides: a WebSocket upgrade handshake leads to [serveWebSocket]
    whatever the path; else a path whose base is [.ws] to the UI page; else
    a path whose base is [.sse] to the SSE session; else the plain echo
    replies with status 200, a [Content-Type] of [text/plain], the identity
    line when disclosure is enabled, and the rendered request. *)
Theorem handler_routing (S : Surroundings) (wr : ResponseWriter) (req : Request)
    (stdout : string) :
  wellFormed (Environ S) → rw_wrote wr = None →
  ∃ sv h,
    handler S wr req stdout = Some sv
    ∧ sendHeaders (Environ S) (rw_header wr) = Some h
    ∧ let wr1 := with_header wr h in
      let send := sendServerHostname (Environ S) req in
      let out1 := (logRequest (Environ S) req stdout).2 in
      let base := Path.Base (URL_Path (req_URL req)) in
      (IsWebSocketUpgrade S (req_Header req) = true →
         (sv_wr sv, sv_conn sv, sv_stdout sv) = serveWebSocket S wr1 req send out1)
      ∧ (IsWebSocketUpgrade S (req_Header req) = false → base = ".ws" →
           sv_wr sv = serveFrontend S wr1 req ∧ sv_conn sv = None)
      ∧ (IsWebSocketUpgrade S (req_Header req) = false → base ≠ ".ws" → base = ".sse" →
           (sv_wr sv, sv_req sv, sv_stdout sv) = (serveSSE S wr1 req send out1).1
           ∧ sv_conn sv = None)
      ∧ (IsWebSocketUpgrade S (req_Header req) = false → base ≠ ".ws" → base ≠ ".sse" →
           status (sv_wr sv) = Some 200
           ∧ "text/plain" ∈ sent_values (sv_wr sv) "Content-Type"
           ∧ body (sv_wr sv)
             = body wr +:+ (if send then identity S +:+ LF +:+ LF else EmptyString)
                 +:+ (writeRequest req).1
           ∧ sv_conn sv = None).
Proof.
  intros Hwf Hw.
  destruct (sendHeaders_lookup (Environ S) (rw_header wr) Hwf) as (h & Hh & _).
  eexists _, h. split; [by apply handler_unfold|]. split; [done|].
  cbv zeta. unfold dispatch. split; [|split; [|split]].
  - intros ->. by destruct (serveWebSocket _ _ _ _ _) as [[??]?].
  - intros -> ->. done.
  - intros -> _ ->. simpl.
    by destruct (serveSSE _ _ _ _ _) as [[[??]?]?].
  - intros -> Hws Hsse. apply String.eqb_neq in Hws, Hsse. rewrite Hws, Hsse.
    pose proof (serveHTTP_body S (with_header wr h) req
                  (sendServerHostname (Environ S) req)) as [Hb _].
    pose proof (serveHTTP_header S (with_header wr h) req
                  (sendServerHostname (Environ S) req) Hw) as Hst.
    destruct (serveHTTP _ _ _ _) as [wr' req']. simpl in *.
    split; [|split; [|split]]; [| |done|done].
    + unfold status. by rewrite Hst.
    + unfold sent_values. rewrite Hst.
      apply (Add_values h "Content-Type" "text/plain").
Qed.

Lemma handler_routing_witness :
  ∃ sv h,
    handler (sampleSurroundings ["PORT=8080"] (HostnameOk "echo-1") noHandshake [])
      (newResponseWriter true) (sampleRequest "GET" "/test" ∅ "") "" = Some sv
    ∧ sendHeaders ["PORT=8080"] ∅ = Some h
    ∧ status (sv_wr sv) = Some 200
    ∧ "text/plain" ∈ sent_values (sv_wr sv) "Content-Type".
Proof.
  destruct (handler_routing
              (sampleSurroundings ["PORT=8080"] (HostnameOk "echo-1") noHandshake [])
              (newResponseWriter true) (sampleRequest "GET" "/test" ∅ "") "")
    as (sv & h & Hsv & Hh & _ & _ & _ & Hplain).
  - apply Forall_cons. split; [by eexists|apply Forall_nil_2].
  - reflexivity.
  - exists sv, h. split; [exact Hsv|]. split; [exact Hh|].
    destruct Hplain as (Hst & Hct & _); [reflexivity|by vm_compute|by vm_compute|].
    split; [exact Hst|exact Hct].
Defined.

Example plain_reply :
  (λ sv, (status (sv_wr sv), body (sv_wr sv), req_Body (sv_req sv))) <$>
    handler (sampleSurroundings ["SEND_SERVER_HOSTNAME=true"] (HostnameOk "echo-1")
               noHandshake [])
      (newResponseWriter true)
      (sampleRequest "POST" "/api" (readHeader [("x-b", "1"); ("accept", "a")]) "hi") ""
  = Some (Some 200,
          "Request served by echo-1" +:+ LF +:+ LF
            +:+ "POST /api HTTP/1.1" +:+ LF +:+ LF
            +:+ "Host: localhost:8080" +:+ LF
            +:+ "Accept: a" +:+ LF +:+ "X-B: 1" +:+ LF
            +:+ LF +:+ "hi",
          "").
Proof. by vm_compute. Qed.

(** ** The host name decision *)

Lemma all_bytes_list_complete (c : ascii) : c ∈ all_bytes_list.
Proof.
  unfold all_bytes_list. rewrite <- (ascii_nat_embedding c).
  apply list_elem_of_fmap_2, list_elem_of_In, in_seq.
  pose proof (nat_ascii_bounded c). lia.
Qed.

Lemma byte_pairs (P : ascii → ascii → bool) :
  forallb (λ a, forallb (P a) all_bytes_list) all_bytes_list = true →
  ∀ a b, P a b = true.
Proof.
  intros H a b. rewrite forallb_forall in H.
  specialize (H a (proj1 (list_elem_of_In _ _) (all_bytes_list_complete a))).
  rewrite forallb_forall in H.
  apply H, list_elem_of_In, all_bytes_list_complete.
Qed.

Lemma fold_step_lower (sc tc : ascii) :
  byte sc < 128 → byte tc < 128 →
  (Utf8.RuneSelf <=? Z.lor (byte sc) (byte tc)) = false
  ∧ fold_step sc tc = Ascii.eqb (lower_byte sc) (lower_byte tc).
Proof.
  intros Hs Ht.
  pose proof (byte_pairs
    (λ a b, if (byte a <? 128) && (byte b <? 128)
            then negb (Utf8.RuneSelf <=? Z.lor (byte a) (byte b))
                 && Bool.eqb (fold_step a b) (Ascii.eqb (lower_byte a) (lower_byte b))
            else true)) as H.
  specialize (H ltac:(vm_compute; reflexivity) sc tc). simpl in H.
  apply Z.ltb_lt in Hs, Ht. rewrite Hs, Ht in H. simpl in H.
  apply andb_true_iff in H as [H1 H2].
  split; [by apply negb_true_iff|by apply Bool.eqb_prop].
Qed.

Lemma EqualFold_cons (sc tc : ascii) (s t : string) :
  Strings.EqualFold (String sc s) (String tc t)
  = if Utf8.RuneSelf <=? Z.lor (byte sc) (byte tc)
    then Strings.runes (String.length (String sc s)) (String sc s) (String tc t)
    else if fold_step sc tc then Strings.EqualFold s t else false.
Proof.
  unfold fold_step. simpl Strings.EqualFold.
  destruct (Utf8.RuneSelf <=? Z.lor (byte sc) (byte tc)); [done|].
  by destruct (Ascii.eqb tc sc).
Qed.

Lemma is_ascii_cons (c : ascii) (s : string) :
  is_ascii (String c s) = true ↔ byte c < 128 ∧ is_ascii s = true.
Proof.
  unfold is_ascii. simpl. rewrite andb_true_iff. by rewrite Z.ltb_lt.
Qed.

(** On ASCII strings [EqualFold] is equality of the lower-cased strings. *)
Lemma EqualFold_ascii (s t : string) :
  is_ascii s = true → is_ascii t = true →
  Strings.EqualFold s t = String.eqb (lower s) (lower t).
Proof.
  revert t. induction s as [|sc s IH]; intros [|tc t] Hs Ht; try done.
  apply is_ascii_cons in Hs as [Hsc Hs], Ht as [Htc Ht].
  rewrite EqualFold_cons. destruct (fold_step_lower sc tc Hsc Htc) as [-> ->].
  simpl. destruct (Ascii.eqb (lower_byte sc) (lower_byte tc)); [by apply IH|done].
Qed.

Lemma sendServerHostname_effective (environ : list string) (req : Request) :
  sendServerHostname environ req
  = negb (Strings.EqualFold
            (if String.eqb (Get (req_Header req) "X-Send-Server-Hostname") EmptyString
             then Getenv environ "SEND_SERVER_HOSTNAME"
             else Get (req_Header req) "X-Send-Server-Hostname")
            "false").
Proof.
  unfold sendServerHostname.
  by destruct (String.eqb (Get (req_Header req) "X-Send-Server-Hostname") EmptyString).
Qed.

(** C6, counterexample: a header present with an empty value does not
    take precedence; the variable decides, and disclosure is disabled where
    the specification's wording enables it. *)
Lemma empty_header_value_leaves_environment_in_force :
  sendServerHostname ["SEND_SERVER_HOSTNAME=false"]
    (sampleRequest "GET" "/" {[ "X-Send-Server-Hostname" := [""] ]} "") = false
  ∧ disclosure_as_specified ["SEND_SERVER_HOSTNAME=false"]
      (sampleRequest "GET" "/" {[ "X-Send-Server-Hostname" := [""] ]} "") = true.
Proof. by vm_compute. Qed.

(** C6, amended: the first value of the [X-Send-Server-Hostname] request
    header, when it is not empty, takes precedence over the
    [SEND_SERVER_HOSTNAME] variable; a header that is absent or whose first
    value is empty leaves the variable in force.  Disclosure is disabled
    exactly when the effective value equals ["false"] under
    [strings.EqualFold], which for an ASCII value means that its lower-case
    form is ["false"]; any other value, the empty value of two absent
    sources included, enables it.  Apart from a header present with an
    empty first value, this is the decision as the specification words
    it. *)
Theorem sendServerHostname_decision (environ : list string) (req : Request) :
  let v := Get (req_Header req) "X-Send-Server-Hostname" in
  let effective :=
    if String.eqb v EmptyString then Getenv environ "SEND_SERVER_HOSTNAME" else v in
  sendServerHostname environ req = negb (Strings.EqualFold effective "false")
  ∧ (v ≠ EmptyString →
       sendServerHostname environ req = negb (Strings.EqualFold v "false"))
  ∧ (v = EmptyString → Getenv environ "SEND_SERVER_HOSTNAME" = EmptyString →
       sendServerHostname environ req = true)
  ∧ (is_ascii effective = true →
       (sendServerHostname environ req = false ↔ lower effective = "false"))
  ∧ (v ≠ EmptyString ∨ req_Header req !! "X-Send-Server-Hostname" = None →
       sendServerHostname environ req = disclosure_as_specified environ req).
Proof.
  cbv zeta. split; [apply sendServerHostname_effective|].
  split; [|split; [|split]].
  - intros Hv. rewrite sendServerHostname_effective.
    apply String.eqb_neq in Hv. by rewrite Hv.
  - intros Hv He. rewrite sendServerHostname_effective, Hv, He. done.
  - intros Ha. rewrite sendServerHostname_effective, negb_false_iff.
    rewrite EqualFold_ascii by done. apply String.eqb_eq.
  - intros Hcase. rewrite sendServerHostname_effective. unfold disclosure_as_specified.
    unfold Get in *.
    change (CanonicalMIMEHeaderKey "X-Send-Server-Hostname") with "X-Send-Server-Hostname" in *.
    destruct (req_Header req !! "X-Send-Server-Hostname") as [[|v0 vs]|];
      [reflexivity| |reflexivity].
    destruct Hcase as [Hv|Habsent]; [|discriminate Habsent].
    apply String.eqb_neq in Hv. by rewrite Hv.
Qed.

Lemma sendServerHostname_decision_witness :
  sendServerHostname ["SEND_SERVER_HOSTNAME=true"]
    (sampleRequest "GET" "/" {[ "X-Send-Server-Hostname" := ["FALSE"] ]} "")
  = negb (Strings.EqualFold "FALSE" "false")
  ∧ sendServerHostname [] (sampleRequest "GET" "/" ∅ "") = true
  ∧ (sendServerHostname ["SEND_SERVER_HOSTNAME=False"] (sampleRequest "GET" "/" ∅ "") = false
     ↔ lower "False" = "false").
Proof.
  split; [|split].
  - refine (proj1 (proj2 (sendServerHostname_decision ["SEND_SERVER_HOSTNAME=true"]
             (sampleRequest "GET" "/" {[ "X-Send-Server-Hostname" := ["FALSE"] ]} ""))) _).
    vm_compute. intros H. discriminate H.
  - exact (proj1 (proj2 (proj2 (sendServerHostname_decision []
             (sampleRequest "GET" "/" ∅ "")))) eq_refl eq_refl).
  - exact (proj1 (proj2 (proj2 (proj2 (sendServerHostname_decision
             ["SEND_SERVER_HOSTNAME=False"] (sampleRequest "GET" "/" ∅ ""))))) eq_refl).
Defined.

Example sendServerHostname_samples :
  sendServerHostname [] (sampleRequest "GET" "/" (readHeader [("x-send-server-hostname", "false")]) "")
  = false
  ∧ sendServerHostname ["SEND_SERVER_HOSTNAME=false"]
      (sampleRequest "GET" "/" (readHeader [("X-Send-Server-Hostname", "true")]) "") = true
  ∧ sendServerHostname ["SEND_SERVER_HOSTNAME=FALSE"] (sampleRequest "GET" "/" ∅ "") = false
  ∧ sendServerHostname ["SEND_SERVER_HOSTNAME=no"] (sampleRequest "GET" "/" ∅ "") = true
  ∧ sendServerHostname ["SEND_SERVER_HOSTNAME="] (sampleRequest "GET" "/" ∅ "") = true.
Proof. by vm_compute. Qed.

(** ** Response headers from the environment *)

Lemma lastSendHeader_none (after : list string) (k : string) :
  (∀ later v', later ∈ after → sendHeaderOf later ≠ Some (k, v')) →
  lastSendHeader after k = None.
Proof.
  induction after as [|line after IH]; intros H; [done|]. simpl.
  rewrite IH by (intros later v' Hin; apply H; by right).
  destruct (sendHeaderOf line) as [[k' v]|] eqn:E; [|done].
  case_decide; [|done]. subst k'. destruct (H line v); [by left|done].
Qed.

Lemma lastSendHeader_last (before after : list string) (line k v : string) :
  sendHeaderOf line = Some (k, v) →
  (∀ later v', later ∈ after → sendHeaderOf later ≠ Some (k, v')) →
  lastSendHeader (before ++ line :: after) k = Some v.
Proof.
  intros Hline Hafter. induction before as [|b before IH]; simpl.
  - rewrite (lastSendHeader_none after k Hafter), Hline. by rewrite decide_True.
  - by rewrite IH.
Qed.

Lemma committed_Write (w : ResponseWriter) (data : string) :
  committed (Write w data) = committed w ∧ rw_wrote (Write w data) = committed w.
Proof.
  unfold committed, Write, WriteHeader.
  destruct (rw_wrote w) eqn:E; simpl; rewrite ?E; done.
Qed.

Lemma committed_Flush (w : ResponseWriter) :
  committed (Flush w) = committed w ∧ rw_wrote (Flush w) = committed w.
Proof.
  unfold committed, Flush, WriteHeader.
  destruct (rw_wrote w) eqn:E; simpl; rewrite ?E; done.
Qed.

Lemma committed_fresh (w : ResponseWriter) :
  rw_wrote w = None → committed w = Some (200, rw_header w).
Proof. intros H. unfold committed, WriteHeader. by rewrite H. Qed.

Lemma committed_wrote (w : ResponseWriter) (x : Z * Header) :
  rw_wrote w = Some x → committed w = Some x.
Proof. intros H. unfold committed, WriteHeader. by rewrite H. Qed.

Lemma writeSSEField_committed (wr : ResponseWriter) (req : Request) (stdout k v : string) :
  committed (writeSSEField wr req stdout k v).1 = committed wr.
Proof.
  unfold writeSSEField. generalize (Strings.Split v "010") as lines.
  intros lines. revert wr stdout.
  induction lines as [|line lines IH]; intros wr stdout; [done|].
  simpl. rewrite IH. apply committed_Write.
Qed.

Lemma writeSSE_committed (wr : ResponseWriter) (req : Request) (stdout : string)
    (id : Z) (event data : string) :
  rw_wrote (writeSSE wr req stdout id event data).1.1 = committed wr.
Proof.
  unfold writeSSE. cbv zeta.
  pose proof (writeSSEField_committed wr req stdout "event" event) as H1.
  destruct (writeSSEField wr req stdout "event" event) as [wr1 out1].
  pose proof (writeSSEField_committed wr1 req out1 "data" data) as H2.
  destruct (writeSSEField wr1 req out1 "data" data) as [wr2 out2].
  pose proof (writeSSEField_committed wr2 req out2 "id"
                (Strconv.Itoa (int_wrap (id + 1)))) as H3.
  destruct (writeSSEField wr2 req out2 "id" _) as [wr3 out3].
  cbn [fst snd] in *.
  destruct (committed_Flush (Write wr3 LF)) as [_ ->].
  destruct (committed_Write wr3 LF) as [-> _]. by rewrite H3, H2, H1.
Qed.

Lemma tickLoop_wrote (ticks : list string) (wr : ResponseWriter) (req : Request)
    (stdout : string) (id : Z) (x : Z * Header) :
  rw_wrote wr = Some x → rw_wrote (tickLoop ticks wr req stdout id).1.1 = Some x.
Proof.
  revert wr stdout id. induction ticks as [|t ticks IH]; intros wr stdout id Hw; [done|].
  simpl. pose proof (writeSSE_committed wr req stdout id "time" t) as H.
  destruct (writeSSE wr req stdout id "time" t) as [[wr1 out1] id1]. simpl in H.
  apply IH. by rewrite H, (committed_wrote _ _ Hw).
Qed.

(** The headers of an SSE reply: those set before dispatch, with the four
    the session sets itself. *)
Lemma serveSSE_header (S : Surroundings) (wr : ResponseWriter) (req : Request)
    (send : bool) (stdout : string) :
  rw_flusher wr = true → rw_wrote wr = None →
  rw_wrote (serveSSE S wr req send stdout).1.1.1
  = Some (200,
          Set_ (Set_ (Set_ (Set_ (rw_header wr) "Content-Type" "text/event-stream")
                        "Cache-Control" "no-cache")
                  "Connection" "keep-alive")
            "Access-Control-Allow-Origin" "*").
Proof.
  intros Hfl Hw. unfold serveSSE. rewrite Hfl. simpl negb. cbv iota.
  destruct (writeRequest req) as [echo req'].
  set (wr0 := with_header wr _).
  assert (committed wr0 = Some (200, rw_header wr0)) as Hc by (by apply committed_fresh).
  cbv zeta.
  assert (∀ wr1 out1 id1, rw_wrote wr1 = Some (200, rw_header wr0) ∨ wr1 = wr0 →
            rw_wrote (let '(wr2, out2, id2) := writeSSE wr1 req' out1 id1 "request" echo in
                      let '(wr3, out3, id3) := tickLoop (Ticks S) wr2 req' out2 id2 in
                      (wr3, req', out3, id3)).1.1.1
            = Some (200, rw_header wr0)) as Hrest.
  { intros wr1 out1 id1 H1.
    pose proof (writeSSE_committed wr1 req' out1 id1 "request" echo) as H2.
    destruct (writeSSE wr1 req' out1 id1 "request" echo) as [[wr2 out2] id2].
    cbn [fst snd] in H2.
    assert (rw_wrote wr2 = Some (200, rw_header wr0)) as H2'.
    { rewrite H2. destruct H1 as [H1| ->]; [by apply committed_wrote|done]. }
    pose proof (tickLoop_wrote (Ticks S) wr2 req' out2 id2 _ H2') as H3.
    by destruct (tickLoop (Ticks S) wr2 req' out2 id2) as [[wr3 out3] id3]. }
  destruct send; [destruct (Hostname S) as [host|err]|].
  - pose proof (writeSSE_committed wr0 req' stdout 0 "server" host) as H1.
    destruct (writeSSE wr0 req' stdout 0 "server" host) as [[wr1 out1] id1].
    cbn [fst snd] in H1. apply Hrest. left. by rewrite H1.
  - apply Hrest. by right.
  - apply Hrest. by right.
Qed.

Lemma Set_lookup_ne (h : Header) (key value k : string) :
  CanonicalMIMEHeaderKey key ≠ k → Set_ h key value !! k = h !! k.
Proof. intros H. unfold Set_. by rewrite lookup_insert_ne. Qed.

Lemma Add_lookup (h : Header) (key value k : string) (v : string) :
  h !! k = Some [v] → v ∈ default [] (Add h key value !! k).
Proof.
  intros H. unfold Add.
  destruct (decide (CanonicalMIMEHeaderKey key = k)) as [->|Hne].
  - rewrite lookup_insert_eq, H. simpl. by left.
  - rewrite lookup_insert_ne, H by done. simpl. by left.
Qed.

(** The UI page, when the template executes without error, is sent with
    the headers set before dispatch; [Content-Type: text/html] joins them
    only when the template wrote nothing. *)
Lemma serveFrontend_header (S : Surroundings) (wr : ResponseWriter) (req : Request)
    (execute : string → string → string * option string) (k v : string) :
  rw_wrote wr = None → Frontend S = Parsed execute →
  (execute (Getenv (Environ S) "WEBSOCKET_ROOT") (URL_Path (req_URL req))).2 = None →
  rw_header wr !! k = Some [v] →
  v ∈ sent_values (serveFrontend S wr req) k.
Proof.
  intros Hw Hf He Hk. unfold serveFrontend. rewrite Hf.
  destruct (execute _ _) as [text err]. simpl in He. subst err.
  unfold sent_values. destruct text as [|c text].
  - rewrite wrote_WriteHeader_fresh by done. simpl. by apply Add_lookup.
  - set (w1 := Write wr (String c text)).
    assert (rw_wrote w1 = Some (200, rw_header wr)) as H1.
    { unfold w1. destruct (committed_Write wr (String c text)) as [_ ->].
      by apply committed_fresh. }
    rewrite (wrote_WriteHeader_again _ _ _ (eq_trans (wrote_with_header _ _) H1)).
    rewrite wrote_with_header, H1, Hk. simpl. by left.
Qed.

Lemma echoLoop_handshake (remote : string) (incoming : list (Z * string)) (c : Conn)
    (stdout : string) :
  conn_handshake (echoLoop remote incoming c stdout).1.1 = conn_handshake c.
Proof.
  revert c stdout. induction incoming as [|[ty msg] incoming IH]; intros c stdout; [done|].
  simpl. unfold WriteMessage. destruct (conn_writes c) as [[|n]|]; [done| |];
    by rewrite IH.
Qed.

Lemma WriteMessage_handshake (c : Conn) (messageType : Z) (data : string) :
  conn_handshake (WriteMessage c messageType data).1 = conn_handshake c.
Proof. unfold WriteMessage. by destruct (conn_writes c) as [[|n]|]. Qed.

(** The upgrade reply is given the headers passed to [Upgrade], which are
    none, and nothing is written through the response writer. *)
Lemma serveWebSocket_handshake (S : Surroundings) (wr : ResponseWriter) (req : Request)
    (send : bool) (stdout : string) (peer : Conn) :
  Handshake S = UpgradeOk peer → rw_wrote wr = None →
  rw_wrote (serveWebSocket S wr req send stdout).1.1 = None
  ∧ ∃ c, (serveWebSocket S wr req send stdout).1.2 = Some c ∧ conn_handshake c = ∅.
Proof.
  intros Hup Hw. unfold serveWebSocket, Upgrade. rewrite Hup.
  set (c0 := {| conn_in := conn_in peer; conn_handshake := ∅ |}).
  set (message := if send then _ else _).
  pose proof (WriteMessage_handshake c0 TextMessage message) as H1.
  destruct (WriteMessage c0 TextMessage message) as [c1 [err|]]; simpl in H1.
  - split; [done|]. by exists c1.
  - pose proof (echoLoop_handshake (req_RemoteAddr req) (conn_in c1) c1
                  (stdout +:+ req_RemoteAddr req +:+ " | upgraded to websocket" +:+ LF)) as H2.
    destruct (echoLoop _ _ _ _) as [[c2 out2] err]. simpl in H2.
    split; [done|]. exists c2. split; [done|]. by rewrite H2.
Qed.

(** C7, counterexample, on the SSE target: the session sets
    [Cache-Control] itself after the header loop, so the value asked for
    through [SEND_HEADER_CACHE_CONTROL] is not in the response. *)
Lemma serveSSE_replaces_environment_header :
  sendHeaderOf "SEND_HEADER_CACHE_CONTROL=max-age=60" = Some ("Cache-Control", "max-age=60")
  ∧ (λ sv, sent_values (sv_wr sv) "Cache-Control") <$>
      handler (sampleSurroundings ["SEND_HEADER_CACHE_CONTROL=max-age=60"]
                 (HostnameOk "echo-1") noHandshake [])
        (newResponseWriter true) (sampleRequest "GET" "/events/.sse" ∅ "") ""
    = Some ["no-cache"].
Proof. by vm_compute. Qed.

Lemma Del_lookup_ne (h : Header) (key k : string) :
  CanonicalMIMEHeaderKey key ≠ k → Del h key !! k = h !! k.
Proof. intros H. unfold Del. by rewrite lookup_delete_ne. Qed.

(** An error reply carries the headers the writer held, apart from the
    three it sets or removes itself. *)
Lemma Error_sent (w : ResponseWriter) (error : string) (code : Z) (k v : string) :
  rw_wrote w = None → informational code = false → k ∉ errorOwnHeaders →
  rw_header w !! k = Some [v] →
  sent_values (Error w error code) k = [v].
Proof.
  intros Hw Hc Hown Hk. unfold Error.
  set (w1 := with_header _ _).
  assert (rw_wrote w1 = None) as Hw1 by done.
  unfold sent_values.
  rewrite (wrote_Write_after _ _ _ (wrote_WriteHeader_fresh w1 code Hw1 Hc)).
  subst w1. cbn [with_header rw_header]. unfold errorOwnHeaders in Hown.
  rewrite !Set_lookup_ne, Del_lookup_ne, Hk; [done|..];
    intros <-; apply Hown; vm_compute; set_solver.
Qed.

Lemma Error_status (w : ResponseWriter) (error : string) (code : Z) :
  rw_wrote w = None → informational code = false →
  status (Error w error code) = Some code.
Proof.
  intros Hw Hc. unfold status, Error.
  set (w1 := with_header _ _).
  assert (rw_wrote w1 = None) as Hw1 by done.
  by rewrite (wrote_Write_after _ _ _ (wrote_WriteHeader_fresh w1 code Hw1 Hc)).
Qed.

(** C7, amended: on each request the handler reads the environment anew
    and, for every line [SEND_HEADER_<name>=<value>] (all lines holding an
    ["="]), sets before dispatch the response header whose name is the
    canonical form of <name> with hyphens for underscores to <value>; of
    several lines that ask for the same header the last one wins.  Every
    reply written through the response writer carries that value, unless
    the reply sets that very header itself afterwards: the plain HTTP
    reply carries it (next to [text/plain] in the case of
    [Content-Type]); so does the UI page, also when its template fails
    after writing; the SSE stream carries it unless the header is one of
    the four the stream sets; the error replies (of a stream that cannot
    flush, of a template that does not parse or fails before writing, and
    of a refused upgrade) carry it unless the header is one that the error
    reply sets or removes. *)
Theorem sendHeaders_in_replies (S : Surroundings) (wr : ResponseWriter) (req : Request)
    (stdout : string) (before after : list string) (line k v : string) :
  wellFormed (Environ S) → rw_wrote wr = None →
  Environ S = before ++ line :: after →
  sendHeaderOf line = Some (k, v) →
  (∀ later v', later ∈ after → sendHeaderOf later ≠ Some (k, v')) →
  ∃ sv h,
    handler S wr req stdout = Some sv
    ∧ sendHeaders (Environ S) (rw_header wr) = Some h
    ∧ h !! k = Some [v]
    ∧ (dispatch S req = ToHTTP → v ∈ sent_values (sv_wr sv) k)
    ∧ (dispatch S req = ToSSE → rw_flusher wr = true → k ∉ sseOwnHeaders →
         sent_values (sv_wr sv) k = [v])
    ∧ (dispatch S req = ToSSE → rw_flusher wr = false → k ∉ errorOwnHeaders →
         status (sv_wr sv) = Some StatusInternalServerError
         ∧ sent_values (sv_wr sv) k = [v])
    ∧ (dispatch S req = ToFrontend →
         match Frontend S with
         | ParseError _ => k ∉ errorOwnHeaders → sent_values (sv_wr sv) k = [v]
         | Parsed execute =>
             match execute (Getenv (Environ S) "WEBSOCKET_ROOT") (URL_Path (req_URL req)) with
             | (_, None) => v ∈ sent_values (sv_wr sv) k
             | (EmptyString, Some _) =>
                 k ∉ errorOwnHeaders → sent_values (sv_wr sv) k = [v]
             | (_, Some _) => sent_values (sv_wr sv) k = [v]
             end
         end)
    ∧ (dispatch S req = ToWebSocket →
         ∀ err code text,
           Handshake S = UpgradeError err (Some (code, text)) →
           informational code = false →
           k ∉ "Sec-Websocket-Version" :: errorOwnHeaders →
           status (sv_wr sv) = Some code ∧ sent_values (sv_wr sv) k = [v]).
Proof.
  intros Hwf Hw Henv Hline Hlater.
  destruct (sendHeaders_lookup (Environ S) (rw_header wr) Hwf) as (h & Hh & Hlook).
  assert (h !! k = Some [v]) as Hk.
  { rewrite Hlook, Henv. by rewrite (lastSendHeader_last before after line k v). }
  eexists _, h. split; [by apply handler_unfold|]. split; [done|]. split; [done|].
  split; [|split; [|split; [|split]]]; intros Hd; rewrite Hd.
  - pose proof (serveHTTP_header S (with_header wr h) req
                  (sendServerHostname (Environ S) req) Hw) as Hst.
    destruct (serveHTTP _ _ _ _) as [wr' req']. simpl in *.
    unfold sent_values. rewrite Hst. by apply Add_lookup.
  - intros Hfl Hown.
    pose proof (serveSSE_header S (with_header wr h) req
                  (sendServerHostname (Environ S) req)
                  (logRequest (Environ S) req stdout).2 Hfl Hw) as Hst.
    destruct (serveSSE _ _ _ _ _) as [[[wr' req'] out'] id']. simpl in *.
    unfold sent_values. rewrite Hst.
    unfold sseOwnHeaders in Hown.
    rewrite !Set_lookup_ne, Hk; [done|..];
      intros <-; apply Hown; vm_compute; set_solver.
  - intros Hfl Hown. unfold serveSSE. cbn [with_header rw_flusher]. rewrite Hfl.
    cbn [negb sv_wr]. split.
    + by apply Error_status.
    + by apply Error_sent.
  - cbn [sv_wr]. unfold serveFrontend.
    destruct (Frontend S) as [err|execute]; [intros Hown; by apply Error_sent|].
    destruct (execute _ _) as [[|c text] [err|]].
    + intros Hown. by apply Error_sent.
    + unfold sent_values. rewrite wrote_WriteHeader_fresh by done.
      cbn [with_header rw_header]. by apply Add_lookup.
    + set (w1 := Write (with_header wr h) (String c text)).
      assert (rw_wrote w1 = Some (200, h)) as Hw1.
      { subst w1. rewrite wrote_Write. by rewrite wrote_WriteHeader_fresh. }
      unfold Error. set (w2 := with_header w1 _).
      assert (rw_wrote w2 = Some (200, h)) as Hw2 by done.
      rewrite (wrote_WriteHeader_again w2 StatusInternalServerError _ Hw2).
      unfold sent_values. by rewrite (wrote_Write_after _ _ _ Hw2), Hk.
    + set (w1 := Write (with_header wr h) (String c text)).
      assert (rw_wrote w1 = Some (200, h)) as Hw1.
      { subst w1. rewrite wrote_Write. by rewrite wrote_WriteHeader_fresh. }
      set (w2 := with_header w1 _).
      assert (rw_wrote w2 = Some (200, h)) as Hw2 by done.
      rewrite (wrote_WriteHeader_again w2 200 _ Hw2).
      unfold sent_values. rewrite Hw2, Hk. cbn [default]. by left.
  - intros err code text Hup Hc Hown.
    unfold serveWebSocket, Upgrade. rewrite Hup. cbn [sv_wr].
    apply not_elem_of_cons in Hown as [Hver Hown].
    set (w1 := with_header (with_header wr h) _).
    assert (rw_wrote w1 = None) as Hw1 by done.
    split.
    + by apply Error_status.
    + apply Error_sent; [done|done|done|].
      subst w1. cbn [with_header rw_header]. by rewrite Set_lookup_ne.
Qed.

Lemma sendHeaders_in_replies_witness :
  ∃ sv h,
    handler (sampleSurroundings ["PORT=8080"; "SEND_HEADER_X_FOO=bar"] (HostnameOk "echo-1")
               noHandshake [])
      (newResponseWriter true) (sampleRequest "GET" "/test" ∅ "") "" = Some sv
    ∧ sendHeaders ["PORT=8080"; "SEND_HEADER_X_FOO=bar"] ∅ = Some h
    ∧ h !! "X-Foo" = Some ["bar"]
    ∧ "bar" ∈ sent_values (sv_wr sv) "X-Foo".
Proof.
  destruct (sendHeaders_in_replies
              (sampleSurroundings ["PORT=8080"; "SEND_HEADER_X_FOO=bar"] (HostnameOk "echo-1")
                 noHandshake [])
              (newResponseWriter true) (sampleRequest "GET" "/test" ∅ "") ""
              ["PORT=8080"] [] "SEND_HEADER_X_FOO=bar" "X-Foo" "bar")
    as (sv & h & Hsv & Hh & Hk & Hhttp & _).
  - repeat (apply Forall_cons; split; [by eexists|]). apply Forall_nil_2.
  - reflexivity.
  - reflexivity.
  - reflexivity.
  - intros later v' Hin. by apply elem_of_nil in Hin.
  - exists sv, h. split; [exact Hsv|]. split; [exact Hh|]. split; [exact Hk|].
    apply Hhttp. reflexivity.
Defined.

Example environment_headers_in_error_replies :
  (λ sv, (status (sv_wr sv), sent_values (sv_wr sv) "X-Foo")) <$>
    handler (sampleSurroundings ["SEND_HEADER_X_FOO=bar"] (HostnameOk "echo-1") noHandshake [])
      (newResponseWriter false) (sampleRequest "GET" "/.sse" ∅ "") ""
  = Some (Some 500, ["bar"])
  ∧ (λ sv, (status (sv_wr sv), sent_values (sv_wr sv) "X-Foo")) <$>
      handler (sampleSurroundings ["SEND_HEADER_X_FOO=bar"] (HostnameOk "echo-1") noHandshake [])
        (newResponseWriter true)
        (sampleRequest "GET" "/ws" {[ "Upgrade" := ["websocket"] ]} "") ""
    = Some (Some 400, ["bar"]).
Proof. by vm_compute. Qed.

Example environment_headers :
  (λ sv, rw_wrote (sv_wr sv)) <$>
    handler (sampleSurroundings
               ["SEND_HEADER_X_FOO=bar"; "SEND_HEADER_x_foo=baz"; "SEND_HEADER_CONTENT_TYPE=a/b"]
               (HostnameOk "echo-1") noHandshake [])
      (newResponseWriter true) (sampleRequest "GET" "/test" ∅ "") ""
  = Some (Some (200, {[ "X-Foo" := ["baz"]; "Content-Type" := ["a/b"; "text/plain"] ]})).
Proof. by vm_compute. Qed.

Example handler_panics_on_malformed_environment :
  handler (sampleSurroundings ["PORT"] (HostnameOk "echo-1") noHandshake [])
    (newResponseWriter true) (sampleRequest "GET" "/test" ∅ "") "" = None.
Proof. by vm_compute. Qed.

(** * Further properties of [main.go] *)

(** ** Decimal text of integers *)

Lemma of_uint_acc_le (d : Decimal.uint) (acc : positive) :
  (acc ≤ Pos.of_uint_acc d acc)%positive.
Proof.
  revert acc. induction d as [|d IH|d IH|d IH|d IH|d IH|d IH|d IH|d IH|d IH|d IH];
    intros acc; cbn [Pos.of_uint_acc]; [lia|..];
    (etrans; [|apply IH]); lia.
Qed.

Lemma parse_digits_acc (d : Decimal.uint) (acc : positive) :
  Z.pos (Pos.of_uint_acc d acc) ≤ 2 ^ 63 →
  Strconv.parse_digits (NilEmpty.string_of_uint d) (Z.pos acc)
  = inl (Z.pos (Pos.of_uint_acc d acc)).
Proof.
  revert acc. induction d as [|d IH|d IH|d IH|d IH|d IH|d IH|d IH|d IH|d IH|d IH];
    intros acc Hmax; [done|..];
    cbn [NilEmpty.string_of_uint Strconv.parse_digits Pos.of_uint_acc] in *;
    match goal with
    | H : Z.pos (Pos.of_uint_acc d ?a) ≤ _ |- _ => pose proof (of_uint_acc_le d a) as Hle
    end;
    change (negb (is_digit _)) with false; cbv iota;
    (destruct (Z.geb_spec (Z.pos acc) (Strconv.maxUint64 / 10 + 1)) as [Hge|_];
     [change (Strconv.maxUint64 / 10 + 1) with 1844674407370955162 in Hge; lia|]);
    match goal with
    | |- context [byte ?c - 48] =>
        let v := eval vm_compute in (byte c - 48) in change (byte c - 48) with v
    end;
    match goal with
    | |- context [?n >? Strconv.maxUint64] =>
        destruct (Z.gtb_spec n Strconv.maxUint64) as [Hgt|_];
        [change Strconv.maxUint64 with 18446744073709551615 in Hgt; lia|]
    end;
    rewrite <- IH by done; f_equal; lia.
Qed.

Lemma parse_digits_uint (d : Decimal.uint) :
  Z.of_N (Pos.of_uint d) ≤ 2 ^ 63 →
  Strconv.parse_digits (NilEmpty.string_of_uint d) 0 = inl (Z.of_N (Pos.of_uint d)).
Proof.
  induction d as [|d IH|d IH|d IH|d IH|d IH|d IH|d IH|d IH|d IH|d IH];
    intros Hmax; [done|by apply IH|..];
    cbn [NilEmpty.string_of_uint Strconv.parse_digits Pos.of_uint Z.of_N] in *;
    change (negb (is_digit _)) with false; cbv iota;
    change (0 >=? Strconv.maxUint64 / 10 + 1) with false; cbv iota;
    match goal with
    | |- context [byte ?c - 48] =>
        let v := eval vm_compute in (0 * 10 + (byte c - 48)) in
        change (0 * 10 + (byte c - 48)) with v
    end;
    match goal with
    | |- context [?n >? Strconv.maxUint64] =>
        change (n >? Strconv.maxUint64) with false
    end; cbv iota;
    by apply parse_digits_acc.
Qed.

Lemma string_of_uint_head (d : Decimal.uint) :
  d ≠ Decimal.Nil →
  ∃ c rest, NilEmpty.string_of_uint d = String c rest
            ∧ Ascii.eqb c "-" = false ∧ Ascii.eqb c "+" = false.
Proof. destruct d; [done|..]; intros _; by eexists _, _. Qed.

Lemma Atoi_Itoa (n : Z) :
  Strconv.minInt ≤ n ≤ Strconv.maxInt → Strconv.Atoi (Strconv.Itoa n) = (n, None).
Proof.
  unfold Strconv.minInt, Strconv.maxInt. intros Hn. unfold Strconv.Itoa.
  destruct n as [|p|p]; [done|..]; cbn [Z.to_int NilZero.string_of_int].
  - pose proof (DecimalPos.Unsigned.to_uint_nonnil p) as Hnil.
    pose proof (DecimalPos.Unsigned.of_to p) as Hof.
    assert (NilZero.string_of_uint (Pos.to_uint p) = NilEmpty.string_of_uint (Pos.to_uint p))
      as -> by (by destruct (Pos.to_uint p)).
    pose proof (parse_digits_uint (Pos.to_uint p)) as Hparse.
    rewrite Hof in Hparse. cbn [Z.of_N] in Hparse.
    destruct (string_of_uint_head _ Hnil) as (c & rest & Hs & Hminus & Hplus).
    rewrite Hs in *. unfold Strconv.Atoi. rewrite Hminus, Hplus. cbn [orb negb andb].
    rewrite Hparse by lia.
    destruct (Z.geb_spec (Z.pos p) (2 ^ 63)); [lia|done].
  - pose proof (DecimalPos.Unsigned.to_uint_nonnil p) as Hnil.
    pose proof (DecimalPos.Unsigned.of_to p) as Hof.
    assert (NilZero.string_of_uint (Pos.to_uint p) = NilEmpty.string_of_uint (Pos.to_uint p))
      as -> by (by destruct (Pos.to_uint p)).
    pose proof (parse_digits_uint (Pos.to_uint p)) as Hparse.
    rewrite Hof in Hparse. cbn [Z.of_N] in Hparse.
    destruct (string_of_uint_head _ Hnil) as (c & rest & Hs & _).
    unfold Strconv.Atoi. change (Ascii.eqb "-" "-") with true.
    change (Ascii.eqb "-" "+") with false. cbn [orb negb andb].
    rewrite Hs in *. rewrite Hparse by lia.
    destruct (Z.gtb_spec (Z.pos p) (2 ^ 63)); [lia|done].
Qed.

(** ** The WebSocket session *)

Lemma echoLoop_delivers (remote : string) (incoming : list (Z * string)) (c : Conn)
    (stdout : string) :
  conn_out (echoLoop remote incoming c stdout).1.1
  = conn_out c ++ delivered (conn_writes c) incoming.
Proof.
  revert c stdout. induction incoming as [|[messageType message] rest IH]; intros c stdout.
  - simpl. destruct (conn_writes c) as [n|]; simpl; [rewrite take_nil|]; by rewrite (right_id [] app).
  - simpl echoLoop. unfold WriteMessage.
    destruct (conn_writes c) as [[|n]|] eqn:E; simpl.
    + by rewrite (right_id [] app).
    + rewrite IH. simpl. by rewrite <- (assoc app).
    + rewrite IH. simpl. by rewrite <- (assoc app).
Qed.

Lemma echoLoop_ends (remote : string) (incoming : list (Z * string)) (c : Conn)
    (stdout : string) :
  (echoLoop remote incoming c stdout).2
  = match conn_writes c with
    | Some n => if decide (n < length incoming)%nat then conn_write_err c else conn_read_err c
    | None => conn_read_err c
    end.
Proof.
  revert c stdout. induction incoming as [|[messageType message] rest IH]; intros c stdout.
  - cbn [echoLoop snd]. destruct (conn_writes c) as [n|]; [|done].
    case_decide as H; [simpl in H; lia|done].
  - simpl echoLoop. unfold WriteMessage.
    destruct (conn_writes c) as [[|n]|] eqn:E; simpl.
    + done.
    + rewrite IH. simpl.
      repeat case_decide; (done || lia).
    + rewrite IH. done.
Qed.

(** X1. The echo law of a WebSocket session.  After a successful upgrade
    the peer receives the first message (the identity text, or an empty
    text message) followed by its own messages, each with the type and the
    payload it was sent with and in the order it was sent; when the
    connection accepts only [n] writes, exactly the first [n] of these
    arrive.  The session ends by logging the read error of the connection
    when every write went through, the write error otherwise. *)
Theorem serveWebSocket_echoes (S : Surroundings) (wr : ResponseWriter) (req : Request)
    (send : bool) (stdout : string) (peer : Conn) :
  Handshake S = UpgradeOk peer →
  let first := (TextMessage, if send then identity S else EmptyString) in
  let err :=
    match conn_writes peer with
    | Some n => if decide (n ≤ length (conn_in peer))%nat
                then conn_write_err peer else conn_read_err peer
    | None => conn_read_err peer
    end in
  ∃ c log,
    (serveWebSocket S wr req send stdout).1.2 = Some c
    ∧ conn_out c = conn_out peer ++ delivered (conn_writes peer) (first :: conn_in peer)
    ∧ (serveWebSocket S wr req send stdout).2
      = log +:+ req_RemoteAddr req +:+ " | " +:+ err +:+ LF.
Proof.
  intros Hup first err. subst first err.
  unfold serveWebSocket. rewrite Hup. cbn [Upgrade].
  set (c0 := {| conn_in := conn_in peer; conn_read_err := conn_read_err peer;
                conn_writes := conn_writes peer; conn_write_err := conn_write_err peer;
                conn_out := conn_out peer; conn_handshake := ∅ |}).
  set (message := if send then _ else _).
  assert (message = if send then identity S else EmptyString) as ->.
  { subst message. unfold identity. by destruct send. }
  set (message := if send then _ else _).
  unfold WriteMessage.
  destruct (conn_writes peer) as [[|n]|] eqn:E; subst c0; cbn [conn_writes conn_out conn_write_err].
  - eexists _, _. split; [reflexivity|]. split; [by rewrite (right_id [] app)|].
    cbn [snd]. case_decide; [reflexivity|lia].
  - match goal with |- context [echoLoop ?r ?i ?c ?s] =>
      pose proof (echoLoop_delivers r i c s) as Hout;
      pose proof (echoLoop_ends r i c s) as Herr;
      destruct (echoLoop r i c s) as [[c' out'] err'] end.
    cbn [fst snd sent conn_out conn_writes conn_in conn_write_err conn_read_err] in *.
    eexists _, _. split; [reflexivity|]. split.
    + rewrite Hout. cbn [delivered take]. by rewrite <- (assoc app).
    + rewrite Herr.
      repeat case_decide; (reflexivity || lia).
  - match goal with |- context [echoLoop ?r ?i ?c ?s] =>
      pose proof (echoLoop_delivers r i c s) as Hout;
      pose proof (echoLoop_ends r i c s) as Herr;
      destruct (echoLoop r i c s) as [[c' out'] err'] end.
    cbn [fst snd sent conn_out conn_writes conn_in conn_write_err conn_read_err] in *.
    eexists _, _. split; [reflexivity|]. split.
    + rewrite Hout. cbn [delivered]. by rewrite <- (assoc app).
    + by rewrite Herr.
Qed.

Lemma serveWebSocket_echoes_witness :
  ∃ c log,
    (serveWebSocket (sampleSurroundings [] (HostnameOk "echo-1") (UpgradeOk samplePeer) [])
       (newResponseWriter true) (sampleRequest "GET" "/ws" ∅ "") true "").1.2 = Some c
    ∧ conn_out c
      = [(TextMessage, "Request served by echo-1"); (TextMessage, "hello"); (BinaryMessage, "bin")]
    ∧ (serveWebSocket (sampleSurroundings [] (HostnameOk "echo-1") (UpgradeOk samplePeer) [])
         (newResponseWriter true) (sampleRequest "GET" "/ws" ∅ "") true "").2
      = log +:+ "127.0.0.1:50000 | websocket: close 1000 (normal)" +:+ LF.
Proof.
  exact (serveWebSocket_echoes
           (sampleSurroundings [] (HostnameOk "echo-1") (UpgradeOk samplePeer) [])
           (newResponseWriter true) (sampleRequest "GET" "/ws" ∅ "") true "" samplePeer
           eq_refl).
Defined.

(** ** Server-sent events *)

Lemma Split_pieces (v : string) :
  Forall (λ piece, mem_byte "010" piece = false) (Strings.Split v "010")
  ∧ join LF (Strings.Split v "010") = v
  ∧ Strings.Split v "010" ≠ [].
Proof.
  induction v as [|c v (IHall & IHjoin & IHne)]; simpl.
  - split; [by repeat constructor|]. done.
  - destruct (Ascii.eqb_spec c "010") as [->|Hc].
    + split; [by constructor|]. split; [|done].
      destruct (Strings.Split v "010") as [|piece rest] eqn:E; [done|].
      change (join LF (EmptyString :: piece :: rest))
        with (EmptyString +:+ LF +:+ join LF (piece :: rest)).
      by rewrite IHjoin.
    + destruct (Strings.Split v "010") as [|piece rest] eqn:E; [done|].
      split; [|split; [|done]].
      * apply Forall_cons in IHall as [Hp Hrest]. constructor; [|done].
        cbn [mem_byte]. rewrite Hp. destruct (Ascii.eqb_spec "010"%char c) as [Heq|]; [|done].
        by destruct Hc.
      * rewrite <- IHjoin. by destruct rest.
Qed.

Lemma Split_one_piece (v : string) :
  mem_byte "010" v = false → Strings.Split v "010" = [v].
Proof.
  induction v as [|c v IH]; [done|].
  cbn [mem_byte Strings.Split]. rewrite Ascii.eqb_sym.
  destruct (Ascii.eqb c "010"); [done|]. cbn [orb]. intros H. by rewrite (IH H).
Qed.

Lemma writeSSEField_log (wr : ResponseWriter) (req : Request) (stdout k v : string) :
  (writeSSEField wr req stdout k v).2
  = stdout +:+ concat_lines ((λ line, req_RemoteAddr req +:+ " | sse | " +:+ k +:+ ": "
                                        +:+ line +:+ LF) <$> Strings.Split v "010").
Proof.
  unfold writeSSEField.
  revert wr stdout. induction (Strings.Split v "010") as [|line rest IH]; intros wr stdout.
  - simpl. by rewrite app_nil_r.
  - cbn [foldl fmap list_fmap]. rewrite IH.
    change (concat_lines (?x :: ?l)) with (x +:+ concat_lines l).
    by rewrite !app_assoc.
Qed.

(** X2. A field of a server-sent event is written line by line.  For a
    value [v], [writeSSEField] writes one line ["k: piece"] per piece of
    [v] between line feeds and logs each of them; there is at least one
    piece, no piece holds a line feed, and the pieces joined by line feeds
    are [v] again.  Only the line feed splits: a value without one is
    written as it is on a single line, a carriage return in it
    included. *)
Theorem writeSSEField_lines (wr : ResponseWriter) (req : Request) (stdout k v : string) :
  let pieces := Strings.Split v "010" in
  body (writeSSEField wr req stdout k v).1
  = body wr +:+ concat_lines ((λ piece, k +:+ ": " +:+ piece +:+ LF) <$> pieces)
  ∧ (writeSSEField wr req stdout k v).2
    = stdout +:+ concat_lines ((λ piece, req_RemoteAddr req +:+ " | sse | " +:+ k +:+ ": "
                                           +:+ piece +:+ LF) <$> pieces)
  ∧ Forall (λ piece, mem_byte "010" piece = false) pieces
  ∧ join LF pieces = v
  ∧ (0 < length pieces)%nat
  ∧ (mem_byte "010" v = false →
     body (writeSSEField wr req stdout k v).1 = body wr +:+ k +:+ ": " +:+ v +:+ LF).
Proof.
  intros pieces. subst pieces.
  destruct (writeSSEField_writes wr req stdout k v) as (Hp & Hf & _).
  destruct (Split_pieces v) as (Hall & Hjoin & Hne).
  assert (body (writeSSEField wr req stdout k v).1
          = body wr +:+ concat_lines ((λ piece, k +:+ ": " +:+ piece +:+ LF)
                                        <$> Strings.Split v "010")) as Hbody.
  { unfold body. rewrite Hp, Hf. by rewrite foldr_app_pending. }
  split; [done|]. split; [apply writeSSEField_log|]. split; [done|]. split; [done|].
  split.
  - destruct (Strings.Split v "010"); [done|simpl; lia].
  - intros Hv. rewrite Hbody, (Split_one_piece v Hv).
    cbn [fmap list_fmap]. unfold concat_lines. cbn [foldr].
    by rewrite app_nil_r.
Qed.

Lemma writeSSEField_lines_witness :
  body (writeSSEField (newResponseWriter true) (sampleRequest "GET" "/.sse" ∅ "") ""
          "data" (String "a" (String "013" "b"))).1
  = "data: " +:+ String "a" (String "013" "b") +:+ LF.
Proof.
  apply (writeSSEField_lines (newResponseWriter true) (sampleRequest "GET" "/.sse" ∅ "") ""
           "data" (String "a" (String "013" "b"))).
  reflexivity.
Defined.


Lemma Itoa_one_line (n : Z) : mem_byte "010" (Strconv.Itoa n) = false.
Proof.
  assert (∀ d, mem_byte "010" (NilEmpty.string_of_uint d) = false) as Hd.
  { induction d; [done|..]; cbn [NilEmpty.string_of_uint mem_byte]; by rewrite IHd. }
  assert (∀ d, mem_byte "010" (NilZero.string_of_uint d) = false) as Hz.
  { intros d. destruct d; [done|..]; apply Hd. }
  unfold Strconv.Itoa. destruct (Z.to_int n); cbn [NilZero.string_of_int mem_byte]; by rewrite Hz.
Qed.

Lemma int_wrap_range (z : Z) : Strconv.minInt ≤ int_wrap z ≤ Strconv.maxInt.
Proof.
  unfold int_wrap, Strconv.minInt, Strconv.maxInt.
  pose proof (Z.mod_pos_bound (z + 2 ^ 63) (2 ^ 64)). lia.
Qed.

(** X3. The id of a server-sent event.  [writeSSE] advances the counter
    by one, wrapping around like a Go [int], and sends the event as one
    chunk whose last field is the single line ["id: "] followed by the
    decimal text of the new counter; that text reads back through
    [strconv.Atoi] as the counter, whatever its value. *)
Theorem writeSSE_id_reads_back (wr : ResponseWriter) (req : Request) (stdout : string)
    (id : Z) (event data : string) :
  let id' := (writeSSE wr req stdout id event data).2 in
  id' = int_wrap (id + 1)
  ∧ Strconv.Atoi (Strconv.Itoa id') = (id', None)
  ∧ rw_flushed (writeSSE wr req stdout id event data).1.1
    = rw_flushed wr
      ++ [rw_pending wr +:+ sse_field "event" event +:+ sse_field "data" data
            +:+ "id: " +:+ Strconv.Itoa id' +:+ LF +:+ LF].
Proof.
  intros id'. subst id'.
  destruct (writeSSE_writes wr req stdout id event data) as (Hfl & _ & _ & Hid).
  rewrite Hid. split; [done|]. split; [apply Atoi_Itoa, int_wrap_range|].
  rewrite Hfl. unfold sse_frame. do 3 f_equal.
  unfold sse_field at 3. rewrite (Split_one_piece _ (Itoa_one_line _)).
  cbn [fmap list_fmap]. unfold concat_lines. cbn [foldr].
  rewrite app_nil_r. by rewrite !app_assoc.
Qed.

Lemma Set_lookup_eq (h : Header) (key value : string) :
  Set_ h key value !! CanonicalMIMEHeaderKey key = Some [value].
Proof. unfold Set_. apply lookup_insert_eq. Qed.

(** X4. Streaming needs a flushing writer.  When the response writer
    cannot flush, a request for the SSE stream is answered with status 500
    and the text ["Streaming unsupported!"] as plain text; no event is
    sent, and the request body is left unread. *)
Theorem serveSSE_without_flusher (S : Surroundings) (wr : ResponseWriter) (req : Request)
    (stdout : string) :
  wellFormed (Environ S) → rw_wrote wr = None → rw_flusher wr = false →
  dispatch S req = ToSSE →
  ∃ sv,
    handler S wr req stdout = Some sv
    ∧ status (sv_wr sv) = Some StatusInternalServerError
    ∧ body (sv_wr sv) = body wr +:+ "Streaming unsupported!" +:+ LF
    ∧ sent_values (sv_wr sv) "Content-Type" = ["text/plain; charset=utf-8"]
    ∧ rw_flushed (sv_wr sv) = rw_flushed wr
    ∧ sv_req sv = req
    ∧ sv_stdout sv = (logRequest (Environ S) req stdout).2.
Proof.
  intros Hwf Hw Hfl Hd.
  destruct (sendHeaders_lookup (Environ S) (rw_header wr) Hwf) as (h & Hh & _).
  eexists. split; [by apply handler_unfold|]. rewrite Hd.
  unfold serveSSE. cbn [with_header rw_flusher]. rewrite Hfl. cbn [negb].
  cbn [sv_wr sv_req sv_stdout].
  unfold Error.
  set (w1 := with_header _ _).
  assert (rw_wrote w1 = None) as Hw1 by done.
  split; [|split; [|split; [|split]]].
  - unfold status. rewrite wrote_Write. 
    rewrite (wrote_WriteHeader_again (WriteHeader w1 _) 200 (StatusInternalServerError, rw_header w1));
      by rewrite wrote_WriteHeader_fresh.
  - rewrite body_Write, body_WriteHeader. subst w1. by rewrite !body_with_header.
  - unfold sent_values. rewrite wrote_Write.
    rewrite (wrote_WriteHeader_again (WriteHeader w1 _) 200 (StatusInternalServerError, rw_header w1));
      rewrite wrote_WriteHeader_fresh by done; [|done].
    subst w1. cbn [with_header rw_header].
    rewrite Set_lookup_ne by (by vm_compute).
    by rewrite (Set_lookup_eq _ "Content-Type").
  - destruct (pending_Write (WriteHeader w1 StatusInternalServerError)
                ("Streaming unsupported!" +:+ LF)) as (_ & -> & _).
    unfold WriteHeader. by rewrite Hw1.
  - done.
Qed.

Lemma serveSSE_without_flusher_witness :
  ∃ sv,
    handler (sampleSurroundings ["PORT=8080"] (HostnameOk "echo-1") noHandshake ["t1"])
      (newResponseWriter false) (sampleRequest "GET" "/.sse" ∅ "unread") "" = Some sv
    ∧ status (sv_wr sv) = Some 500
    ∧ body (sv_wr sv) = "Streaming unsupported!" +:+ LF
    ∧ sent_values (sv_wr sv) "Content-Type" = ["text/plain; charset=utf-8"]
    ∧ rw_flushed (sv_wr sv) = []
    ∧ req_Body (sv_req sv) = "unread".
Proof.
  destruct (serveSSE_without_flusher
              (sampleSurroundings ["PORT=8080"] (HostnameOk "echo-1") noHandshake ["t1"])
              (newResponseWriter false) (sampleRequest "GET" "/.sse" ∅ "unread") "")
    as (sv & Hsv & Hst & Hbody & Hct & Hfl & Hreq & _).
  - repeat (apply Forall_cons; split; [by eexists|]). apply Forall_nil_2.
  - reflexivity.
  - reflexivity.
  - reflexivity.
  - exists sv. rewrite Hreq. by repeat split.
Defined.

Lemma serveSSE_request (S : Surroundings) (wr : ResponseWriter) (req : Request)
    (send : bool) (stdout : string) :
  rw_flusher wr = true →
  (serveSSE S wr req send stdout).1.1.2 = (writeRequest req).2.
Proof.
  intros Hfl. unfold serveSSE. rewrite Hfl. cbn [negb].
  destruct (writeRequest req) as [echo req1]. cbn [snd].
  destruct send; [destruct (Hostname S)|];
    repeat match goal with
           | |- context [writeSSE ?a ?b ?c ?d ?e ?f] =>
               destruct (writeSSE a b c d e f) as [[? ?] ?]
           end;
    match goal with
    | |- context [tickLoop ?a ?b ?c ?d ?e] => destruct (tickLoop a b c d e) as [[? ?] ?]
    end; reflexivity.
Qed.

(** X5. The head of an SSE reply.  With a flushing writer the stream is
    answered with status 200 and the headers [Content-Type:
    text/event-stream], [Cache-Control: no-cache], [Connection: keep-alive]
    and [Access-Control-Allow-Origin: *], each with this one value whatever
    the writer held for it before; the request body has been read to its
    end when the handler returns. *)
Theorem serveSSE_reply_head (S : Surroundings) (wr : ResponseWriter) (req : Request)
    (stdout : string) :
  wellFormed (Environ S) → rw_wrote wr = None → rw_flusher wr = true →
  dispatch S req = ToSSE →
  ∃ sv,
    handler S wr req stdout = Some sv
    ∧ status (sv_wr sv) = Some 200
    ∧ sent_values (sv_wr sv) "Content-Type" = ["text/event-stream"]
    ∧ sent_values (sv_wr sv) "Cache-Control" = ["no-cache"]
    ∧ sent_values (sv_wr sv) "Connection" = ["keep-alive"]
    ∧ sent_values (sv_wr sv) "Access-Control-Allow-Origin" = ["*"]
    ∧ req_Body (sv_req sv) = EmptyString.
Proof.
  intros Hwf Hw Hfl Hd.
  destruct (sendHeaders_lookup (Environ S) (rw_header wr) Hwf) as (h & Hh & _).
  eexists. split; [by apply handler_unfold|]. rewrite Hd.
  pose proof (serveSSE_header S (with_header wr h) req
                (sendServerHostname (Environ S) req)
                (logRequest (Environ S) req stdout).2 Hfl Hw) as Hst.
  pose proof (serveSSE_request S (with_header wr h) req
                (sendServerHostname (Environ S) req)
                (logRequest (Environ S) req stdout).2 Hfl) as Hreq.
  destruct (serveSSE _ _ _ _ _) as [[[wr' req'] out'] id']. cbn [fst snd] in *.
  cbn [sv_wr sv_req]. unfold status, sent_values. rewrite Hst. cbn [fmap option_fmap option_map fst].
  split; [done|].
  rewrite Hreq, writeRequest_drains.
  repeat split.
  - rewrite !Set_lookup_ne by (by vm_compute). by rewrite (Set_lookup_eq _ "Content-Type").
  - rewrite !Set_lookup_ne by (by vm_compute). by rewrite (Set_lookup_eq _ "Cache-Control").
  - rewrite !Set_lookup_ne by (by vm_compute). by rewrite (Set_lookup_eq _ "Connection").
  - by rewrite (Set_lookup_eq _ "Access-Control-Allow-Origin").
Qed.

Lemma serveSSE_reply_head_witness :
  ∃ sv,
    handler (sampleSurroundings ["SEND_HEADER_CACHE_CONTROL=max-age=60"] (HostnameOk "echo-1")
               noHandshake ["t1"])
      (newResponseWriter true) (sampleRequest "POST" "/a/.sse" ∅ "body") "" = Some sv
    ∧ status (sv_wr sv) = Some 200
    ∧ sent_values (sv_wr sv) "Content-Type" = ["text/event-stream"]
    ∧ sent_values (sv_wr sv) "Cache-Control" = ["no-cache"]
    ∧ sent_values (sv_wr sv) "Connection" = ["keep-alive"]
    ∧ sent_values (sv_wr sv) "Access-Control-Allow-Origin" = ["*"]
    ∧ req_Body (sv_req sv) = EmptyString.
Proof.
  apply (serveSSE_reply_head
           (sampleSurroundings ["SEND_HEADER_CACHE_CONTROL=max-age=60"] (HostnameOk "echo-1")
              noHandshake ["t1"])
           (newResponseWriter true) (sampleRequest "POST" "/a/.sse" ∅ "body") "").
  - repeat (apply Forall_cons; split; [by eexists|]). apply Forall_nil_2.
  - reflexivity.
  - reflexivity.
  - reflexivity.
Defined.

(** ** The header loop *)

Lemma Cut_None (line : string) :
  Strings.Cut line "=" = None ↔ mem_byte "=" line = false.
Proof.
  induction line as [|c line IH]; [done|].
  cbn [Strings.Cut mem_byte]. rewrite Ascii.eqb_sym.
  destruct (Ascii.eqb "=" c); [done|]. cbn [orb]. rewrite <- IH.
  destruct (Strings.Cut line "=") as [[before after]|]; split; (done || discriminate).
Qed.

(** X6. The handler panics exactly on an environment line without an
    equals sign.  The header loop indexes the second of the pieces it
    splits each line into, so a call of [handler] ends in a panic, whatever
    the request, if and only if some line of [os.Environ()] holds no
    ["="]. *)
Theorem handler_panics_iff (S : Surroundings) (wr : ResponseWriter) (req : Request)
    (stdout : string) :
  handler S wr req stdout = None
  ↔ ∃ line, line ∈ Environ S ∧ mem_byte "=" line = false.
Proof.
  assert (∀ environ h,
            sendHeaders environ h = None
            ↔ ∃ line, line ∈ environ ∧ mem_byte "=" line = false) as Hloop.
  { induction environ as [|line rest IH]; intros h.
    - split; [done|]. intros (line & Hin & _). by apply elem_of_nil in Hin.
    - cbn [sendHeaders]. unfold Strings.SplitN2.
      destruct (Strings.Cut line "=") as [[key value]|] eqn:E.
      + assert (mem_byte "=" line ≠ false) as Hline.
        { intros H. apply Cut_None in H. congruence. }
        destruct (Strings.CutPrefix key "SEND_HEADER_"); rewrite IH;
          (split; intros (l & Hin & Hl);
           [exists l; split; [by right|done]
           |apply elem_of_cons in Hin as [->|Hin]; [done|by exists l]]).
      + split; [|done]. intros _. exists line. split; [by left|by apply Cut_None]. }
  rewrite <- (Hloop (Environ S) (rw_header wr)).
  unfold handler. destruct (logRequest _ _ _) as [req' out'].
  destruct (sendHeaders _ _); split; (done || discriminate).
Qed.

(** ** The UI page *)

(** X7. The content type of the UI page comes too late.  When the
    writer already holds a [Content-Type] on entry (as after
    [SEND_HEADER_CONTENT_TYPE]) and the template writes any text without
    error, the first byte written fixes the reply at status 200 with the
    headers held on entry: the reply carries the [Content-Type] values of
    the entry only, and the [text/html] that [serveFrontend] adds
    afterwards is in the header map but not in the reply. *)
Theorem serveFrontend_content_type_late (S : Surroundings) (wr : ResponseWriter)
    (req : Request) (execute : string → string → string * option string) (text : string)
    (values : list string) :
  rw_wrote wr = None → Frontend S = Parsed execute →
  execute (Getenv (Environ S) "WEBSOCKET_ROOT") (URL_Path (req_URL req)) = (text, None) →
  text ≠ EmptyString →
  rw_header wr !! "Content-Type" = Some values →
  status (serveFrontend S wr req) = Some 200
  ∧ sent_values (serveFrontend S wr req) "Content-Type" = values
  ∧ rw_header (serveFrontend S wr req) !! "Content-Type" = Some (values ++ ["text/html"])
  ∧ sent_body (serveFrontend S wr req) = body wr +:+ text.
Proof.
  intros Hw Hf Hex Htext Hct.
  unfold serveFrontend. rewrite Hf, Hex.
  destruct text as [|c text]; [done|].
  set (w1 := Write wr _).
  assert (rw_wrote w1 = Some (200, rw_header wr)) as Hw1.
  { subst w1. rewrite wrote_Write. by apply wrote_WriteHeader_fresh. }
  assert (rw_header w1 = rw_header wr) as Hh1 by apply header_Write.
  set (w2 := with_header w1 _).
  assert (rw_wrote w2 = Some (200, rw_header wr)) as Hw2 by done.
  rewrite (wrote_WriteHeader_again w2 200 _ Hw2).
  split; [by unfold status; rewrite Hw2|].
  split; [by unfold sent_values; rewrite Hw2, Hct|]. split.
  - subst w2. cbn [with_header rw_header]. rewrite Hh1. unfold Add.
    change (CanonicalMIMEHeaderKey "Content-Type") with "Content-Type".
    by rewrite lookup_insert_eq, Hct.
  - unfold sent_body. rewrite Hw2. cbn [bodyAllowedForStatus].
    subst w2. rewrite body_with_header. subst w1. apply body_Write.
Qed.

Lemma serveFrontend_content_type_late_witness :
  sent_values (serveFrontend (sampleSurroundings [] (HostnameOk "echo-1") noHandshake [])
                 (with_header (newResponseWriter true) {[ "Content-Type" := ["a/b"] ]})
                 (sampleRequest "GET" "/.ws" ∅ "")) "Content-Type"
  = ["a/b"]
  ∧ rw_header (serveFrontend (sampleSurroundings [] (HostnameOk "echo-1") noHandshake [])
                 (with_header (newResponseWriter true) {[ "Content-Type" := ["a/b"] ]})
                 (sampleRequest "GET" "/.ws" ∅ "")) !! "Content-Type"
    = Some ["a/b"; "text/html"].
Proof.
  destruct (serveFrontend_content_type_late
              (sampleSurroundings [] (HostnameOk "echo-1") noHandshake [])
              (with_header (newResponseWriter true) {[ "Content-Type" := ["a/b"] ]})
              (sampleRequest "GET" "/.ws" ∅ "")
              (λ root path, ("<html>" +:+ root +:+ path +:+ "</html>", None))
              "<html>/.ws</html>" ["a/b"])
    as (_ & Hct & Hmap & _).
  - reflexivity.
  - reflexivity.
  - reflexivity.
  - discriminate.
  - reflexivity.
  - split; [exact Hct|exact Hmap].
Defined.

Lemma Error_reply (w : ResponseWriter) (error : string) (code : Z) :
  rw_wrote w = None → informational code = false →
  status (Error w error code) = Some code
  ∧ body (Error w error code) = body w +:+ error +:+ LF
  ∧ sent_values (Error w error code) "Content-Type" = ["text/plain; charset=utf-8"].
Proof.
  intros Hw Hc. unfold Error.
  set (w1 := with_header _ _).
  assert (rw_wrote w1 = None) as Hw1 by done.
  assert (rw_wrote (Write (WriteHeader w1 code) (error +:+ LF)) = Some (code, rw_header w1))
    as Hsent.
  { rewrite wrote_Write.
    rewrite (wrote_WriteHeader_again (WriteHeader w1 code) 200 (code, rw_header w1));
      by rewrite wrote_WriteHeader_fresh. }
  split; [by unfold status; rewrite Hsent|]. split.
  - rewrite body_Write, body_WriteHeader. subst w1. by rewrite body_with_header.
  - unfold sent_values. rewrite Hsent. subst w1. cbn [with_header rw_header].
    rewrite Set_lookup_ne by (by vm_compute).
    by rewrite (Set_lookup_eq _ "Content-Type").
Qed.

(** X8. A failing UI template.  When the template does not parse, or
    fails before it has written anything, the reply is 500 with the error
    text as plain text.  When it fails after writing, the reply stays at
    the status 200 its first byte fixed: the 500 comes too late, and the
    error text is appended to what the template wrote. *)
Theorem serveFrontend_failure (S : Surroundings) (wr : ResponseWriter) (req : Request) :
  rw_wrote wr = None →
  match Frontend S with
  | ParseError err =>
      status (serveFrontend S wr req) = Some StatusInternalServerError
      ∧ body (serveFrontend S wr req) = body wr +:+ err +:+ LF
      ∧ sent_values (serveFrontend S wr req) "Content-Type" = ["text/plain; charset=utf-8"]
  | Parsed execute =>
      match execute (Getenv (Environ S) "WEBSOCKET_ROOT") (URL_Path (req_URL req)) with
      | (EmptyString, Some err) =>
          status (serveFrontend S wr req) = Some StatusInternalServerError
          ∧ body (serveFrontend S wr req) = body wr +:+ err +:+ LF
          ∧ sent_values (serveFrontend S wr req) "Content-Type"
            = ["text/plain; charset=utf-8"]
      | (text, Some err) =>
          status (serveFrontend S wr req) = Some 200
          ∧ body (serveFrontend S wr req) = body wr +:+ text +:+ err +:+ LF
      | (_, None) => status (serveFrontend S wr req) = Some 200
      end
  end.
Proof.
  intros Hw. unfold serveFrontend.
  destruct (Frontend S) as [err|execute]; [by apply Error_reply|].
  destruct (execute _ _) as [[|c text] [err|]].
  - by apply Error_reply.
  - unfold status. by rewrite wrote_WriteHeader_fresh.
  - set (w1 := Write wr (String c text)).
    assert (rw_wrote w1 = Some (200, rw_header wr)) as Hw1.
    { subst w1. rewrite wrote_Write. by apply wrote_WriteHeader_fresh. }
    unfold Error. set (w2 := with_header w1 _).
    assert (rw_wrote w2 = Some (200, rw_header wr)) as Hw2 by done.
    rewrite (wrote_WriteHeader_again w2 StatusInternalServerError _ Hw2).
    split; [by unfold status; rewrite (wrote_Write_after _ _ _ Hw2)|].
    rewrite body_Write. subst w2. rewrite body_with_header. subst w1.
    rewrite body_Write. by rewrite !app_assoc.
  - set (w1 := Write wr (String c text)).
    assert (rw_wrote w1 = Some (200, rw_header wr)) as Hw1.
    { subst w1. rewrite wrote_Write. by apply wrote_WriteHeader_fresh. }
    set (w2 := with_header w1 _).
    assert (rw_wrote w2 = Some (200, rw_header wr)) as Hw2 by done.
    rewrite (wrote_WriteHeader_again w2 200 _ Hw2). unfold status. by rewrite Hw2.
Qed.

Lemma serveFrontend_failure_witness :
  status (serveFrontend
            {| Environ := []; Hostname := HostnameOk "echo-1";
               IsWebSocketUpgrade := λ _, false; Handshake := noHandshake; Ticks := [];
               Frontend := Parsed (λ root path, ("<html>", Some "template: no such field")) |}
            (newResponseWriter true) (sampleRequest "GET" "/.ws" ∅ ""))
  = Some 200
  ∧ body (serveFrontend
            {| Environ := []; Hostname := HostnameOk "echo-1";
               IsWebSocketUpgrade := λ _, false; Handshake := noHandshake; Ticks := [];
               Frontend := Parsed (λ root path, ("<html>", Some "template: no such field")) |}
            (newResponseWriter true) (sampleRequest "GET" "/.ws" ∅ ""))
    = "<html>template: no such field" +:+ LF.
Proof.
  exact (serveFrontend_failure
           {| Environ := []; Hostname := HostnameOk "echo-1";
              IsWebSocketUpgrade := λ _, false; Handshake := noHandshake; Ticks := [];
              Frontend := Parsed (λ root path, ("<html>", Some "template: no such field")) |}
           (newResponseWriter true) (sampleRequest "GET" "/.ws" ∅ "") eq_refl).
Defined.

(** ** The router *)

(** The route table on its own: which route is the first to match. *)
Lemma matchRoutes_reach (method path : string) :
  (matchRoutes method path = Some throwError ↔ method = "GET" ∧ path = "/throw")
  ∧ (matchRoutes method path = Some healthCheck ↔ method = "GET" ∧ path = "/health")
  ∧ (matchRoutes method path = Some ListPets ↔ method = "GET" ∧ path = "/v1/pets")
  ∧ (matchRoutes method path = Some CreatePets ↔ method = "POST" ∧ path = "/v1/pets")
  ∧ (matchRoutes method path = Some ShowPetById
     ↔ method = "GET"
       ∧ ∃ petId, path = "/v1/pets/" +:+ petId ∧ petId ≠ EmptyString ∧ no_slash petId = true)
  ∧ (matchRoutes method path = None ↔ Strings.CutPrefix path "/" = None)
  ∧ (method ≠ "GET" → method ≠ "POST" → Strings.CutPrefix path "/" ≠ None →
     matchRoutes method path = Some echoHandler).
Proof.
  enough ((matchRoutes method path = Some throwError ↔ method = "GET" ∧ path = "/throw")
          ∧ (matchRoutes method path = Some healthCheck ↔ method = "GET" ∧ path = "/health")
          ∧ (matchRoutes method path = Some ListPets ↔ method = "GET" ∧ path = "/v1/pets")
          ∧ (matchRoutes method path = Some CreatePets ↔ method = "POST" ∧ path = "/v1/pets")
          ∧ (matchRoutes method path = Some ShowPetById
             ↔ method = "GET"
               ∧ ∃ petId, path = "/v1/pets/" +:+ petId ∧ petId ≠ EmptyString
                          ∧ no_slash petId = true)
          ∧ (matchRoutes method path = None ↔ Strings.CutPrefix path "/" = None))
    as (H1 & H2 & H3 & H4 & H5 & H6).
  { repeat (split; [assumption|]).
    intros Hget Hpost Hroot.
    destruct (matchRoutes method path) as [[]|]; try reflexivity.
    - by destruct (proj1 H3 eq_refl).
    - by destruct (proj1 H4 eq_refl).
    - by destruct (proj1 H5 eq_refl).
    - by destruct (proj1 H2 eq_refl).
    - by destruct (proj1 H1 eq_refl).
    - by destruct Hroot; apply H6. }
  assert (∀ s prefix rest, Strings.CutPrefix s prefix = Some rest ↔ s = prefix +:+ rest)
    as Hcut.
  { intros s prefix. revert s. induction prefix as [|p prefix IH]; intros s rest.
    - change (EmptyString +:+ rest) with rest. destruct s; simpl; split; congruence.
    - destruct s as [|c s]; simpl; [split; discriminate|].
      destruct (Ascii.eqb_spec p c) as [->|Hpc].
      + rewrite IH. split; [by intros ->|]. intros H. by injection H.
      + split; [discriminate|]. intros H. injection H as H1 _. done. }
  assert (match_path (WholePathVar "/v1/pets/") path = true
          ↔ ∃ petId, path = "/v1/pets/" +:+ petId ∧ petId ≠ EmptyString
                     ∧ no_slash petId = true) as Hvar.
  { unfold match_path.
    destruct (Strings.CutPrefix path "/v1/pets/") as [rest|] eqn:E.
    - apply Hcut in E. rewrite andb_true_iff, negb_true_iff. split.
      + intros [Hne Hns]. exists rest. split; [done|]. split; [|done].
        intros ->. discriminate.
      + intros (petId & Hp & Hne & Hns). rewrite Hp in E.
        assert (petId = rest) as <- by (by injection E).
        split; [|done]. by destruct petId.
    - split; [discriminate|]. intros (petId & Hp & _).
      apply Hcut in Hp. congruence. }
  assert (match_path (WholePathVar "/v1/pets/") path = true →
          path ≠ "/v1/pets" ∧ path ≠ "/health" ∧ path ≠ "/throw"
          ∧ Strings.CutPrefix path "/" ≠ None) as Hother.
  { intros Hv. apply Hvar in Hv as (petId & -> & _).
    repeat split; intros H;
      try (apply (f_equal (λ s, Strings.CutPrefix s "/v1/pets/")) in H;
           destruct petId; vm_compute in H; discriminate H).
    pose proof (proj2 (Hcut ("/v1/pets/" +:+ petId) "/" ("v1/pets/" +:+ petId)) eq_refl) as H'.
    rewrite H in H'. discriminate H'. }
  unfold matchRoutes, routes. cbn [find]. unfold match_route.
  cbn [rt_path rt_methods rt_handler existsb].
  set (var := match_path (WholePathVar "/v1/pets/") path) in *.
  cbn [match_path].
  destruct var eqn:Evar.
  - destruct (Hother eq_refl) as (Hp1 & Hp2 & Hp3 & Hp4).
    apply String.eqb_neq in Hp1, Hp2, Hp3. rewrite Hp1, Hp2, Hp3. cbn [andb orb].
    destruct (Strings.CutPrefix path "/"); [|done].
    destruct (String.eqb_spec method "GET") as [->|Hm];
      cbn [andb orb fmap option_fmap option_map rt_handler];
      (split; [|split; [|split; [|split; [|split]]]]); split;
      try discriminate; try (intros [H1 H2]; apply String.eqb_neq in Hp1, Hp2, Hp3; done);
      try done.
    + intros _. split; [done|]. by apply Hvar.
  - assert (¬ ∃ petId, path = "/v1/pets/" +:+ petId ∧ petId ≠ EmptyString
                       ∧ no_slash petId = true) as Hno.
    { intros H. apply Hvar in H. discriminate H. }
    cbn [andb].
    destruct (String.eqb_spec path "/v1/pets") as [->|Hp1];
      [|destruct (String.eqb_spec path "/health") as [->|Hp2];
        [|destruct (String.eqb_spec path "/throw") as [->|Hp3]]];
      (destruct (String.eqb_spec method "GET") as [->|Hm1];
       [|destruct (String.eqb_spec method "POST") as [->|Hm2]]);
      cbn [andb orb fmap option_fmap option_map rt_handler Strings.CutPrefix Ascii.eqb Bool.eqb];
      try (destruct (Strings.CutPrefix path "/") eqn:Ecut);
      cbn [fmap option_fmap option_map rt_handler];
      (split; [|split; [|split; [|split; [|split]]]]); split;
      try discriminate; try done;
      try (intros [H1 H2]; done).
Qed.


Lemma Split_element (s : string) :
  no_slash s = true → Strings.Split s "/" = [s].
Proof.
  induction s as [|c s IH]; [done|].
  cbn [no_slash Strings.Split]. intros [Hc Hs]%andb_true_iff.
  apply negb_true_iff in Hc. by rewrite Hc, (IH Hs).
Qed.

Lemma ends_with_slash_element (s : string) :
  no_slash s = true → ends_with_slash s = false.
Proof.
  induction s as [|c s IH]; [done|].
  cbn [no_slash]. intros [Hc Hs]%andb_true_iff. apply negb_true_iff in Hc.
  destruct s as [|d s]; [done|]. exact (IH Hs).
Qed.

Lemma cleanPath_rooted (p : string) : ∃ rest, cleanPath p = String "/" rest.
Proof.
  unfold cleanPath. destruct p as [|c p]; [by eexists|].
  unfold Path.Clean. destruct (_ && _); by eexists.
Qed.

(** A path below [/v1/pets/] with one more element is in canonical form
    unless that element is [.] or [..]. *)
Lemma cleanPath_pet (petId : string) :
  petId ≠ EmptyString → no_slash petId = true →
  cleanPath ("/v1/pets/" +:+ petId) = "/v1/pets/" +:+ petId
  ↔ petId ≠ "." ∧ petId ≠ "..".
Proof.
  intros Hne Hns.
  destruct (String.eqb_spec petId ".") as [->|Hdot];
    [split; [by vm_compute|by intros [? _]]|].
  destruct (String.eqb_spec petId "..") as [->|Hdots];
    [split; [by vm_compute|by intros [_ ?]]|].
  split; [done|]. intros _.
  assert (Strings.Split ("/v1/pets/" +:+ petId) "/" = [EmptyString; "v1"; "pets"; petId])
    as Hsplit.
  { pose proof (Split_element petId Hns) as Hs. revert Hs.
    generalize petId. intros s Hs.
    change ("/v1/pets/" +:+ s)
      with (String "/" (String "v" (String "1" (String "/"
             (String "p" (String "e" (String "t" (String "s" (String "/" s))))))))).
    simpl. by rewrite Hs. }
  assert (ends_with_slash ("/v1/pets/" +:+ petId) = false) as Hend.
  { pose proof (ends_with_slash_element petId Hns) as He.
    destruct petId as [|c s]; [done|]. exact He. }
  unfold cleanPath.
  change ("/v1/pets/" +:+ petId) with (String "/" ("v1/pets/" +:+ petId)) at 1.
  cbv iota. change (Ascii.eqb "/" "/") with true. cbv iota.
  change (String "/" ("v1/pets/" +:+ petId)) with ("/v1/pets/" +:+ petId).
  rewrite Hend. cbn [andb]. unfold Path.Clean. rewrite Hsplit.
  cbn [Path.cleanElements]. change (String.eqb "" "") with true. cbn [orb].
  change (String.eqb "v1" "" || String.eqb "v1" ".") with false.
  change (String.eqb "v1" "..") with false.
  change (String.eqb "pets" "" || String.eqb "pets" ".") with false.
  change (String.eqb "pets" "..") with false. cbv iota.
  apply String.eqb_neq in Hne, Hdot, Hdots. rewrite Hne, Hdot, Hdots.
  cbn [orb]. cbv iota. cbn [Path.cleanElements].
  reflexivity.
Qed.

(** X9. What the router does with a request.  A path that is not in
    canonical form (a doubled slash, an element [.] or [..], no leading
    slash) is answered with a redirect to its canonical form, whatever the
    method, before any route is tried.  Of the other requests, the
    forced-error and the health handlers are reached by [GET] on exactly
    [/throw] and [/health], the pet list and the pet creation by [GET] and
    [POST] on exactly [/v1/pets], a single pet by [GET] on [/v1/pets/]
    followed by one non-empty element; the echo handler takes what is
    left, in particular every request with another method.  No request is
    left without a route. *)
Theorem createRouter_reach (method path : string) :
  (∀ location,
     createRouter method path = Redirect location
     ↔ cleanPath path ≠ path ∧ location = cleanPath path)
  ∧ (createRouter method path = Handle throwError ↔ method = "GET" ∧ path = "/throw")
  ∧ (createRouter method path = Handle healthCheck ↔ method = "GET" ∧ path = "/health")
  ∧ (createRouter method path = Handle ListPets ↔ method = "GET" ∧ path = "/v1/pets")
  ∧ (createRouter method path = Handle CreatePets ↔ method = "POST" ∧ path = "/v1/pets")
  ∧ (createRouter method path = Handle ShowPetById
     ↔ method = "GET"
       ∧ ∃ petId, path = "/v1/pets/" +:+ petId ∧ petId ≠ EmptyString
                  ∧ no_slash petId = true ∧ petId ≠ "." ∧ petId ≠ "..")
  ∧ createRouter method path ≠ NotFound
  ∧ (method ≠ "GET" → method ≠ "POST" → cleanPath path = path →
     createRouter method path = Handle echoHandler).
Proof.
  destruct (matchRoutes_reach method path) as (H1 & H2 & H3 & H4 & H5 & H6 & H7).
  unfold createRouter.
  destruct (String.eqb_spec (cleanPath path) path) as [Hclean|Hunclean]; cbn [negb].
  - assert (Strings.CutPrefix path "/" ≠ None) as Hroot.
    { destruct (cleanPath_rooted path) as [rest Hr]. rewrite Hclean in Hr.
      rewrite Hr. simpl. by destruct rest. }
    assert (∀ h, match matchRoutes method path with
                 | Some h' => Handle h'
                 | None => NotFound
                 end = Handle h ↔ matchRoutes method path = Some h) as Hh.
    { intros h. destruct (matchRoutes method path) as [h'|];
        split; intros H; by simplify_eq. }
    assert (∀ location, match matchRoutes method path with
                        | Some h' => Handle h'
                        | None => NotFound
                        end ≠ Redirect location) as Hnr.
    { intros location. by destruct (matchRoutes method path). }
    split; [intros location; split; [by intros ?%Hnr|by intros [? _]]|].
    rewrite !Hh, H1, H2, H3, H4, H5.
    split; [done|]. split; [done|]. split; [done|]. split; [done|].
    split; [|split].
    + split.
      * intros (Hm & petId & Hp & Hne & Hns). split; [done|]. exists petId.
        split; [done|]. split; [done|]. split; [done|].
        apply cleanPath_pet; [done|done|]. by rewrite <- Hp.
      * intros (Hm & petId & Hp & Hne & Hns & _). split; [done|]. by exists petId.
    + destruct (matchRoutes method path); [done|]. by destruct Hroot; apply H6.
    + intros Hget Hpost _. by rewrite (H7 Hget Hpost Hroot).
  - split; [intros location; split; [by intros [= <-]|by intros [_ ->]]|].
    split; [split; [discriminate|intros [_ ->]; by destruct Hunclean]|].
    split; [split; [discriminate|intros [_ ->]; by destruct Hunclean]|].
    split; [split; [discriminate|intros [_ ->]; by destruct Hunclean]|].
    split; [split; [discriminate|intros [_ ->]; by destruct Hunclean]|].
    split; [|split; [discriminate|by intros _ _ ?]].
    split; [discriminate|]. intros (_ & petId & -> & Hne & Hns & Hdot & Hdots).
    destruct Hunclean. by apply cleanPath_pet.
Qed.

Lemma createRouter_reach_witness :
  createRouter "DELETE" "/throw" = Handle echoHandler.
Proof.
  apply (createRouter_reach "DELETE" "/throw"); (discriminate || reflexivity).
Defined.

Example createRouter_samples :
  createRouter "GET" "//throw" = Redirect "/throw"
  ∧ createRouter "GET" "/a/../throw" = Redirect "/throw"
  ∧ createRouter "GET" "/v1/pets/.." = Redirect "/v1"
  ∧ createRouter "POST" "/v1/pets/./" = Redirect "/v1/pets/"
  ∧ createRouter "GET" "" = Redirect "/"
  ∧ createRouter "GET" "/health/" = Handle echoHandler
  ∧ createRouter "GET" "/" = Handle echoHandler
  ∧ createRouter "GET" "/v1/pets/7" = Handle ShowPetById
  ∧ createRouter "HEAD" "/health" = Handle echoHandler.
Proof. by vm_compute. Qed.

(** ** The last element of the request path *)

Lemma strip_slashes (n : nat) : Path.stripTrailingSlashes (slashes n) = EmptyString.
Proof. induction n as [|n IH]; [done|]. simpl. by rewrite IH. Qed.

Lemma strip_app (a b : string) :
  Path.stripTrailingSlashes (a +:+ b)
  = match Path.stripTrailingSlashes b with
    | EmptyString => Path.stripTrailingSlashes a
    | b' => a +:+ b'
    end.
Proof.
  induction a as [|c a IH].
  - change (EmptyString +:+ b) with b. by destruct (Path.stripTrailingSlashes b).
  - rewrite app_cons. cbn [Path.stripTrailingSlashes]. rewrite IH.
    destruct (Path.stripTrailingSlashes b) as [|d b']; [done|].
    rewrite app_cons. by destruct a.
Qed.

Lemma strip_element (name : string) :
  no_slash name = true → Path.stripTrailingSlashes name = name.
Proof.
  induction name as [|c name IH]; [done|].
  cbn [no_slash]. intros [Hc Hn]%andb_true_iff. cbn [Path.stripTrailingSlashes].
  rewrite (IH Hn). destruct name; [|done].
  by destruct (Ascii.eqb c "/").
Qed.

Lemma afterLastSlash_element (name : string) :
  no_slash name = true → Path.afterLastSlash name = None.
Proof.
  induction name as [|c name IH]; [done|].
  cbn [no_slash]. intros [Hc Hn]%andb_true_iff. cbn [Path.afterLastSlash].
  rewrite (IH Hn). by destruct (Ascii.eqb c "/").
Qed.

Lemma afterLastSlash_app (dir name : string) :
  no_slash name = true → Path.afterLastSlash (dir +:+ "/" +:+ name) = Some name.
Proof.
  intros Hn. induction dir as [|c dir IH].
  - change (EmptyString +:+ "/" +:+ name) with (String "/" name).
    cbn [Path.afterLastSlash]. by rewrite (afterLastSlash_element name Hn).
  - rewrite app_cons. cbn [Path.afterLastSlash]. by rewrite IH.
Qed.

(** X10. Dispatch goes by the last element of the path.  For a path that
    ends, before any number of trailing slashes, in the element [name]
    below any directory, [path.Base] is [name]; so a request that is no
    WebSocket upgrade gets the UI page when that element is [.ws], the SSE
    stream when it is [.sse], and the plain echo otherwise, wherever in the
    tree it is asked for. *)
Theorem dispatch_last_element (S : Surroundings) (req : Request) (dir name : string)
    (n : nat) :
  IsWebSocketUpgrade S (req_Header req) = false →
  URL_Path (req_URL req) = dir +:+ "/" +:+ name +:+ slashes n →
  no_slash name = true → name ≠ EmptyString →
  Path.Base (URL_Path (req_URL req)) = name
  ∧ dispatch S req
    = if String.eqb name ".ws" then ToFrontend
      else if String.eqb name ".sse" then ToSSE else ToHTTP.
Proof.
  intros Hws Hpath Hname Hne.
  assert (Path.Base (URL_Path (req_URL req)) = name) as Hbase.
  { rewrite Hpath. unfold Path.Base.
    assert (Path.stripTrailingSlashes (dir +:+ "/" +:+ name +:+ slashes n)
            = dir +:+ "/" +:+ name) as ->.
    { rewrite <- !app_assoc. rewrite strip_app, strip_slashes. cbv iota.
      rewrite strip_app, (strip_element name Hname).
      destruct name; [done|]. by rewrite app_assoc. }
    rewrite (afterLastSlash_app dir name Hname). cbn [default].
    destruct dir; [|by destruct name].
    change (EmptyString +:+ "/" +:+ name +:+ slashes n) with (String "/" (name +:+ slashes n)).
    cbv iota. by destruct name. }
  split; [done|]. unfold dispatch. by rewrite Hws, Hbase.
Qed.

Lemma dispatch_last_element_witness :
  Path.Base "/api/v2/.sse//" = ".sse"
  ∧ dispatch (sampleSurroundings [] (HostnameOk "echo-1") noHandshake [])
      (sampleRequest "GET" "/api/v2/.sse//" ∅ "") = ToSSE.
Proof.
  apply (dispatch_last_element
           (sampleSurroundings [] (HostnameOk "echo-1") noHandshake [])
           (sampleRequest "GET" "/api/v2/.sse//" ∅ "") "/api/v2" ".sse" 2).
  - reflexivity.
  - reflexivity.
  - reflexivity.
  - discriminate.
Defined.

(** * Properties of [openapi/petstore.go] *)

Lemma json_reply (w : ResponseWriter) (code : Z) (text : string) :
  rw_wrote w = None → informational code = false →
  let w1 := with_header w (Set_ (rw_header w) "Content-Type" "application/json") in
  let w' := Openapi.Encode (WriteHeader w1 code) text in
  status w' = Some code
  ∧ body w' = body w +:+ text +:+ LF
  ∧ sent_values w' "Content-Type" = ["application/json"].
Proof.
  intros Hw Hc w1 w'. subst w' w1. unfold Openapi.Encode.
  set (w1 := with_header _ _).
  assert (rw_wrote (Write (WriteHeader w1 code) (text +:+ LF)) = Some (code, rw_header w1)) as Hsent.
  { rewrite wrote_Write.
    rewrite (wrote_WriteHeader_again (WriteHeader w1 code) 200 (code, rw_header w1));
      by rewrite wrote_WriteHeader_fresh. }
  split; [by unfold status; rewrite Hsent|]. split.
  - rewrite body_Write, body_WriteHeader. subst w1. by rewrite body_with_header.
  - unfold sent_values. rewrite Hsent. subst w1. cbn [with_header rw_header].
    by rewrite (Set_lookup_eq _ "Content-Type").
Qed.

Lemma json_error (J : Openapi.Json) (w : ResponseWriter) (code : Z) (message : string) :
  rw_wrote w = None → informational code = false → - 2 ^ 31 ≤ code < 2 ^ 31 →
  let w1 := with_header w (Set_ (rw_header w) "Content-Type" "application/json") in
  let w' := Openapi.sendError J w1 code message in
  status w' = Some code
  ∧ body w' = body w +:+ Openapi.encodeError J {| Openapi.Code := code;
                                                  Openapi.Message := message |} +:+ LF
  ∧ sent_values w' "Content-Type" = ["application/json"].
Proof.
  intros Hw Hc Hcode w1 w'. subst w' w1. unfold Openapi.sendError.
  assert (Openapi.int32_wrap code = code) as ->.
  { unfold Openapi.int32_wrap. rewrite Z.mod_small; lia. }
  by apply json_reply.
Qed.

Lemma NewPetStore_ok : store_ok Openapi.NewPetStore.
Proof.
  split; [|split; [|done]].
  - intros id pet. unfold Openapi.NewPetStore. cbn [Openapi.pets].
    destruct (decide (id = 2)) as [->|H2]; [rewrite lookup_insert_eq; by intros [= <-]|].
    rewrite lookup_insert_ne by done.
    destruct (decide (id = 1)) as [->|H1]; [rewrite lookup_insert_eq; by intros [= <-]|].
    rewrite lookup_insert_ne by done. by rewrite lookup_empty.
  - intros id. unfold Openapi.NewPetStore. cbn [Openapi.pets Openapi.nextID].
    destruct (decide (id = 2)) as [->|H2]; [rewrite lookup_insert_eq; split; [lia|by eexists]|].
    rewrite lookup_insert_ne by done.
    destruct (decide (id = 1)) as [->|H1]; [rewrite lookup_insert_eq; split; [lia|by eexists]|].
    rewrite lookup_insert_ne by done. rewrite lookup_empty. split; [by intros [? ?]|lia].
Qed.

Lemma CreatePets_store (J : Openapi.Json) (ps : Openapi.PetStore) (w : ResponseWriter)
    (r : Request) :
  (Openapi.CreatePets J ps w r).1
  = match Openapi.json_decode_pet J (req_Body r) with
    | Some pet =>
        if String.eqb (Openapi.Name pet) EmptyString then ps
        else {| Openapi.pets :=
                  <[Openapi.nextID ps := {| Openapi.ID := Openapi.nextID ps;
                                            Openapi.Name := Openapi.Name pet;
                                            Openapi.Tag := Openapi.Tag pet |}]>
                    (Openapi.pets ps);
                Openapi.nextID := int_wrap (Openapi.nextID ps + 1) |}
    | None => ps
    end.
Proof.
  unfold Openapi.CreatePets.
  destruct (Openapi.json_decode_pet J (req_Body r)) as [pet|]; [|done].
  by destruct (String.eqb (Openapi.Name pet) EmptyString).
Qed.

Lemma insert_next_ok (ps : Openapi.PetStore) (name tag : string) :
  store_ok ps → Openapi.nextID ps < Strconv.maxInt →
  store_ok {| Openapi.pets :=
                <[Openapi.nextID ps := {| Openapi.ID := Openapi.nextID ps;
                                          Openapi.Name := name; Openapi.Tag := tag |}]>
                  (Openapi.pets ps);
              Openapi.nextID := int_wrap (Openapi.nextID ps + 1) |}.
Proof.
  intros (Hid & Hdom & Hpos) Hmax.
  assert (int_wrap (Openapi.nextID ps + 1) = Openapi.nextID ps + 1) as ->.
  { apply int_wrap_small. unfold Strconv.minInt, Strconv.maxInt in *. lia. }
  split; [|split]; cbn [Openapi.pets Openapi.nextID].
  - intros id pet.
    destruct (decide (id = Openapi.nextID ps)) as [->|Hne].
    + rewrite lookup_insert_eq. by intros [= <-].
    + rewrite lookup_insert_ne by done. apply Hid.
  - intros id.
    destruct (decide (id = Openapi.nextID ps)) as [->|Hne].
    + rewrite lookup_insert_eq. split; [lia|by eexists].
    + rewrite lookup_insert_ne by done. rewrite Hdom. lia.
  - lia.
Qed.

Lemma CreatePets_keeps_ok (J : Openapi.Json) (ps : Openapi.PetStore) (w : ResponseWriter)
    (r : Request) :
  store_ok ps → Openapi.nextID ps < Strconv.maxInt →
  store_ok (Openapi.CreatePets J ps w r).1
  ∧ Openapi.nextID (Openapi.CreatePets J ps w r).1
    = Openapi.nextID ps + (if accepted J r then 1 else 0).
Proof.
  intros Hok Hmax. rewrite CreatePets_store. unfold accepted.
  destruct (Openapi.json_decode_pet J (req_Body r)) as [pet|]; [|by rewrite Z.add_0_r].
  destruct (String.eqb (Openapi.Name pet) EmptyString); cbn [negb]; [by rewrite Z.add_0_r|].
  split; [by apply insert_next_ok|]. cbn [Openapi.nextID].
  apply int_wrap_small. destruct Hok as (_ & _ & Hpos).
  unfold Strconv.minInt, Strconv.maxInt in *. lia.
Qed.

(** X11. The ids of the pet store.  Starting from a store that holds
    every pet under its own id and uses the ids from 1 up to [nextID]
    without gaps (as the store of [NewPetStore] does), any sequence of
    [CreatePets] calls keeps it so, as long as the counter does not reach
    the end of [int64]; the counter has advanced by the number of requests
    accepted, and a rejected request does not use up an id. *)
Theorem createAll_store_ok (J : Openapi.Json) (ps : Openapi.PetStore)
    (requests : list Request) :
  store_ok ps →
  Openapi.nextID ps + Z.of_nat (length requests) ≤ Strconv.maxInt →
  store_ok (Openapi.createAll J ps requests)
  ∧ Openapi.nextID (Openapi.createAll J ps requests)
    = Openapi.nextID ps + Z.of_nat (length (List.filter (accepted J) requests)).
Proof.
  revert ps. induction requests as [|r rest IH]; intros ps Hok Hmax.
  - simpl. split; [done|lia].
  - cbn [Openapi.createAll List.filter]. cbn [length] in Hmax.
    destruct (CreatePets_keeps_ok J ps (newResponseWriter true) r Hok) as [Hok' Hnext]; [lia|].
    destruct (IH (Openapi.CreatePets J ps (newResponseWriter true) r).1 Hok') as [Hok'' Hnext''].
    { rewrite Hnext. destruct (accepted J r); lia. }
    split; [done|]. rewrite Hnext'', Hnext.
    destruct (accepted J r); cbn [length]; lia.
Qed.

Lemma createAll_store_ok_witness :
  store_ok (Openapi.createAll sampleJson Openapi.NewPetStore
              [petRequest "POST" "/v1/pets" ∅ "Buddy"; petRequest "POST" "/v1/pets" ∅ "{}";
               petRequest "POST" "/v1/pets" ∅ "Rover"])
  ∧ Openapi.nextID (Openapi.createAll sampleJson Openapi.NewPetStore
                      [petRequest "POST" "/v1/pets" ∅ "Buddy";
                       petRequest "POST" "/v1/pets" ∅ "{}";
                       petRequest "POST" "/v1/pets" ∅ "Rover"])
    = 5.
Proof.
  apply (createAll_store_ok sampleJson Openapi.NewPetStore
           [petRequest "POST" "/v1/pets" ∅ "Buddy"; petRequest "POST" "/v1/pets" ∅ "{}";
            petRequest "POST" "/v1/pets" ∅ "Rover"]).
  - exact NewPetStore_ok.
  - vm_compute. discriminate.
Defined.

Lemma CreatePets_stores (J : Openapi.Json) (ps : Openapi.PetStore) (w : ResponseWriter)
    (r : Request) (pet : Openapi.Pet) :
  store_ok ps →
  Openapi.json_decode_pet J (req_Body r) = Some pet →
  Openapi.Name pet ≠ EmptyString →
  Openapi.pets ps !! Openapi.nextID ps = None
  ∧ Openapi.pets (Openapi.CreatePets J ps w r).1 !! Openapi.nextID ps
    = Some {| Openapi.ID := Openapi.nextID ps; Openapi.Name := Openapi.Name pet;
              Openapi.Tag := Openapi.Tag pet |}
  ∧ ∀ id, id ≠ Openapi.nextID ps →
          Openapi.pets (Openapi.CreatePets J ps w r).1 !! id = Openapi.pets ps !! id.
Proof.
  intros (Hid & Hdom & Hpos) Hdec Hname.
  rewrite CreatePets_store, Hdec.
  apply String.eqb_neq in Hname. rewrite Hname. cbn [Openapi.pets].
  split; [|split].
  - destruct (Openapi.pets ps !! Openapi.nextID ps) eqn:E; [|done].
    assert (is_Some (Openapi.pets ps !! Openapi.nextID ps)) as H by (by eexists).
    apply Hdom in H. lia.
  - by rewrite lookup_insert_eq.
  - intros id Hne. by rewrite lookup_insert_ne.
Qed.

(** X12. A created pet gets a fresh id.  When the body decodes to a pet
    with a name, [CreatePets] stores it under the current [nextID], which
    no pet held before, whatever id the client sent; every other pet stays
    as it was; the reply is 201 with the JSON text of the pet as stored. *)
Theorem CreatePets_fresh_id (J : Openapi.Json) (ps : Openapi.PetStore) (w : ResponseWriter)
    (r : Request) (pet : Openapi.Pet) :
  store_ok ps → rw_wrote w = None →
  Openapi.json_decode_pet J (req_Body r) = Some pet →
  Openapi.Name pet ≠ EmptyString →
  let ps' := (Openapi.CreatePets J ps w r).1 in
  let w' := (Openapi.CreatePets J ps w r).2 in
  let created := {| Openapi.ID := Openapi.nextID ps; Openapi.Name := Openapi.Name pet;
                    Openapi.Tag := Openapi.Tag pet |} in
  Openapi.pets ps !! Openapi.nextID ps = None
  ∧ Openapi.pets ps' !! Openapi.nextID ps = Some created
  ∧ (∀ id, id ≠ Openapi.nextID ps → Openapi.pets ps' !! id = Openapi.pets ps !! id)
  ∧ status w' = Some Openapi.StatusCreated
  ∧ body w' = body w +:+ Openapi.encodePet J created +:+ LF
  ∧ sent_values w' "Content-Type" = ["application/json"].
Proof.
  intros Hok Hw Hdec Hname ps' w' created. subst ps' w' created.
  destruct (CreatePets_stores J ps w r pet Hok Hdec Hname) as (Hfree & Hnew & Hframe).
  split; [done|]. split; [done|]. split; [done|].
  unfold Openapi.CreatePets. rewrite Hdec.
  apply String.eqb_neq in Hname. rewrite Hname. cbn [snd Openapi.ID].
  by apply json_reply.
Qed.

Lemma CreatePets_fresh_id_witness :
  Openapi.pets Openapi.NewPetStore !! 3 = None
  ∧ Openapi.pets (Openapi.CreatePets sampleJson Openapi.NewPetStore (newResponseWriter true)
                    (petRequest "POST" "/v1/pets" ∅ "Buddy")).1 !! 3
    = Some {| Openapi.ID := 3; Openapi.Name := "Buddy"; Openapi.Tag := "" |}
  ∧ status (Openapi.CreatePets sampleJson Openapi.NewPetStore (newResponseWriter true)
              (petRequest "POST" "/v1/pets" ∅ "Buddy")).2 = Some 201.
Proof.
  destruct (CreatePets_fresh_id sampleJson Openapi.NewPetStore (newResponseWriter true)
              (petRequest "POST" "/v1/pets" ∅ "Buddy")
              {| Openapi.ID := 42; Openapi.Name := "Buddy"; Openapi.Tag := "" |})
    as (Hfree & Hnew & _ & Hst & _).
  - exact NewPetStore_ok.
  - reflexivity.
  - reflexivity.
  - discriminate.
  - split; [exact Hfree|]. split; [exact Hnew|exact Hst].
Defined.

(** X13. A rejected creation changes nothing.  When the body does not
    decode, or decodes to a pet without a name, [CreatePets] leaves the
    store as it was (no id is used up) and answers 400 with a JSON error
    whose [code] is the status sent. *)
Theorem CreatePets_rejected (J : Openapi.Json) (ps : Openapi.PetStore) (w : ResponseWriter)
    (r : Request) :
  rw_wrote w = None → accepted J r = false →
  (Openapi.CreatePets J ps w r).1 = ps
  ∧ status (Openapi.CreatePets J ps w r).2 = Some StatusBadRequest
  ∧ sent_values (Openapi.CreatePets J ps w r).2 "Content-Type" = ["application/json"]
  ∧ ∃ message,
      body (Openapi.CreatePets J ps w r).2
      = body w +:+ Openapi.encodeError J {| Openapi.Code := StatusBadRequest;
                                            Openapi.Message := message |} +:+ LF.
Proof.
  intros Hw Hrej. unfold accepted in Hrej. unfold Openapi.CreatePets.
  destruct (Openapi.json_decode_pet J (req_Body r)) as [pet|].
  - apply negb_false_iff in Hrej. rewrite Hrej. cbn [fst snd].
    destruct (json_error J w StatusBadRequest "Pet name is required" Hw eq_refl) as (Hst & Hbody & Hct);
      [by vm_compute|].
    split; [done|]. split; [done|]. split; [done|]. by eexists.
  - cbn [fst snd].
    destruct (json_error J w StatusBadRequest "Invalid request body" Hw eq_refl) as (Hst & Hbody & Hct);
      [by vm_compute|].
    split; [done|]. split; [done|]. split; [done|]. by eexists.
Qed.

Lemma CreatePets_rejected_witness :
  (Openapi.CreatePets sampleJson Openapi.NewPetStore (newResponseWriter true)
     (petRequest "POST" "/v1/pets" ∅ "{}")).1 = Openapi.NewPetStore
  ∧ status (Openapi.CreatePets sampleJson Openapi.NewPetStore (newResponseWriter true)
              (petRequest "POST" "/v1/pets" ∅ "{}")).2 = Some 400.
Proof.
  destruct (CreatePets_rejected sampleJson Openapi.NewPetStore (newResponseWriter true)
              (petRequest "POST" "/v1/pets" ∅ "{}"))
    as (Hstore & Hst & _).
  - reflexivity.
  - reflexivity.
  - split; [exact Hstore|exact Hst].
Defined.

(** X14. Looking up a pet by id.  In a store in order, [ShowPetById]
    answers 400 when the [petId] of the route is not a decimal [int64],
    404 when it is a number outside the ids given out so far, and 200 with
    the JSON text of the pet stored under it, which carries the id asked
    for, otherwise; in the error replies the [code] of the JSON body is
    the status sent. *)
Theorem ShowPetById_replies (J : Openapi.Json) (ps : Openapi.PetStore)
    (vars : gmap string string) (w : ResponseWriter) :
  store_ok ps → rw_wrote w = None →
  let w' := Openapi.ShowPetById J ps vars w in
  sent_values w' "Content-Type" = ["application/json"]
  ∧ match Strconv.Atoi (default EmptyString (vars !! "petId")) with
    | (_, Some _) =>
        status w' = Some StatusBadRequest
        ∧ body w' = body w +:+ Openapi.encodeError J {| Openapi.Code := StatusBadRequest;
                                                        Openapi.Message := "Invalid pet ID" |}
                      +:+ LF
    | (petID, None) =>
        if decide (0 < petID < Openapi.nextID ps)
        then ∃ pet, Openapi.pets ps !! petID = Some pet ∧ Openapi.ID pet = petID
                    ∧ status w' = Some StatusOK
                    ∧ body w' = body w +:+ Openapi.encodePet J pet +:+ LF
        else status w' = Some Openapi.StatusNotFound
             ∧ body w' = body w +:+ Openapi.encodeError J
                                      {| Openapi.Code := Openapi.StatusNotFound;
                                         Openapi.Message := "Pet not found" |} +:+ LF
    end.
Proof.
  intros (Hid & Hdom & Hpos) Hw w'. subst w'. unfold Openapi.ShowPetById.
  destruct (Strconv.Atoi (default EmptyString (vars !! "petId"))) as [petID [err|]].
  - destruct (json_error J w StatusBadRequest "Invalid pet ID" Hw eq_refl) as (Hst & Hbody & Hct);
      [by vm_compute|done].
  - destruct (Openapi.pets ps !! petID) as [pet|] eqn:E.
    + destruct (json_reply w StatusOK (Openapi.encodePet J pet) Hw eq_refl) as (Hst & Hbody & Hct).
      split; [done|].
      assert (0 < petID < Openapi.nextID ps) as Hin by (apply Hdom; by eexists).
      rewrite decide_True by done. exists pet. by rewrite (Hid petID pet E).
    + destruct (json_error J w Openapi.StatusNotFound "Pet not found" Hw eq_refl)
        as (Hst & Hbody & Hct); [by vm_compute|].
      split; [done|].
      rewrite decide_False; [done|]. intros Hin. apply Hdom in Hin as [pet Hpet]. congruence.
Qed.

Lemma ShowPetById_replies_witness :
  status (Openapi.ShowPetById sampleJson Openapi.NewPetStore {[ "petId" := "2" ]}
            (newResponseWriter true)) = Some 200
  ∧ status (Openapi.ShowPetById sampleJson Openapi.NewPetStore {[ "petId" := "999" ]}
              (newResponseWriter true)) = Some 404
  ∧ status (Openapi.ShowPetById sampleJson Openapi.NewPetStore {[ "petId" := "invalid" ]}
              (newResponseWriter true)) = Some 400.
Proof.
  pose proof (ShowPetById_replies sampleJson Openapi.NewPetStore {[ "petId" := "2" ]}
                (newResponseWriter true) NewPetStore_ok eq_refl) as [_ H2].
  pose proof (ShowPetById_replies sampleJson Openapi.NewPetStore {[ "petId" := "999" ]}
                (newResponseWriter true) NewPetStore_ok eq_refl) as [_ H999].
  pose proof (ShowPetById_replies sampleJson Openapi.NewPetStore {[ "petId" := "invalid" ]}
                (newResponseWriter true) NewPetStore_ok eq_refl) as [_ Hinv].
  split; [|split].
  - vm_compute in H2. destruct H2 as (pet & _ & _ & Hst & _). exact Hst.
  - exact (proj1 H999).
  - exact (proj1 Hinv).
Defined.

(** X15. A created pet can be fetched.  After an accepted [CreatePets],
    [ShowPetById] with the id given out, written in decimal as the reply
    prints it, answers 200 with the same JSON text the creation replied
    with, where it answered 404 before; for a [petId] that reads as another
    number, or as none, the answer is the one the store gave before the
    creation. *)
Theorem CreatePets_then_ShowPetById (J : Openapi.Json) (ps : Openapi.PetStore)
    (w w2 : ResponseWriter) (r : Request) (vars : gmap string string) :
  store_ok ps → Openapi.nextID ps ≤ Strconv.maxInt →
  rw_wrote w = None → rw_wrote w2 = None →
  accepted J r = true →
  vars !! "petId" = Some (Strconv.Itoa (Openapi.nextID ps)) →
  let ps' := (Openapi.CreatePets J ps w r).1 in
  ∃ text,
    body (Openapi.CreatePets J ps w r).2 = body w +:+ text
    ∧ body (Openapi.ShowPetById J ps' vars w2) = body w2 +:+ text
    ∧ status (Openapi.ShowPetById J ps' vars w2) = Some StatusOK
    ∧ status (Openapi.ShowPetById J ps vars w2) = Some Openapi.StatusNotFound
    ∧ ∀ vars',
        (Strconv.Atoi (default EmptyString (vars' !! "petId"))).1 ≠ Openapi.nextID ps →
        Openapi.ShowPetById J ps' vars' w2 = Openapi.ShowPetById J ps vars' w2.
Proof.
  intros Hok Hmax Hw Hw2 Hacc Hvar ps'. subst ps'.
  assert (Strconv.Atoi (default EmptyString (vars !! "petId")) = (Openapi.nextID ps, None))
    as Hvars.
  { rewrite Hvar. cbn [default]. apply Atoi_Itoa.
    destruct Hok as (_ & _ & Hpos). unfold Strconv.minInt. lia. }
  unfold accepted in Hacc.
  destruct (Openapi.json_decode_pet J (req_Body r)) as [pet|] eqn:Hdec; [|done].
  apply negb_true_iff, String.eqb_neq in Hacc.
  destruct (CreatePets_stores J ps w r pet Hok Hdec Hacc) as (Hfree & Hnew & Hframe).
  exists (Openapi.encodePet J {| Openapi.ID := Openapi.nextID ps;
                                 Openapi.Name := Openapi.Name pet;
                                 Openapi.Tag := Openapi.Tag pet |} +:+ LF).
  split.
  { unfold Openapi.CreatePets. rewrite Hdec.
    rewrite (proj2 (String.eqb_neq _ _) Hacc). cbn [snd Openapi.ID].
    by destruct (json_reply w Openapi.StatusCreated
                   (Openapi.encodePet J {| Openapi.ID := Openapi.nextID ps;
                                           Openapi.Name := Openapi.Name pet;
                                           Openapi.Tag := Openapi.Tag pet |}) Hw eq_refl)
      as (_ & -> & _). }
  split; [|split; [|split]].
  - unfold Openapi.ShowPetById. rewrite Hvars, Hnew.
    by destruct (json_reply w2 StatusOK
                   (Openapi.encodePet J {| Openapi.ID := Openapi.nextID ps;
                                           Openapi.Name := Openapi.Name pet;
                                           Openapi.Tag := Openapi.Tag pet |}) Hw2 eq_refl)
      as (_ & -> & _).
  - unfold Openapi.ShowPetById. rewrite Hvars, Hnew.
    by destruct (json_reply w2 StatusOK
                   (Openapi.encodePet J {| Openapi.ID := Openapi.nextID ps;
                                           Openapi.Name := Openapi.Name pet;
                                           Openapi.Tag := Openapi.Tag pet |}) Hw2 eq_refl)
      as (-> & _).
  - unfold Openapi.ShowPetById. rewrite Hvars, Hfree.
    by destruct (json_error J w2 Openapi.StatusNotFound "Pet not found" Hw2 eq_refl) as (-> & _);
      [by vm_compute|].
  - intros vars' Hne. unfold Openapi.ShowPetById.
    destruct (Strconv.Atoi (default EmptyString (vars' !! "petId"))) as [petID [err|]]; [done|].
    cbn [fst] in Hne. by rewrite (Hframe petID Hne).
Qed.

Lemma CreatePets_then_ShowPetById_witness :
  ∃ text,
    body (Openapi.CreatePets sampleJson Openapi.NewPetStore (newResponseWriter true)
            (petRequest "POST" "/v1/pets" ∅ "Buddy")).2 = text
    ∧ body (Openapi.ShowPetById sampleJson
              (Openapi.CreatePets sampleJson Openapi.NewPetStore (newResponseWriter true)
                 (petRequest "POST" "/v1/pets" ∅ "Buddy")).1
              {[ "petId" := "3" ]} (newResponseWriter true)) = text
    ∧ status (Openapi.ShowPetById sampleJson
                (Openapi.CreatePets sampleJson Openapi.NewPetStore (newResponseWriter true)
                   (petRequest "POST" "/v1/pets" ∅ "Buddy")).1
                {[ "petId" := "3" ]} (newResponseWriter true)) = Some 200.
Proof.
  destruct (CreatePets_then_ShowPetById sampleJson Openapi.NewPetStore
              (newResponseWriter true) (newResponseWriter true)
              (petRequest "POST" "/v1/pets" ∅ "Buddy") {[ "petId" := "3" ]})
    as (text & Hcreate & Hshow & Hst & _).
  - exact NewPetStore_ok.
  - vm_compute. discriminate.
  - reflexivity.
  - reflexivity.
  - reflexivity.
  - reflexivity.
  - exists text. split; [exact Hcreate|]. split; [exact Hshow|exact Hst].
Defined.

Lemma collect_take (limit : Z) (ranged collected : list Openapi.Pet) :
  Openapi.collect limit ranged collected
  = collected ++ take (Z.to_nat limit - length collected) ranged.
Proof.
  revert collected. induction ranged as [|pet rest IH]; intros collected.
  - simpl. by rewrite take_nil, (right_id [] app).
  - cbn [Openapi.collect].
    destruct (Z.geb_spec (Z.of_nat (length collected)) limit) as [Hge|Hlt].
    + replace (Z.to_nat limit - length collected)%nat with 0%nat by lia.
      by rewrite (right_id [] app).
    + rewrite IH. rewrite length_app. cbn [length].
      replace (Z.to_nat limit - length collected)%nat
        with (Datatypes.S (Z.to_nat limit - (length collected + 1)))%nat by lia.
      cbn [take]. by rewrite <- (assoc app).
Qed.

(** X16. The page size of the pet list.  [ListPets] works with a limit
    between 1 and 100: the [limit] parameter itself when it is the decimal
    text of a number in that range, and 100 when it is absent, empty, no
    number, not positive, or larger.  For any order in which the map
    yields the pets of a store in order, the reply is 200 with the JSON
    list of the first pets of that order, as many as the limit allows:
    the smaller of the limit and the number of pets stored, each of them a
    pet of the store. *)
Theorem ListPets_page (J : Openapi.Json) (ps : Openapi.PetStore) (ranged : list Openapi.Pet)
    (w : ResponseWriter) (r : Request) :
  store_ok ps → rw_wrote w = None → ranged ≡ₚ Openapi.range_pets ps →
  let limit := Openapi.listLimit r in
  let limitStr := Values_Get (URL_Query (req_URL r)) "limit" in
  let listed := take (Z.to_nat limit) ranged in
  1 ≤ limit ≤ 100
  ∧ (∀ n, 1 ≤ n ≤ 100 → limitStr = Strconv.Itoa n → limit = n)
  ∧ (∀ n err, Strconv.Atoi limitStr = (n, err) →
       limitStr = EmptyString ∨ err ≠ None ∨ n ≤ 0 ∨ 100 < n → limit = 100)
  ∧ status (Openapi.ListPets_ranged J ranged w r) = Some StatusOK
  ∧ body (Openapi.ListPets_ranged J ranged w r) = body w +:+ Openapi.encodePets J listed +:+ LF
  ∧ sent_values (Openapi.ListPets_ranged J ranged w r) "Content-Type" = ["application/json"]
  ∧ length listed = (Z.to_nat limit `min` size (Openapi.pets ps))%nat
  ∧ ∀ pet, pet ∈ listed → Openapi.pets ps !! Openapi.ID pet = Some pet.
Proof.
  intros (Hid & Hdom & Hpos) Hw Hperm limit limitStr listed.
  assert (1 ≤ limit ≤ 100) as Hlimit.
  { subst limit. unfold Openapi.listLimit.
    destruct (negb _); [|lia].
    destruct (Strconv.Atoi _) as [n [err|]]; [lia|].
    destruct (Z.gtb_spec n 0); [|lia]. destruct (Z.gtb_spec n 100); lia. }
  split; [done|]. split; [|split].
  - intros n Hn Hs. subst limit. unfold Openapi.listLimit. fold limitStr. rewrite Hs.
    assert (Strconv.Atoi (Strconv.Itoa n) = (n, None)) as Hrt.
    { apply Atoi_Itoa. unfold Strconv.minInt, Strconv.maxInt. lia. }
    rewrite Hrt.
    assert (Strconv.Itoa n ≠ EmptyString) as Hne.
    { intros He. rewrite He in Hrt. vm_compute in Hrt. discriminate Hrt. }
    apply String.eqb_neq in Hne. rewrite Hne. cbn [negb].
    destruct (Z.gtb_spec n 0); [|lia]. destruct (Z.gtb_spec n 100); lia.
  - intros n err Hatoi Hcase. subst limit. unfold Openapi.listLimit. fold limitStr.
    rewrite Hatoi.
    destruct (String.eqb_spec limitStr EmptyString) as [He|Hne]; [done|]. cbn [negb].
    destruct err as [e|]; [done|].
    destruct (Z.gtb_spec n 0); [|done]. destruct (Z.gtb_spec n 100); [done|].
    destruct Hcase as [?|[?|[?|?]]]; (done || lia).
  - destruct (json_reply w StatusOK (Openapi.encodePets J listed) Hw eq_refl) as (Hst & Hbody & Hct).
    unfold Openapi.ListPets_ranged. rewrite collect_take. cbn [app length].
    rewrite Nat.sub_0_r. fold limit. fold listed.
    split; [done|]. split; [done|]. split; [done|].
    split.
    + subst listed. rewrite length_take.
      rewrite Hperm. unfold Openapi.range_pets.
      by rewrite length_fmap, length_map_to_list.
    + intros pet Hin. subst listed.
      apply elem_of_take in Hin as (i & Hi & _).
      apply list_elem_of_lookup_2 in Hi. rewrite Hperm in Hi.
      unfold Openapi.range_pets in Hi.
      apply list_elem_of_fmap in Hi as ([id pet'] & -> & Hi). cbn [snd].
      apply elem_of_map_to_list in Hi. by rewrite (Hid id pet' Hi).
Qed.

Lemma ListPets_page_witness :
  body (Openapi.ListPets_ranged sampleJson
          [ {| Openapi.ID := 1; Openapi.Name := "Fluffy"; Openapi.Tag := "cat" |};
            {| Openapi.ID := 2; Openapi.Name := "Rex"; Openapi.Tag := "dog" |} ]
          (newResponseWriter true)
          (petRequest "GET" "/v1/pets" {[ "limit" := ["1"] ]} ""))
  = Openapi.encodePets sampleJson
      [ {| Openapi.ID := 1; Openapi.Name := "Fluffy"; Openapi.Tag := "cat" |} ] +:+ LF.
Proof.
  destruct (ListPets_page sampleJson Openapi.NewPetStore
              [ {| Openapi.ID := 1; Openapi.Name := "Fluffy"; Openapi.Tag := "cat" |};
                {| Openapi.ID := 2; Openapi.Name := "Rex"; Openapi.Tag := "dog" |} ]
              (newResponseWriter true)
              (petRequest "GET" "/v1/pets" {[ "limit" := ["1"] ]} ""))
    as (_ & _ & _ & _ & Hbody & _).
  - exact NewPetStore_ok.
  - reflexivity.
  - vm_compute. apply perm_swap.
  - exact Hbody.
Defined.
